(** * View Manager plugin: the preferences record and the configuration dialog

    A shallow embedding of [ViewManager/config.py], and the properties its
    specification states of it.  The definitions follow the source
    top-down:

    - [Py]      the Python string and integer primitives the code calls
                ([strip], [lower], [split], [str], [int]) and an exception
                monad for [KeyError] and friends;
    - [Qt]      the few toolkit widgets whose state the code reads back
                ([QComboBox], the items of a [QListWidget]);
    - [Prefs]   the module-level functions over the preferences stores, on
                an object heap so that aliasing and [copy.deepcopy] mean
                something;
    - [Dialog]  [ViewComboBox], [SearchComboBox], [ColumnListWidget],
                [SortColumnListWidget] and [ConfigWidget], with the
                actions of the user between two callbacks.

    Then come the predicates the properties are stated with ([PrefsSpec],
    [PySpec], [DialogSpec]), and the proofs ([PyTheory], [PrefsTheory],
    [DialogTheory], [DialogClaims]), followed by further properties of
    the widgets ([Combos], [Lists], [Columns]), of the host's column
    query ([HostColumns]), of the preferences stores ([Store]) and of
    the dialog as the user drives it ([Views], [Edits]).

    Unicode strings are modelled by [string], whose characters are read as
    the code points 0..255.  [FavouritesMenu/__init__.py] only declares
    the plugin to the host and has nothing to model. *)

From Stdlib Require Import ZArith QArith Ascii String DecimalString DecimalZ.
From stdpp Require Import base option list sorting gmap strings.

Local Open Scope Z_scope.

(* ===================================================================== *)
(** * Python primitives *)
(* ===================================================================== *)

Module Py.

(** Exceptions the code can raise.  Nothing in [config.py] catches them,
    except the bare [except:] around [os.remove]: an exception ends the
    callback it is raised in, and the model does not follow the dialog
    beyond that point.  [TypeError] also stands for the failures of an
    operation applied to an object of the wrong kind. *)
Inductive exn :=
| KeyError (key : string)
| IndexError
| ValueError
| TypeError
| RuntimeError
| OSError.

Inductive result (A : Type) :=
| Ok (a : A)
| Raise (e : exn).
Arguments Ok {A} a.
Arguments Raise {A} e.

Definition bind {A B} (m : result A) (k : A → result B) : result B :=
  match m with
  | Ok a => k a
  | Raise e => Raise e
  end.

Declare Scope py_scope.
Delimit Scope py_scope with py.
Notation "x ← y ; z" := (bind y (fun x => z))
  (at level 20, y at level 100, z at level 200, only parsing) : py_scope.
Notation "' x ← y ; z" := (bind y (fun x => z))
  (at level 20, x pattern, y at level 100, z at level 200, only parsing)
  : py_scope.
Open Scope py_scope.

(** [d[k]] on a dict. *)
Definition getitem {V} (d : gmap string V) (k : string) : result V :=
  match d !! k with
  | Some v => Ok v
  | None => Raise (KeyError k)
  end.

(** [l[i]] on a list, for a non-negative index. *)
Definition index {A} (l : list A) (i : nat) : result A :=
  match l !! i with
  | Some v => Ok v
  | None => Raise IndexError
  end.

Fixpoint mapM {A B} (f : A → result B) (l : list A) : result (list B) :=
  match l with
  | [] => Ok []
  | x :: l' => y ← f x ; ys ← mapM f l' ; Ok (y :: ys)
  end.

(** ** [unicode.lower] *)

Definition lower_char (a : ascii) : ascii :=
  let n := N_of_ascii a in
  if ((65 <=? n) && (n <=? 90) ||
      (192 <=? n) && (n <=? 222) && negb (n =? 215))%N
  then ascii_of_N (n + 32) else a.

Fixpoint lower (s : string) : string :=
  match s with
  | EmptyString => EmptyString
  | String a s' => String (lower_char a) (lower s')
  end.

(** ** [unicode.strip] *)

Definition is_space (a : ascii) : bool :=
  let n := N_of_ascii a in
  ((9 <=? n) && (n <=? 13) || (28 <=? n) && (n <=? 32) ||
   (n =? 133) || (n =? 160))%N.

Fixpoint lstrip (s : string) : string :=
  match s with
  | EmptyString => EmptyString
  | String a s' => if is_space a then lstrip s' else s
  end.

Fixpoint rstrip (s : string) : string :=
  match s with
  | EmptyString => EmptyString
  | String a s' =>
      match rstrip s' with
      | EmptyString => if is_space a then EmptyString else String a EmptyString
      | r => String a r
      end
  end.

Definition strip (s : string) : string := rstrip (lstrip s).

(** ** [unicode.split(sep)] for a one-character separator: the pieces
    between the separators, always at least one piece. *)

Fixpoint split (sep : ascii) (s : string) : list string :=
  match s with
  | EmptyString => [EmptyString]
  | String a s' =>
      if Ascii.eqb a sep then EmptyString :: split sep s'
      else match split sep s' with
           | [] => [String a EmptyString]
           | p :: ps => String a p :: ps
           end
  end.

(** ** [str(n)] and [int(s)] on integers.  [int] accepts surrounding
    white space, an optional sign and at least one decimal digit; anything
    else is a [ValueError]. *)

Definition str (z : Z) : string := NilZero.string_of_int (Z.to_int z).

Definition int_digits (s : string) : result Z :=
  match NilZero.uint_of_string s with
  | Some d => Ok (Z.of_uint d)
  | None => Raise ValueError
  end.

Definition int (s : string) : result Z :=
  match strip s with
  | String "+" d => int_digits d
  | String "-" d => z ← int_digits d ; Ok (- z)
  | d => int_digits d
  end.

(** Truth value of a string or of [None]. *)
Definition truthy (s : string) : bool :=
  match s with EmptyString => false | _ => true end.

Definition truthy_opt (o : option string) : bool :=
  match o with Some s => truthy s | None => false end.

End Py.

Import Py.
Open Scope py_scope.

(* ===================================================================== *)
(** * Toolkit widgets *)
(* ===================================================================== *)

(** The toolkit is not part of the repository; these definitions give the
    documented behaviour of the handful of [QComboBox] and
    [QListWidgetItem] members that [config.py] calls. *)
Module Qt.

(** [Qt.Unchecked] and [Qt.Checked]; the code never sets
    [Qt.PartiallyChecked]. *)
Inductive CheckState := Unchecked | Checked.

#[global] Instance CheckState_eq_dec : EqDecision CheckState.
Proof. solve_decision. Defined.

Definition is_checked (c : CheckState) : bool :=
  match c with Checked => true | Unchecked => false end.

Definition check_of_bool (b : bool) : CheckState :=
  if b then Checked else Unchecked.

(** A non-editable combo box: its item texts and the current index, [-1]
    when there is no current item. *)
Record QComboBox := mkCombo {
  items : list string;
  currentIndex : Z
}.

Definition clear : QComboBox := mkCombo [] (-1).

Definition count (c : QComboBox) : Z := Z.of_nat (length (items c)).

(** Inserting into an empty combo box makes the new item current. *)
Definition addItem (t : string) (c : QComboBox) : QComboBox :=
  mkCombo (items c ++ [t])
          (match items c with [] => 0 | _ => currentIndex c end).

Definition setCurrentIndex (i : Z) (c : QComboBox) : QComboBox :=
  mkCombo (items c) (if (0 <=? i) && (i <? count c) then i else -1).

Definition currentText (c : QComboBox) : string :=
  if currentIndex c <? 0 then EmptyString
  else default EmptyString (items c !! Z.to_nat (currentIndex c)).

(** [findText] with its default flags: exact, case-sensitive match; the
    index of the first match or [-1]. *)
Fixpoint find_from (t : string) (l : list string) (i : Z) : Z :=
  match l with
  | [] => -1
  | x :: l' => if String.eqb x t then i else find_from t l' (i + 1)
  end.

Definition findText (t : string) (c : QComboBox) : Z :=
  find_from t (items c) 0.

(** An item of a [QListWidget]: its display text, the [Qt.UserRole] data,
    whether [Qt.ItemIsUserCheckable] is among its flags, and its check
    state (a new item is unchecked). *)
Record QListWidgetItem := mkItem {
  text : string;
  data : string;
  userCheckable : bool;
  checkState : CheckState
}.

End Qt.

Import Qt.

(* ===================================================================== *)
(** * The preferences stores *)
(* ===================================================================== *)

Module Prefs.

Definition PREFS_NAMESPACE : string := "ViewManagerPlugin".
Definition PREFS_KEY_SETTINGS : string := "settings".

Definition KEY_AUTO_APPLY_VIEW : string := "autoApplyView".
Definition STORE_LIBRARIES : string := "libraries".
Definition KEY_VIEWS : string := "views".
Definition KEY_LAST_VIEW : string := "lastView".
Definition KEY_VIEW_TO_APPLY : string := "viewToApply".

Definition LAST_VIEW_ITEM : string := "*Last View Used".

Definition KEY_SCHEMA_VERSION : string := "SchemaVersion".
Definition DEFAULT_SCHEMA_VERSION : Q := 3 # 2.

(** ** Objects

    Dicts and lists are mutable and shared by reference, so they live in a
    heap; the other values are immutable.  Numbers are the rationals that
    the finite floats and the integers of a JSON document denote. *)

Definition loc := positive.

Inductive val :=
| VNone
| VBool (b : bool)
| VNum (q : Q)
| VStr (s : string)
| VRef (l : loc).

Inductive obj :=
| ODict (d : gmap string val)
| OList (l : list val).

(** A library database as the plugin sees it: its UUID
    ([get_library_uuid(db)]) and its [prefs] object, a dict. *)
Record db := mkDb {
  library_id : string;
  prefs : loc
}.

(** The interpreter state the module-level functions act on: the object
    heap, whether the legacy JSON file is on disk, and the rows
    [set_namespaced] has written to library databases (most recent
    first). *)
Record world := mkWorld {
  heap : gmap loc obj;
  json_exists : bool;
  db_writes : list (loc * string * val)
}.

(** Modelled from the spec: [get_library_uuid], of the plugin's
    [common_utils], is not among the sources; the glossary has a library
    "identified by a stable UUID", which is what it returns for [db]. *)
Definition get_library_uuid (d : db) : string := library_id d.

Definition set_heap (h : gmap loc obj) (w : world) : world :=
  mkWorld h (json_exists w) (db_writes w).

(** The module globals: [DEFAULT_LIBRARY_VALUES], the empty dict it holds
    under [KEY_VIEWS], and [plugin_prefs]. *)
Definition DEFAULT_LIBRARY_VALUES : loc := 1%positive.
Definition DEFAULT_VIEWS : loc := 2%positive.
Definition plugin_prefs : loc := 3%positive.

Definition default_library_dict (views : loc) : gmap string val :=
  <[KEY_VIEWS := VRef views]>
  (<[KEY_LAST_VIEW := VStr EmptyString]>
  (<[KEY_AUTO_APPLY_VIEW := VBool false]>
  (<[KEY_VIEW_TO_APPLY := VStr LAST_VIEW_ITEM]> ∅))).

(** The heap right after the module has been imported and [plugin_prefs]
    has been read from disk with contents [legacy]. *)
Definition module_heap (legacy : gmap string val) : gmap loc obj :=
  <[DEFAULT_LIBRARY_VALUES := ODict (default_library_dict DEFAULT_VIEWS)]>
  (<[DEFAULT_VIEWS := ODict ∅]>
  (<[plugin_prefs := ODict legacy]> ∅)).

Definition get_dict (h : gmap loc obj) (l : loc) : result (gmap string val) :=
  match h !! l with
  | Some (ODict d) => Ok d
  | _ => Raise TypeError
  end.

Definition as_ref (v : val) : result loc :=
  match v with VRef l => Ok l | _ => Raise TypeError end.

(** ** [copy.deepcopy]

    A dict or list is copied into a fresh object, registered in the memo
    before its members are copied, as the library does; atoms are returned
    as they are.  [fuel] is the interpreter's recursion limit. *)

Definition copy_members {K}
    (rec : val → gmap loc obj → gmap loc loc →
           result (val * gmap loc obj * gmap loc loc))
    (xs : list (K * val)) (h : gmap loc obj) (memo : gmap loc loc)
    : result (list (K * val) * gmap loc obj * gmap loc loc) :=
  foldl (fun acc kv =>
           '(ys, h1, m1) ← acc ;
           '(v', h2, m2) ← rec kv.2 h1 m1 ;
           Ok (ys ++ [(kv.1, v')], h2, m2))
        (Ok ([], h, memo)) xs.

Fixpoint deepcopy_memo (fuel : nat) (x : val) (h : gmap loc obj)
    (memo : gmap loc loc) : result (val * gmap loc obj * gmap loc loc) :=
  match x with
  | VRef l =>
      match memo !! l with
      | Some y => Ok (VRef y, h, memo)
      | None =>
          match fuel with
          | O => Raise RuntimeError
          | S n =>
              let y := fresh (dom h) in
              match h !! l with
              | Some (ODict d) =>
                  '(kvs, h', memo') ←
                    copy_members (deepcopy_memo n) (map_to_list d)
                                 (<[y := ODict ∅]> h) (<[l := y]> memo) ;
                  Ok (VRef y, <[y := ODict (list_to_map kvs)]> h', memo')
              | Some (OList xs) =>
                  '(kvs, h', memo') ←
                    copy_members (deepcopy_memo n) ((fun v => (tt, v)) <$> xs)
                                 (<[y := OList []]> h) (<[l := y]> memo) ;
                  Ok (VRef y, <[y := OList (kvs.*2)]> h', memo')
              | None => Raise TypeError
              end
          end
      end
  | _ => Ok (x, h, memo)
  end.

Definition recursion_limit : nat := 1000.

Definition deepcopy (x : val) (h : gmap loc obj) : result (val * gmap loc obj) :=
  '(y, h', _) ← deepcopy_memo recursion_limit x h ∅ ;
  Ok (y, h').

(** ** The host's stores

    [JSONConfig] and [DBPrefs] belong to the host application; what follows
    is their documented behaviour.  Assigning to or deleting from a
    [JSONConfig] commits it, which writes its file.  A [DBPrefs] keeps the
    object it is given and writes one row to the database. *)

Definition namespaced (namespace key : string) : string :=
  "namespaced:" +:+ namespace +:+ ":" +:+ key.

Definition get_namespaced (d : db) (namespace key : string) (dflt : val)
    (w : world) : result val :=
  p ← get_dict (heap w) (prefs d) ;
  Ok (default dflt (p !! namespaced namespace key)).

Definition set_namespaced (d : db) (namespace key : string) (v : val)
    (w : world) : result world :=
  p ← get_dict (heap w) (prefs d) ;
  Ok (mkWorld (<[prefs d := ODict (<[namespaced namespace key := v]> p)]> (heap w))
              (json_exists w)
              ((prefs d, namespaced namespace key, v) :: db_writes w)).

Definition json_setitem (key : string) (v : val) (w : world) : result world :=
  p ← get_dict (heap w) plugin_prefs ;
  Ok (mkWorld (<[plugin_prefs := ODict (<[key := v]> p)]> (heap w))
              true (db_writes w)).

Definition json_delitem (key : string) (w : world) : result world :=
  p ← get_dict (heap w) plugin_prefs ;
  match p !! key with
  | None => Raise (KeyError key)
  | Some _ =>
      Ok (mkWorld (<[plugin_prefs := ODict (delete key p)]> (heap w))
                  true (db_writes w))
  end.

(** [os.remove(json_path)]: whether the operating system lets the file go
    is not up to the program; [allowed] is its answer. *)
Definition os_remove (allowed : bool) (w : world) : result world :=
  if allowed then Ok (mkWorld (heap w) false (db_writes w))
  else Raise OSError.

(** [try: body except: pass] *)
Definition try_pass (body : world → result world) (w : world) : world :=
  match body w with
  | Ok w' => w'
  | Raise _ => w
  end.

(** ** The module-level functions *)

Definition migrate_json_config_if_required (allowed : bool) (w : world)
    : result world :=
  if negb (json_exists w) then Ok w
  else
    p ← get_dict (heap w) plugin_prefs ;
    if bool_decide (p !! "libraries" = None)
    then Ok (try_pass (os_remove allowed) w)
    else Ok w.

Definition set_library_config (d : db) (library_config : val) (w : world)
    : result world :=
  set_namespaced d PREFS_NAMESPACE PREFS_KEY_SETTINGS library_config w.

(** [schema_version == DEFAULT_SCHEMA_VERSION] *)
Definition is_current_version (v : val) : bool :=
  match v with
  | VNum q => Qeq_bool q DEFAULT_SCHEMA_VERSION
  | VBool b => Qeq_bool (if b then 1 else 0) DEFAULT_SCHEMA_VERSION
  | _ => false
  end.

Definition migrate_library_config_if_required (d : db) (library_config : val)
    (w : world) : result world :=
  l ← as_ref library_config ;
  c ← get_dict (heap w) l ;
  let schema_version := default (VNum 0) (c !! KEY_SCHEMA_VERSION) in
  if is_current_version schema_version then Ok w
  else
    let w1 := set_heap (<[l := ODict (<[KEY_SCHEMA_VERSION :=
                           VNum DEFAULT_SCHEMA_VERSION]> c)]> (heap w)) w in
    set_library_config d library_config w1.

Definition get_library_config (d : db) (w : world) : result (val * world) :=
  let library_id := get_library_uuid d in
  p ← get_dict (heap w) plugin_prefs ;
  '(library_config, w1) ←
    match p !! "libraries" with
    | None => Ok (VNone, w)
    | Some libraries =>
        ll ← as_ref libraries ;
        ls ← get_dict (heap w) ll ;
        match ls !! library_id with
        | None => Ok (VNone, w)
        | Some library_config =>
            let ls' := delete library_id ls in
            let w' := set_heap (<[ll := ODict ls']> (heap w)) w in
            w'' ← (if bool_decide (size ls' = 0%nat)
                   then json_delitem "libraries" w'
                   else json_setitem "libraries" libraries w') ;
            Ok (library_config, w'')
        end
    end ;
  '(library_config, w2) ←
    match library_config with
    | VNone =>
        '(dflt, h) ← deepcopy (VRef DEFAULT_LIBRARY_VALUES) (heap w1) ;
        let w' := set_heap h w1 in
        v ← get_namespaced d PREFS_NAMESPACE PREFS_KEY_SETTINGS dflt w' ;
        Ok (v, w')
    | _ => Ok (library_config, w1)
    end ;
  w3 ← migrate_library_config_if_required d library_config w2 ;
  Ok (library_config, w3).

End Prefs.

(* ===================================================================== *)
(** * The configuration dialog *)
(* ===================================================================== *)

Module Dialog.

Definition LAST_VIEW_ITEM : string := Prefs.LAST_VIEW_ITEM.

(** ** Data *)

(** A view definition, the dict stored under a view name: the six keys
    [KEY_COLUMNS], [KEY_SORT], [KEY_APPLY_RESTRICTION], [KEY_RESTRICTION],
    [KEY_APPLY_SEARCH], [KEY_SEARCH]. *)
Record view_info := mkView {
  columns : list (string * Z);
  sort : list (string * Z);
  applyRestriction : bool;
  restrictionToApply : string;
  applySearch : bool;
  searchToApply : string
}.

(** The library record as [__init__] reads it; a key that may be missing
    is an [option]. *)
Record library_config := mkLibrary {
  lib_views : option (gmap string view_info);
  lib_lastView : option string;
  lib_autoApplyView : option bool;
  lib_viewToApply : option string
}.

(** What [library_view.get_state()] returns, as far as it is read. *)
Record view_state := mkViewState {
  column_positions : gmap string Z;
  hidden_columns : list string;
  column_sizes : gmap string Z
}.

(** The host application: the column model of the library view, its
    state, the saved-search registry and the collation key of
    [calibre.utils.icu]. *)
Record Gui := mkGui {
  headers : gmap string string;
  column_map : list string;
  get_state : view_state;
  get_default_state : view_state;
  saved_searches : list string;
  sort_key : string → string
}.

(** ** [sorted]: a stable sort, as Python's is *)

Section sorted.
Context {A : Type} (le : A → A → bool).

Fixpoint insert_sorted (x : A) (l : list A) : list A :=
  match l with
  | [] => [x]
  | y :: l' => if le x y then x :: l else y :: insert_sorted x l'
  end.

Definition sorted (l : list A) : list A := foldr insert_sorted [] l.
End sorted.

Definition str_le (a b : string) : bool := bool_decide (a ≤ b)%string.

(** [sorted(views.keys())] *)
Definition sorted_keys {V} (views : gmap string V) : list string :=
  sorted str_le (map_to_list views).*1.

(** ** [ViewComboBox] *)

Record ViewComboBox := mkViewCombo {
  vc_combo : QComboBox;
  special : bool
}.

Definition select_view (selected_text : option string) (c : ViewComboBox)
    : ViewComboBox :=
  mkViewCombo
    (if truthy_opt selected_text
     then setCurrentIndex (findText (default EmptyString selected_text) (vc_combo c))
                          (vc_combo c)
     else if 0 <? count (vc_combo c) then setCurrentIndex 0 (vc_combo c)
     else vc_combo c)
    (special c).

Definition populate_combo {V} (views : gmap string V)
    (selected_text : option string) (c : ViewComboBox) : ViewComboBox :=
  let c0 := clear in
  let c1 := if special c then addItem LAST_VIEW_ITEM c0 else c0 in
  let c2 := foldl (fun acc view_name => addItem view_name acc) c1
                  (sorted_keys views) in
  select_view selected_text (mkViewCombo c2 (special c)).

Definition new_ViewComboBox {V} (views : gmap string V) (special : bool)
    : ViewComboBox :=
  populate_combo views None (mkViewCombo clear special).

(** ** [SearchComboBox] *)

Definition search_populate_combo (gui : Gui) : QComboBox :=
  let p := sorted (fun a b => str_le (sort_key gui a) (sort_key gui b))
                  (saved_searches gui) in
  foldl (fun acc search_name => addItem search_name acc)
        (addItem EmptyString clear) p.

Definition select_value (search : string) (c : QComboBox) : QComboBox :=
  if truthy search then setCurrentIndex (findText search c) c
  else if 0 <? count c then setCurrentIndex 0 c
  else c.

(** ** [ColumnListWidget] *)

Record ColumnListWidget := mkColumnList {
  cl_items : list QListWidgetItem;
  cl_currentRow : Z;
  saved_column_widths : gmap string Z;
  all_columns_with_widths : list (string * Z)
}.

(** [list.remove]: drops the first occurrence. *)
Fixpoint list_remove_first (x : string) (l : list string) : list string :=
  match l with
  | [] => []
  | y :: l' => if String.eqb y x then l' else y :: list_remove_first x l'
  end.

(** [dict(pairs)]: a later pair overrides an earlier one. *)
Definition dict_of_pairs {V} (l : list (string * V)) : gmap string V :=
  foldl (fun m p => <[p.1 := p.2]> m) ∅ l.

Module ColumnList.

Definition populate_column (gui : Gui) (colname : string) (is_checked : bool)
    : result QListWidgetItem :=
  h ← getitem (headers gui) colname ;
  Ok (mkItem h colname
             (negb (String.eqb colname "ondevice"))
             (if String.eqb colname "ondevice" then Unchecked
              else check_of_bool is_checked)).

(** The first loop of [populate]: the stored columns that the host still
    has, in stored order, each taken out of the local [all_columns]. *)
Fixpoint populate_stored (gui : Gui) (columns : list (string * Z))
    (all_columns : list string)
    : result (list QListWidgetItem * list string) :=
  match columns with
  | [] => Ok ([], all_columns)
  | (colname, _width) :: columns' =>
      if bool_decide (colname ∈ all_columns) then
        it ← populate_column gui colname true ;
        '(its, rest) ← populate_stored gui columns'
                          (list_remove_first colname all_columns) ;
        Ok (it :: its, rest)
      else populate_stored gui columns' all_columns
  end.

Definition populate (gui : Gui) (columns all_columns : list (string * Z))
    (w : ColumnListWidget) : result ColumnListWidget :=
  '(its, rest) ← populate_stored gui columns all_columns.*1 ;
  its' ← mapM (fun colname => populate_column gui colname false) rest ;
  Ok (mkColumnList (its ++ its') (-1) (dict_of_pairs columns) all_columns).

(** The inner loop of [get_data]: the width of the first pair for [data],
    or [-1]. *)
Fixpoint use_width (data : string) (l : list (string * Z)) : Z :=
  match l with
  | [] => -1
  | (colname, width) :: l' =>
      if String.eqb colname data then width else use_width data l'
  end.

Definition get_data (w : ColumnListWidget) : list (string * Z) :=
  omap (fun item =>
          let data := strip (data item) in
          if is_checked (checkState item) || String.eqb data "ondevice"
          then Some (data,
                     default (use_width data (all_columns_with_widths w))
                             (saved_column_widths w !! data))
          else None)
       (cl_items w).

End ColumnList.

(** [takeItem(idx)] followed by [insertItem(to, item)]; nothing happens
    when there is no row [idx]. *)
Definition move_item (idx to : Z) (l : list QListWidgetItem)
    : list QListWidgetItem :=
  if idx <? 0 then l
  else match l !! Z.to_nat idx with
       | Some it =>
           let l' := delete (Z.to_nat idx) l in
           take (Z.to_nat to) l' ++ it :: drop (Z.to_nat to) l'
       | None => l
       end.

Definition set_row (n : nat) (idx : Z) : Z :=
  if (0 <=? idx) && (idx <? Z.of_nat n) then idx else -1.

Definition move_column_up (w : ColumnListWidget) : ColumnListWidget :=
  let idx := cl_currentRow w in
  if 0 <? idx then
    let its := move_item idx (idx - 1) (cl_items w) in
    mkColumnList its (set_row (length its) (idx - 1))
                 (saved_column_widths w) (all_columns_with_widths w)
  else w.

Definition move_column_down (w : ColumnListWidget) : ColumnListWidget :=
  let idx := cl_currentRow w in
  if idx <? Z.of_nat (length (cl_items w)) - 1 then
    let its := move_item idx (idx + 1) (cl_items w) in
    mkColumnList its (set_row (length its) (idx + 1))
                 (saved_column_widths w) (all_columns_with_widths w)
  else w.

(** ** [SortColumnListWidget]

    It inherits the item list and the two move methods; [populate],
    [populate_column] and [get_data] are its own.  [set_sort_icon] sets
    an item's icon, which nothing reads back, and runs
    [item_selection_changed]; as every change of the current item or of
    its tick ends there, whether the two context-menu actions are enabled
    is a function of the list. *)

Module SortList.

Definition populate_column (gui : Gui) (col : string) (asc : Z)
    (is_checked : bool) : result QListWidgetItem :=
  h ← getitem (headers gui) col ;
  Ok (mkItem h (col +:+ "|" +:+ str asc) true (check_of_bool is_checked)).

Fixpoint populate_stored (gui : Gui) (columns : list (string * Z))
    (all_columns : list string)
    : result (list QListWidgetItem * list string) :=
  match columns with
  | [] => Ok ([], all_columns)
  | (col, asc) :: columns' =>
      if bool_decide (col ∈ all_columns) then
        it ← populate_column gui col asc true ;
        '(its, rest) ← populate_stored gui columns'
                          (list_remove_first col all_columns) ;
        Ok (it :: its, rest)
      else populate_stored gui columns' all_columns
  end.

Definition populate (gui : Gui) (columns all_columns : list (string * Z))
    (w : ColumnListWidget) : result ColumnListWidget :=
  '(its, rest) ← populate_stored gui columns all_columns.*1 ;
  its' ← mapM (fun col => populate_column gui col 0 false) rest ;
  Ok (mkColumnList (its ++ its') (-1)
                   (saved_column_widths w) (all_columns_with_widths w)).

(** [change_sort(asc)] on the current item. *)
Definition change_sort (asc : Z) (w : ColumnListWidget)
    : result ColumnListWidget :=
  if cl_currentRow w <? 0 then Ok w
  else match cl_items w !! Z.to_nat (cl_currentRow w) with
       | None => Ok w
       | Some item =>
           col ← index (split "|" (strip (data item))) 0 ;
           let item' := mkItem (text item) (col +:+ "|" +:+ str asc)
                               (userCheckable item) (checkState item) in
           Ok (mkColumnList (<[Z.to_nat (cl_currentRow w) := item']> (cl_items w))
                            (cl_currentRow w)
                            (saved_column_widths w) (all_columns_with_widths w))
       end.

(** [item_selection_changed] enables the two context-menu actions when
    there is a current item and it is ticked. *)
Definition item_selection_changed (w : ColumnListWidget) : bool :=
  if cl_currentRow w <? 0 then false
  else match cl_items w !! Z.to_nat (cl_currentRow w) with
       | Some item => is_checked (checkState item)
       | None => false
       end.

Fixpoint get_data_items (l : list QListWidgetItem) : result (list (string * Z)) :=
  match l with
  | [] => Ok []
  | item :: l' =>
      let data := split "|" (strip (data item)) in
      if is_checked (checkState item) then
        col ← index data 0 ;
        d1 ← index data 1 ;
        asc ← int d1 ;
        cols ← get_data_items l' ;
        Ok ((col, asc) :: cols)
      else get_data_items l'
  end.

Definition get_data (w : ColumnListWidget) : result (list (string * Z)) :=
  get_data_items (cl_items w).

End SortList.

(** ** [ConfigWidget] *)

Record ConfigWidget := mkConfig {
  gui : Gui;
  views : gmap string view_info;
  all_columns : list (string * Z);
  view_name : option string;
  select_view_combo : ViewComboBox;
  columns_list : ColumnListWidget;
  sort_list : ColumnListWidget;
  apply_search_checkbox : CheckState;
  saved_search_combo : QComboBox;
  apply_restriction_checkbox : CheckState;
  search_restriction_combo : QComboBox;
  auto_apply_checkbox : CheckState;
  auto_view_combo : ViewComboBox
}.

(** What a callback hands back: nothing, or the modal error dialog it has
    shown. *)
Inductive outcome :=
| Returned
| ErrorDialog (title msg : string).

Definition columns_state (g : Gui) (defaults : bool) : view_state :=
  if defaults then get_default_state g else get_state g.

(** *** [colmap.sort(cmp=lambda x, y: cmp(positions[x], positions[y]))]

    The sort is stable, and an exception raised by the comparison leaves
    it at once, so the column a [KeyError] names is the first one without
    a position in the order in which the sort hands the columns to the
    comparison.  That order is the interpreter's ([listsort]): the list
    is cut, from left to right, into runs.  [count_run] finds a natural
    run by comparing each element with the one before it; a run shorter
    than [minrun] is extended by [binarysort], one element at a time,
    each new element being the first argument of its comparisons; a last
    run of a single element is first compared when it is merged, again as
    the first argument.  All other comparisons are between elements that
    have been looked up before. *)

(** [cmp(positions[x], positions[y]) < 0]: [x] is looked up first. *)
Definition islt (positions : gmap string Z) (x y : string) : result bool :=
  px ← getitem positions x ;
  py ← getitem positions y ;
  Ok (px <? py).

(** The loop of [count_run], [n] elements into the run: a descending run
    goes on while the next element is below the one before it, an
    ascending one while it is not. *)
Fixpoint run_more (positions : gmap string Z) (descending : bool)
    (prev : string) (rest : list string) (n : nat) : result nat :=
  match rest with
  | [] => Ok n
  | x :: rest' =>
      lt ← islt positions x prev ;
      if Bool.eqb lt descending
      then run_more positions descending x rest' (S n)
      else Ok n
  end.

(** [count_run]: the length of the natural run a segment starts with. *)
Definition count_run (positions : gmap string Z) (seg : list string)
    : result nat :=
  match seg with
  | [] => Ok 0%nat
  | [_] => Ok 1%nat
  | x0 :: x1 :: rest =>
      descending ← islt positions x1 x0 ;
      run_more positions descending x1 rest 2
  end.

(** [merge_compute_minrun]: [n] is halved while it is 64 or more, and 1
    is added when a 1 bit was shifted off. *)
Fixpoint minrun_loop (fuel n r : nat) : nat :=
  match fuel with
  | O => (n + r)%nat
  | S fuel' =>
      if (64 <=? n)%nat
      then minrun_loop fuel' (Nat.div2 n) (if Nat.odd n then 1%nat else r)
      else (n + r)%nat
  end.

Definition merge_compute_minrun (n : nat) : nat := minrun_loop n n 0.

(** The march of [listsort] over the list: what is left of the list is
    [seg]; each round takes one run off it.  Only the look-ups are
    followed here.  Every round takes at least one element, so [fuel],
    the length of the list, is never used up. *)
Fixpoint listsort_runs (fuel : nat) (positions : gmap string Z)
    (minrun : nat) (seg : list string) {struct fuel} : result unit :=
  match seg with
  | [] => Ok tt
  | [x] => _p ← getitem positions x ; Ok tt
  | _ =>
      match fuel with
      | O => Raise RuntimeError
      | S fuel' =>
          n ← count_run positions seg ;
          let force :=
            if (n <? minrun)%nat then Nat.min minrun (length seg) else n in
          _ps ← mapM (getitem positions) (take (force - n) (drop n seg)) ;
          listsort_runs fuel' positions minrun (drop force seg)
      end
  end.

(** A list shorter than two is returned as it is, without a comparison;
    otherwise the look-ups are made in the order of the sort, and the
    result is the list in the order of the positions, columns of equal
    position in the order they had. *)
Definition sort_by_position (positions : gmap string Z) (colmap : list string)
    : result (list string) :=
  if (length colmap <? 2)%nat then Ok colmap
  else
    _runs ← listsort_runs (length colmap) positions
                          (merge_compute_minrun (length colmap)) colmap ;
    keyed ← mapM (fun x => p ← getitem positions x ; Ok (p, x)) colmap ;
    Ok ((sorted (fun a b => a.1 <=? b.1) keyed).*2).

Definition get_current_columns (g : Gui) (defaults visible_only : bool)
    : result (list (string * Z)) :=
  let state := columns_state g defaults in
  colmap ← sort_by_position (column_positions state) (column_map g) ;
  let hidden_cols := hidden_columns state in
  let colmap :=
    if visible_only
    then filter (fun col => col ∉ hidden_cols ∨ col = "ondevice") colmap
    else colmap in
  Ok ((fun col =>
         if bool_decide (col ∈ hidden_cols) then (col, -1)
         else (col, default (-1) (column_sizes state !! col))) <$> colmap).

Definition set_views (vs : gmap string view_info) (st : ConfigWidget)
    : ConfigWidget :=
  mkConfig (gui st) vs (all_columns st) (view_name st) (select_view_combo st)
           (columns_list st) (sort_list st) (apply_search_checkbox st)
           (saved_search_combo st) (apply_restriction_checkbox st)
           (search_restriction_combo st) (auto_apply_checkbox st)
           (auto_view_combo st).

Definition persist_view_config (st : ConfigWidget) : result ConfigWidget :=
  match view_name st with
  | Some name =>
      if truthy name then
        _view_info ← getitem (views st) name ;
        let cols := ColumnList.get_data (columns_list st) in
        sorts ← SortList.get_data (sort_list st) ;
        let apply_restriction := is_checked (apply_restriction_checkbox st) in
        let restriction :=
          if apply_restriction
          then strip (currentText (search_restriction_combo st))
          else EmptyString in
        let apply_search := is_checked (apply_search_checkbox st) in
        let search :=
          if apply_search
          then strip (currentText (saved_search_combo st))
          else EmptyString in
        Ok (set_views
              (<[name := mkView cols sorts apply_restriction restriction
                                apply_search search]> (views st)) st)
      else Ok st
  | None => Ok st
  end.

Definition select_view_combo_index_changed (save_previous : bool)
    (st0 : ConfigWidget) : result ConfigWidget :=
  st ← (if save_previous then persist_view_config st0 else Ok st0) ;
  let name :=
    if count (vc_combo (select_view_combo st)) =? 0 then None
    else Some (strip (currentText (vc_combo (select_view_combo st)))) in
  '(cols, sort_columns, all, apply_restriction, restriction_to_apply,
    apply_search, search_to_apply) ←
    (if truthy_opt name then
       view_info ← getitem (views st) (default EmptyString name) ;
       Ok (columns view_info, sort view_info, all_columns st,
           applyRestriction view_info, restrictionToApply view_info,
           applySearch view_info, searchToApply view_info)
     else Ok ([], [], [], false, EmptyString, false, EmptyString)) ;
  cl ← ColumnList.populate (gui st) cols all (columns_list st) ;
  sl ← SortList.populate (gui st) sort_columns all (sort_list st) ;
  Ok (mkConfig (gui st) (views st) (all_columns st) name
               (select_view_combo st) cl sl
               (check_of_bool apply_search)
               (select_value search_to_apply (saved_search_combo st))
               (check_of_bool apply_restriction)
               (select_value restriction_to_apply (search_restriction_combo st))
               (auto_apply_checkbox st) (auto_view_combo st)).

(** The clash test of [add_view] and [rename_view]: some key other than
    [skip] has the same lower-cased form as [new_view_name]. *)
Definition clashes (skip : option string) (new_view_name : string)
    (vs : gmap string view_info) : bool :=
  existsb (fun view_name =>
             negb (bool_decide (Some view_name = skip)) &&
             String.eqb (lower view_name) (lower new_view_name))
          (map_to_list vs).*1.

Definition same_name_dialog : outcome :=
  ErrorDialog "Add Failed" "A view with the same name already exists".

(** [add_view]; [text] and [ok] are what [QInputDialog.getText] returns. *)
Definition add_view (text : string) (ok : bool) (st0 : ConfigWidget)
    : result (ConfigWidget * outcome) :=
  if negb ok then Ok (st0, Returned)
  else
    let new_view_name := strip text in
    if clashes None new_view_name (views st0) then Ok (st0, same_name_dialog)
    else
      st ← persist_view_config st0 ;
      view_info ←
        (if truthy_opt (view_name st) then
           old_view_info ← getitem (views st) (default EmptyString (view_name st)) ;
           Ok (mkView (columns old_view_info) (sort old_view_info)
                      (applyRestriction old_view_info)
                      (restrictionToApply old_view_info)
                      (applySearch old_view_info)
                      (searchToApply old_view_info))
         else
           cols ← get_current_columns (gui st) false true ;
           Ok (mkView cols [] false EmptyString false EmptyString)) ;
      let vs := <[new_view_name := view_info]> (views st) in
      let st1 :=
        mkConfig (gui st) vs (all_columns st) (Some new_view_name)
                 (populate_combo vs (Some new_view_name) (select_view_combo st))
                 (columns_list st) (sort_list st) (apply_search_checkbox st)
                 (saved_search_combo st) (apply_restriction_checkbox st)
                 (search_restriction_combo st) (auto_apply_checkbox st)
                 (auto_view_combo st) in
      st2 ← select_view_combo_index_changed false st1 ;
      Ok (mkConfig (gui st2) (views st2) (all_columns st2) (view_name st2)
                   (select_view_combo st2) (columns_list st2) (sort_list st2)
                   (apply_search_checkbox st2) (saved_search_combo st2)
                   (apply_restriction_checkbox st2)
                   (search_restriction_combo st2) (auto_apply_checkbox st2)
                   (populate_combo vs
                      (Some (currentText (vc_combo (auto_view_combo st2))))
                      (auto_view_combo st2)),
          Returned).

Definition rename_view (text : string) (ok : bool) (st0 : ConfigWidget)
    : result (ConfigWidget * outcome) :=
  if negb (truthy_opt (view_name st0)) then Ok (st0, Returned)
  else
    let old_view_name := default EmptyString (view_name st0) in
    if negb ok then Ok (st0, Returned)
    else
      let new_view_name := strip text in
      if String.eqb new_view_name old_view_name then Ok (st0, Returned)
      else if clashes (Some old_view_name) new_view_name (views st0)
      then Ok (st0, same_name_dialog)
      else
        st ← persist_view_config st0 ;
        view_info ← getitem (views st) old_view_name ;
        let vs := <[new_view_name := view_info]> (delete old_view_name (views st)) in
        let st1 :=
          mkConfig (gui st) vs (all_columns st) (Some new_view_name)
                   (populate_combo vs (Some new_view_name) (select_view_combo st))
                   (columns_list st) (sort_list st) (apply_search_checkbox st)
                   (saved_search_combo st) (apply_restriction_checkbox st)
                   (search_restriction_combo st) (auto_apply_checkbox st)
                   (auto_view_combo st) in
        st2 ← select_view_combo_index_changed false st1 ;
        let auto :=
          if String.eqb (currentText (vc_combo (auto_view_combo st2))) old_view_name
          then populate_combo vs (Some new_view_name) (auto_view_combo st2)
          else populate_combo vs None (auto_view_combo st2) in
        Ok (mkConfig (gui st2) (views st2) (all_columns st2) (view_name st2)
                     (select_view_combo st2) (columns_list st2) (sort_list st2)
                     (apply_search_checkbox st2) (saved_search_combo st2)
                     (apply_restriction_checkbox st2)
                     (search_restriction_combo st2) (auto_apply_checkbox st2)
                     auto,
            Returned).

(** [delete_view]; [confirmed] is the answer to [question_dialog], which
    is only asked when a view is being edited. *)
Definition delete_view (confirmed : bool) (st : ConfigWidget)
    : result ConfigWidget :=
  if negb (truthy_opt (view_name st)) then Ok st
  else if negb confirmed then Ok st
  else
    let name := default EmptyString (view_name st) in
    _deleted ← getitem (views st) name ;
    let vs := delete name (views st) in
    let st1 :=
      mkConfig (gui st) vs (all_columns st) (view_name st)
               (populate_combo vs None (select_view_combo st))
               (columns_list st) (sort_list st) (apply_search_checkbox st)
               (saved_search_combo st) (apply_restriction_checkbox st)
               (search_restriction_combo st) (auto_apply_checkbox st)
               (auto_view_combo st) in
    st2 ← select_view_combo_index_changed false st1 ;
    Ok (mkConfig (gui st2) (views st2) (all_columns st2) (view_name st2)
                 (select_view_combo st2) (columns_list st2) (sort_list st2)
                 (apply_search_checkbox st2) (saved_search_combo st2)
                 (apply_restriction_checkbox st2)
                 (search_restriction_combo st2) (auto_apply_checkbox st2)
                 (populate_combo vs None (auto_view_combo st2))).

(** [__init__], given the record [get_library_config] returned. *)
Definition init (g : Gui) (library : library_config) : result ConfigWidget :=
  vs ← match lib_views library with
       | Some vs => Ok vs
       | None => Raise (KeyError Prefs.KEY_VIEWS)
       end ;
  all ← get_current_columns g false false ;
  let select0 := new_ViewComboBox vs false in
  let search := search_populate_combo g in
  let auto :=
    select_view (Some (default LAST_VIEW_ITEM (lib_viewToApply library)))
                (new_ViewComboBox vs true) in
  let select :=
    match lib_lastView library with
    | Some last_view =>
        if bool_decide (is_Some (vs !! last_view))
        then select_view (Some last_view) select0
        else select0
    | None => select0
    end in
  select_view_combo_index_changed false
    (mkConfig g vs all None select
              (mkColumnList [] (-1) ∅ []) (mkColumnList [] (-1) ∅ [])
              Unchecked search Unchecked search
              (check_of_bool (default false (lib_autoApplyView library)))
              auto).

(** ** What the user can do between two callbacks

    Ticking an item works only on a user-checkable one; clicking a row
    makes it current; the two sort actions of the context menu run
    [change_sort] when they are enabled; the check boxes and the two
    search combo boxes are not connected to any callback, they are read
    when the view is persisted.  Picking another entry of the view combo
    box runs [select_view_combo_index_changed(save_previous=True)]. *)

Definition toggled (c : CheckState) : CheckState :=
  match c with Checked => Unchecked | Unchecked => Checked end.

Definition tick (row : nat) (w : ColumnListWidget) : ColumnListWidget :=
  match cl_items w !! row with
  | Some it =>
      if userCheckable it
      then mkColumnList
             (<[row := mkItem (text it) (data it) true (toggled (checkState it))]>
                (cl_items w))
             (cl_currentRow w) (saved_column_widths w)
             (all_columns_with_widths w)
      else w
  | None => w
  end.

Definition click (row : Z) (w : ColumnListWidget) : ColumnListWidget :=
  mkColumnList (cl_items w) (set_row (length (cl_items w)) row)
               (saved_column_widths w) (all_columns_with_widths w).

Inductive list_action :=
| Tick (row : nat)
| Click (row : Z)
| MoveUp
| MoveDown.

Definition list_step (a : list_action) (w : ColumnListWidget)
    : ColumnListWidget :=
  match a with
  | Tick row => tick row w
  | Click row => click row w
  | MoveUp => move_column_up w
  | MoveDown => move_column_down w
  end.

Inductive action :=
| AddView (text : string) (ok : bool)
| RenameView (text : string) (ok : bool)
| DeleteView (confirmed : bool)
| ChooseView (i : Z)
| OnColumns (a : list_action)
| OnSort (a : list_action)
| SortAscending
| SortDescending
| SetApplySearch (c : CheckState)
| ChooseSearch (i : Z)
| SetApplyRestriction (c : CheckState)
| ChooseRestriction (i : Z)
| SetAutoApply (c : CheckState)
| ChooseAutoView (i : Z).

Definition set_form (cl sl : ColumnListWidget) (asc : CheckState)
    (ssc : QComboBox) (arc : CheckState) (src : QComboBox)
    (aac : CheckState) (avc : ViewComboBox) (st : ConfigWidget)
    : ConfigWidget :=
  mkConfig (gui st) (views st) (all_columns st) (view_name st)
           (select_view_combo st) cl sl asc ssc arc src aac avc.

Definition step (a : action) (st : ConfigWidget) : result ConfigWidget :=
  let cl := columns_list st in
  let sl := sort_list st in
  let asc := apply_search_checkbox st in
  let ssc := saved_search_combo st in
  let arc := apply_restriction_checkbox st in
  let src := search_restriction_combo st in
  let aac := auto_apply_checkbox st in
  let avc := auto_view_combo st in
  match a with
  | AddView text ok => p ← add_view text ok st ; Ok p.1
  | RenameView text ok => p ← rename_view text ok st ; Ok p.1
  | DeleteView confirmed => delete_view confirmed st
  | ChooseView i =>
      let c := vc_combo (select_view_combo st) in
      if (0 <=? i) && (i <? count c) && negb (i =? currentIndex c) then
        select_view_combo_index_changed true
          (mkConfig (gui st) (views st) (all_columns st) (view_name st)
                    (mkViewCombo (setCurrentIndex i c) (special (select_view_combo st)))
                    cl sl asc ssc arc src aac avc)
      else Ok st
  | OnColumns a => Ok (set_form (list_step a cl) sl asc ssc arc src aac avc st)
  | OnSort a => Ok (set_form cl (list_step a sl) asc ssc arc src aac avc st)
  | SortAscending =>
      if SortList.item_selection_changed sl then
        sl' ← SortList.change_sort 0 sl ;
        Ok (set_form cl sl' asc ssc arc src aac avc st)
      else Ok st
  | SortDescending =>
      if SortList.item_selection_changed sl then
        sl' ← SortList.change_sort 1 sl ;
        Ok (set_form cl sl' asc ssc arc src aac avc st)
      else Ok st
  | SetApplySearch c => Ok (set_form cl sl c ssc arc src aac avc st)
  | ChooseSearch i =>
      Ok (set_form cl sl asc
            (if (0 <=? i) && (i <? count ssc) then setCurrentIndex i ssc else ssc)
            arc src aac avc st)
  | SetApplyRestriction c => Ok (set_form cl sl asc ssc c src aac avc st)
  | ChooseRestriction i =>
      Ok (set_form cl sl asc ssc arc
            (if (0 <=? i) && (i <? count src) then setCurrentIndex i src else src)
            aac avc st)
  | SetAutoApply c => Ok (set_form cl sl asc ssc arc src c avc st)
  | ChooseAutoView i =>
      let c := vc_combo avc in
      Ok (set_form cl sl asc ssc arc src aac
            (mkViewCombo
               (if (0 <=? i) && (i <? count c) then setCurrentIndex i c else c)
               (special avc)) st)
  end.

Fixpoint run (acts : list action) (st : ConfigWidget) : result ConfigWidget :=
  match acts with
  | [] => Ok st
  | a :: acts' => st' ← step a st ; run acts' st'
  end.

(** [save_settings], given the record [get_library_config] returns for
    the current database; beside the dialog it gives the record handed to
    [set_library_config]. *)
Definition save_settings (library : library_config) (st0 : ConfigWidget)
    : result (ConfigWidget * library_config) :=
  st ← persist_view_config st0 ;
  Ok (st,
      mkLibrary (Some (views st)) (lib_lastView library)
                (Some (is_checked (auto_apply_checkbox st)))
                (Some (currentText (vc_combo (auto_view_combo st))))).

(** The name an action proposes for a view, if it proposes one. *)
Definition proposed_name (a : action) : option string :=
  match a with
  | AddView text true => Some (strip text)
  | RenameView text true => Some (strip text)
  | _ => None
  end.

End Dialog.

(* ===================================================================== *)
(** * Specifications *)
(* ===================================================================== *)

Module PrefsSpec.
Import Prefs.

(** [DEFAULT_LIBRARY_VALUES] and the dict it holds are as the module
    defined them. *)
Definition defaults_intact (h : gmap loc obj) : Prop :=
  h !! DEFAULT_LIBRARY_VALUES = Some (ODict (default_library_dict DEFAULT_VIEWS)) ∧
  h !! DEFAULT_VIEWS = Some (ODict ∅).

(** Library [d] has nothing stored: its [prefs] hold nothing under the
    plugin's namespace, and the legacy blob has no entry for its UUID. *)
Definition nothing_stored (d : db) (h : gmap loc obj) : Prop :=
  prefs d ≠ DEFAULT_LIBRARY_VALUES ∧ prefs d ≠ DEFAULT_VIEWS ∧
  (∃ p, h !! prefs d = Some (ODict p) ∧
        p !! namespaced PREFS_NAMESPACE PREFS_KEY_SETTINGS = None) ∧
  (∃ pp, h !! plugin_prefs = Some (ODict pp) ∧
         (pp !! "libraries" = None ∨
          ∃ ll ls, pp !! "libraries" = Some (VRef ll) ∧
                   h !! ll = Some (ODict ls) ∧ ls !! library_id d = None)).

(** The record at [r] is the defaults, with its own views dict [vs], plus
    the schema version the migration stamps on it. *)
Definition default_record (h : gmap loc obj) (r vs : loc) : Prop :=
  h !! r = Some (ODict (<[KEY_SCHEMA_VERSION := VNum DEFAULT_SCHEMA_VERSION]>
                          (default_library_dict vs))) ∧
  h !! vs = Some (ODict ∅).

(** The four default fields, read off a record. *)
Definition has_default_fields (h : gmap loc obj) (r : loc) : Prop :=
  ∃ c vs, h !! r = Some (ODict c) ∧
          c !! KEY_VIEWS = Some (VRef vs) ∧ h !! vs = Some (ODict ∅) ∧
          c !! KEY_LAST_VIEW = Some (VStr EmptyString) ∧
          c !! KEY_AUTO_APPLY_VIEW = Some (VBool false) ∧
          c !! KEY_VIEW_TO_APPLY = Some (VStr LAST_VIEW_ITEM).

(** A world with one library left in the legacy blob: the blob's own
    dict at 5, the library's record at 6 with its views at 7, and the
    [prefs] of the library's database at 4. *)
Definition legacy_world : world :=
  mkWorld
    (<[4%positive := ODict ∅]>
     (<[5%positive := ODict {[ "uuid-1" := VRef 6%positive ]}]>
     (<[6%positive := ODict (default_library_dict 7%positive)]>
     (<[7%positive := ODict ∅]>
     (module_heap {[ "libraries" := VRef 5%positive ]})))))
    true [].

Definition legacy_db : db := mkDb "uuid-1" 4%positive.

End PrefsSpec.

Module PySpec.

(** Every character of [s] satisfies [P]. *)
Fixpoint all_chars (P : ascii → bool) (s : string) : bool :=
  match s with
  | EmptyString => true
  | String a s' => P a && all_chars P s'
  end.

Definition not_space (a : ascii) : bool := negb (is_space a).
Definition not_bar (a : ascii) : bool := negb (Ascii.eqb a "|").
Definition sign_or_digit (a : ascii) : bool :=
  Ascii.eqb a "-" || ((48 <=? N_of_ascii a) && (N_of_ascii a <=? 57))%N.

End PySpec.

Module DialogSpec.
Import Dialog PySpec.

(** ** The host's data

    A column name of the host is a lookup name: it has a header, carries
    no surrounding white space and no ['|']; the names of saved searches
    carry no surrounding white space either. *)
Definition column_name_ok (g : Gui) (c : string) : Prop :=
  is_Some (headers g !! c) ∧ strip c = c ∧ all_chars not_bar c = true.

Definition columns_ok (g : Gui) (all : list (string * Z)) : Prop :=
  Forall (column_name_ok g) all.*1.

Definition host_ok (g : Gui) : Prop :=
  Forall (column_name_ok g) (column_map g) ∧
  Forall (λ s, strip s = s) (saved_searches g).

(** ** The views mapping *)

(** No two view names are equal up to case. *)
Definition unique_ci (vs : gmap string view_info) : Prop :=
  ∀ k1 k2, is_Some (vs !! k1) → is_Some (vs !! k2) →
           lower k1 = lower k2 → k1 = k2.

(** [name] is, up to case, the name of a view other than [skip]. *)
Definition collides (skip : option string) (name : string)
    (vs : gmap string view_info) : Prop :=
  ∃ k, is_Some (vs !! k) ∧ Some k ≠ skip ∧ lower k = lower name.

Definition keys_stripped (vs : gmap string view_info) : Prop :=
  ∀ k, is_Some (vs !! k) → strip k = k.

(** A library record the dialog can be opened on. *)
Definition library_ok (library : library_config) : Prop :=
  ∃ vs, lib_views library = Some vs ∧ keys_stripped vs ∧ unique_ci vs.

(** ** The list widgets *)

(** The columns list shows each host column once. *)
Definition columns_list_ok (all : list (string * Z)) (w : ColumnListWidget)
    : Prop :=
  data <$> cl_items w ≡ₚ all.*1 ∧
  all_columns_with_widths w = all ∧
  Forall (λ it, data it = "ondevice" →
                userCheckable it = false ∧ checkState it = Unchecked)
         (cl_items w).

(** The data of a sort item, [col|asc]. *)
Definition sort_data (ca : string * Z) : string :=
  ca.1 +:+ "|" +:+ str ca.2.

(** The sort list shows each host column once, with a direction. *)
Definition sort_list_ok (all : list (string * Z)) (w : ColumnListWidget)
    : Prop :=
  ∃ cas, data <$> cl_items w = sort_data <$> cas ∧ cas.*1 ≡ₚ all.*1.

(** A search combo box as [SearchComboBox.populate_combo] fills it. *)
Definition search_combo_ok (c : QComboBox) : Prop :=
  items c !! 0%nat = Some EmptyString ∧
  Forall (λ s, strip s = s) (items c).

(** ** The dialog between two callbacks *)

Definition name_of_combo (c : QComboBox) : option string :=
  if count c =? 0 then None else Some (strip (currentText c)).

(** What holds of the mapping, the combo boxes and the host before the
    form is filled for the view the combo box shows. *)
Record Pre (st : ConfigWidget) : Prop := mkPre {
  pre_columns : columns_ok (gui st) (all_columns st);
  pre_keys : keys_stripped (views st);
  pre_unique : unique_ci (views st);
  pre_select : ∀ t, t ∈ items (vc_combo (select_view_combo st)) ↔
                    is_Some (views st !! t);
  pre_special : special (select_view_combo st) = false ∧
                special (auto_view_combo st) = true;
  pre_search : search_combo_ok (saved_search_combo st);
  pre_restriction : search_combo_ok (search_restriction_combo st)
}.

(** What holds once a callback has returned. *)
Record Inv (st : ConfigWidget) : Prop := mkInv {
  inv_columns : columns_ok (gui st) (all_columns st);
  inv_keys : keys_stripped (views st);
  inv_unique : unique_ci (views st);
  inv_select : ∀ t, t ∈ items (vc_combo (select_view_combo st)) ↔
                    is_Some (views st !! t);
  inv_special : special (select_view_combo st) = false ∧
                special (auto_view_combo st) = true;
  inv_name : view_name st = name_of_combo (vc_combo (select_view_combo st));
  inv_lists : truthy_opt (view_name st) = true →
              columns_list_ok (all_columns st) (columns_list st) ∧
              sort_list_ok (all_columns st) (sort_list st);
  inv_search : search_combo_ok (saved_search_combo st);
  inv_restriction : search_combo_ok (search_restriction_combo st)
}.

(** The states the dialog goes through: opened on a library record, then
    driven by the user. *)
Definition reachable (st : ConfigWidget) : Prop :=
  ∃ g library st0 acts,
    host_ok g ∧ library_ok library ∧
    init g library = Ok st0 ∧ run acts st0 = Ok st.

(** What the form shows for the view being edited, read the way
    [persist_view_config] reads it. *)
Definition form_selection (st : ConfigWidget) : result view_info :=
  sorts ← SortList.get_data (sort_list st) ;
  Ok (mkView (ColumnList.get_data (columns_list st)) sorts
             (is_checked (apply_restriction_checkbox st))
             (if is_checked (apply_restriction_checkbox st)
              then strip (currentText (search_restriction_combo st))
              else EmptyString)
             (is_checked (apply_search_checkbox st))
             (if is_checked (apply_search_checkbox st)
              then strip (currentText (saved_search_combo st))
              else EmptyString)).

(** A disabled filter keeps no name. *)
Definition filters_consistent (v : view_info) : Prop :=
  (applyRestriction v = false → restrictionToApply v = EmptyString) ∧
  (applySearch v = false → searchToApply v = EmptyString).

(** ** Auxiliary notions of the proofs *)

(** An item for the device column cannot be ticked and is not. *)
Definition inert (it : QListWidgetItem) : Prop :=
  data it = "ondevice" → userCheckable it = false ∧ checkState it = Unchecked.


(** [get_data] keeps an item when it is ticked or is the device column. *)
Definition kept (it : QListWidgetItem) : bool :=
  is_checked (checkState it) || String.eqb (strip (data it)) "ondevice".

(** The width [get_data] reports for a column. *)
Definition width_of (w : ColumnListWidget) (c : string) : Z :=
  default (ColumnList.use_width c (all_columns_with_widths w))
          (saved_column_widths w !! c).


(** What [select_view_combo_index_changed] leaves alone. *)
Definition same_frame (st st' : ConfigWidget) : Prop :=
  gui st' = gui st ∧ views st' = views st ∧ all_columns st' = all_columns st ∧
  select_view_combo st' = select_view_combo st ∧
  auto_apply_checkbox st' = auto_apply_checkbox st ∧
  auto_view_combo st' = auto_view_combo st.


(** Two mappings with the same view names. *)
Definition same_keys (vs vs' : gmap string view_info) : Prop :=
  ∀ k, is_Some (vs' !! k) ↔ is_Some (vs !! k).


(** ** The host's column order *)

(** [a] is not after [b] in the order [positions] gives. *)
Definition by_position (positions : gmap string Z) (a b : string) : Prop :=
  ∃ pa pb, positions !! a = Some pa ∧ positions !! b = Some pb ∧ pa ≤ pb.

(** The width [get_current_columns] reports for a column. *)
Definition current_width (state : view_state) (col : string) : Z :=
  if bool_decide (col ∈ hidden_columns state) then -1
  else default (-1) (column_sizes state !! col).

(** What the dialog keeps true besides [Inv]: the host's answer to the
    column query is the one the dialog was opened with, both view combo
    boxes list the views in order, and while no view is being edited
    the two lists are empty. *)
Record Settled (st : ConfigWidget) : Prop := mkSettled {
  settled_columns :
    get_current_columns (gui st) false false = Ok (all_columns st);
  settled_select :
    items (vc_combo (select_view_combo st)) = sorted_keys (views st);
  settled_auto :
    items (vc_combo (auto_view_combo st)) =
      LAST_VIEW_ITEM :: sorted_keys (views st);
  settled_lists :
    truthy_opt (view_name st) = false →
    cl_items (columns_list st) = [] ∧ cl_items (sort_list st) = []
}.

(** ** A small host and library to run the dialog on *)

Definition example_state : view_state :=
  mkViewState
    (list_to_map [("title", 0); ("authors", 1); ("ondevice", 2); ("size", 3)])
    ["size"]
    (list_to_map [("title", 100); ("authors", 80)]).

Definition example_gui : Gui :=
  mkGui (list_to_map [("title", "Title"); ("authors", "Author(s)");
                      ("ondevice", "On Device"); ("size", "Size (MB)")])
        ["authors"; "title"; "size"; "ondevice"]
        example_state example_state
        ["unread"; "Fiction"] lower.

(** The same host with one saved search, whose name starts with a
    space. *)
Definition padded_gui : Gui :=
  mkGui (headers example_gui) (column_map example_gui)
        example_state example_state [" foo"] lower.

(** The record of a library that has nothing stored. *)
Definition default_library : library_config :=
  mkLibrary (Some ∅) (Some EmptyString) (Some false) (Some LAST_VIEW_ITEM).

End DialogSpec.

Module ExampleRun.
Import Dialog DialogSpec.

(** The dialog opened on [default_library] in [example_gui], then driven
    by [acts]. *)
Definition example_run (acts : list action) : result ConfigWidget :=
  st0 ← init example_gui default_library ; run acts st0.

(** The same in [padded_gui]. *)
Definition padded_run (acts : list action) : result ConfigWidget :=
  st0 ← init padded_gui default_library ; run acts st0.

(** The user's list actions, one after the other. *)
Definition list_run (acts : list list_action) (w : ColumnListWidget)
    : ColumnListWidget :=
  foldl (fun w a => list_step a w) w acts.

End ExampleRun.

(* ===================================================================== *)
(** * Python strings: proofs *)
(* ===================================================================== *)

Module PyTheory.
Import PySpec.

Lemma sign_or_digit_not_space a : sign_or_digit a = true → not_space a = true.
Proof.
  destruct a as [[|] [|] [|] [|] [|] [|] [|] [|]]; vm_compute; congruence.
Qed.

Lemma sign_or_digit_not_bar a : sign_or_digit a = true → not_bar a = true.
Proof.
  destruct a as [[|] [|] [|] [|] [|] [|] [|] [|]]; vm_compute; congruence.
Qed.

Lemma append_cons a s t : String a s +:+ t = String a (s +:+ t).
Proof. reflexivity. Qed.

Lemma append_nil t : EmptyString +:+ t = t.
Proof. reflexivity. Qed.

Lemma all_chars_impl (P Q : ascii → bool) s :
  (∀ a, P a = true → Q a = true) → all_chars P s = true → all_chars Q s = true.
Proof.
  intros HPQ. induction s as [|a s IH]; cbn; [done|].
  intros [Ha Hs]%andb_prop. rewrite (HPQ _ Ha), (IH Hs). done.
Qed.

Lemma all_chars_app P s t :
  all_chars P (s +:+ t) = all_chars P s && all_chars P t.
Proof.
  induction s as [|a s IH]; [done|].
  rewrite append_cons. cbn. by rewrite IH, andb_assoc.
Qed.

(** ** [strip] *)

Lemma lstrip_length s : (String.length (lstrip s) ≤ String.length s)%nat.
Proof. induction s as [|a s IH]; cbn; [done|]. destruct (is_space a); cbn; lia. Qed.

Lemma rstrip_length s : (String.length (rstrip s) ≤ String.length s)%nat.
Proof.
  induction s as [|a s IH]; cbn; [done|].
  destruct (rstrip s); [destruct (is_space a)|]; cbn in *; lia.
Qed.

Lemma rstrip_app x y :
  rstrip y = y → y ≠ EmptyString → rstrip (x +:+ y) = x +:+ y.
Proof.
  intros Hy Hne. induction x as [|a x IH]; [done|].
  rewrite append_cons. cbn. rewrite IH. destruct (x +:+ y) eqn:E; [|done].
  destruct x; [rewrite append_nil in E | rewrite append_cons in E]; congruence.
Qed.

Lemma rstrip_not_space s : all_chars not_space s = true → rstrip s = s.
Proof.
  induction s as [|a s IH]; cbn; [done|].
  intros [Ha Hs]%andb_prop. rewrite (IH Hs).
  unfold not_space in Ha. apply negb_true_iff in Ha. rewrite Ha.
  by destruct s.
Qed.

Lemma strip_not_space s : all_chars not_space s = true → strip s = s.
Proof.
  intros H. unfold strip.
  assert (Hl : lstrip s = s).
  { destruct s as [|a s]; cbn in *; [done|].
    apply andb_prop in H as [Ha _]. unfold not_space in Ha.
    apply negb_true_iff in Ha. by rewrite Ha. }
  rewrite Hl. by apply rstrip_not_space.
Qed.

(** A stripped, non-empty string starts with a visible character. *)
Lemma stripped_head a s : strip (String a s) = String a s → is_space a = false.
Proof.
  unfold strip. cbn [lstrip]. destruct (is_space a) eqn:E; [|done].
  intros H. pose proof (rstrip_length (lstrip s)) as H1.
  pose proof (lstrip_length s) as H2. rewrite H in H1. cbn in H1. lia.
Qed.

Lemma stripped_rstrip s : strip s = s → rstrip s = s.
Proof.
  destruct s as [|a s]; [done|]. intros H.
  pose proof (stripped_head _ _ H) as Ha.
  unfold strip in H. cbn [lstrip] in H. by rewrite Ha in H.
Qed.

Lemma rstrip_idem s : rstrip (rstrip s) = rstrip s.
Proof.
  induction s as [|a s IH]; [done|]. cbn [rstrip].
  destruct (rstrip s) as [|b r] eqn:E.
  - destruct (is_space a) eqn:Ha; [done|]. cbn. by rewrite Ha.
  - cbn [rstrip]. cbn [rstrip] in IH. by rewrite IH.
Qed.

Lemma rstrip_head a s :
  is_space a = false → ∃ r, rstrip (String a s) = String a r.
Proof.
  intros Ha. cbn [rstrip]. destruct (rstrip s); [rewrite Ha|]; eauto.
Qed.

Lemma lstrip_head s :
  lstrip s = EmptyString ∨ ∃ a r, lstrip s = String a r ∧ is_space a = false.
Proof.
  induction s as [|a s IH]; [by left|]. cbn [lstrip].
  destruct (is_space a) eqn:Ha; [exact IH|]. right. eauto.
Qed.

Lemma strip_idem s : strip (strip s) = strip s.
Proof.
  unfold strip. destruct (lstrip_head s) as [->|(a & r & -> & Ha)]; [done|].
  destruct (rstrip_head a r Ha) as [r' Hr']. rewrite Hr'.
  cbn [lstrip]. rewrite Ha, <- Hr'. apply rstrip_idem.
Qed.

Lemma strip_app_bar c t :
  strip c = c → all_chars not_space t = true → t ≠ EmptyString →
  strip (c +:+ "|" +:+ t) = c +:+ "|" +:+ t.
Proof.
  intros Hc Ht Hne. unfold strip.
  assert (Hl : lstrip (c +:+ "|" +:+ t) = c +:+ "|" +:+ t).
  { destruct c as [|a c]; [done|].
    rewrite append_cons. cbn. by rewrite (stripped_head _ _ Hc). }
  rewrite Hl. apply rstrip_app; [|done].
  apply (rstrip_app "|"); [by apply rstrip_not_space | done].
Qed.

(** ** [split] *)

Lemma split_not_nil sep s : split sep s ≠ [].
Proof.
  destruct s as [|a s]; cbn; [done|].
  destruct (Ascii.eqb a sep); [done|]. by destruct (split sep s).
Qed.

Lemma split_no_bar s : all_chars not_bar s = true → split "|" s = [s].
Proof.
  induction s as [|a s IH]; cbn; [done|].
  intros [Ha Hs]%andb_prop. unfold not_bar in Ha. apply negb_true_iff in Ha.
  rewrite Ha, (IH Hs). done.
Qed.

Lemma split_app_bar c t :
  all_chars not_bar c = true →
  split "|" (c +:+ "|" +:+ t) = c :: split "|" t.
Proof.
  induction c as [|a c IH]; [done|]. rewrite append_cons. cbn.
  intros [Ha Hs]%andb_prop. unfold not_bar in Ha. apply negb_true_iff in Ha.
  rewrite Ha, (IH Hs). done.
Qed.

(** ** [str] and [int] *)

Lemma string_of_uint_chars d :
  all_chars sign_or_digit (NilEmpty.string_of_uint d) = true.
Proof. induction d; cbn; try done. Qed.

Lemma str_chars z : all_chars sign_or_digit (str z) = true.
Proof.
  unfold str, NilZero.string_of_int, NilZero.string_of_uint.
  destruct (Z.to_int z) as [d|d]; destruct d; cbn; try done;
    apply string_of_uint_chars.
Qed.

Lemma str_not_empty z : str z ≠ EmptyString.
Proof.
  unfold str, NilZero.string_of_int, NilZero.string_of_uint.
  destruct (Z.to_int z) as [d|d]; destruct d; done.
Qed.

Lemma str_not_space z : all_chars not_space (str z) = true.
Proof. eapply all_chars_impl; [apply sign_or_digit_not_space | apply str_chars]. Qed.

Lemma str_not_bar z : all_chars not_bar (str z) = true.
Proof. eapply all_chars_impl; [apply sign_or_digit_not_bar | apply str_chars]. Qed.

Lemma int_digits_uint d :
  d ≠ Decimal.Nil → int_digits (NilEmpty.string_of_uint d) = Ok (Z.of_uint d).
Proof.
  intros Hd. unfold int_digits.
  replace (NilEmpty.string_of_uint d) with (NilZero.string_of_uint d)
    by (by destruct d).
  by rewrite NilZero.usu.
Qed.

Lemma int_str z : int (str z) = Ok z.
Proof.
  unfold int. rewrite (strip_not_space _ (str_not_space z)).
  rewrite <- (DecimalZ.of_to z) at 2.
  unfold str. destruct z as [|p|p]; cbn [Z.to_int].
  - reflexivity.
  - pose proof (DecimalPos.Unsigned.to_uint_nonnil p) as Hn.
    cbn [NilZero.string_of_int Z.of_int].
    replace (NilZero.string_of_uint (Pos.to_uint p))
      with (NilEmpty.string_of_uint (Pos.to_uint p))
      by (by destruct (Pos.to_uint p)).
    rewrite <- (int_digits_uint _ Hn).
    destruct (Pos.to_uint p); try done.
  - pose proof (DecimalPos.Unsigned.to_uint_nonnil p) as Hn.
    cbn [NilZero.string_of_int Z.of_int].
    replace (NilZero.string_of_uint (Pos.to_uint p))
      with (NilEmpty.string_of_uint (Pos.to_uint p))
      by (by destruct (Pos.to_uint p)).
    rewrite (int_digits_uint _ Hn). reflexivity.
Qed.

End PyTheory.

(* ===================================================================== *)
(** * The preferences stores: proofs *)
(* ===================================================================== *)

Module PrefsTheory.
Import Prefs PrefsSpec.

Lemma get_dict_Ok h l d : h !! l = Some (ODict d) → get_dict h l = Ok d.
Proof. intros H. unfold get_dict. by rewrite H. Qed.

Lemma get_dict_inv h l d : get_dict h l = Ok d → h !! l = Some (ODict d).
Proof.
  unfold get_dict. destruct (h !! l) as [[?|?]|]; congruence.
Qed.

(** C4. The legacy-file migration: without a legacy file it does nothing;
    it removes the file only when the file exists, ['libraries'] is no
    longer in the blob and the operating system allows it; an [os.remove]
    that fails is swallowed; nothing but the file is ever touched; and once
    a run has left no file behind, or simply on a second run, it does
    nothing. *)
Theorem migrate_json_config_idempotent (allowed : bool) (w : world)
    (p : gmap string val) :
  heap w !! plugin_prefs = Some (ODict p) →
  ∃ w1, migrate_json_config_if_required allowed w = Ok w1 ∧
        heap w1 = heap w ∧ db_writes w1 = db_writes w ∧
        json_exists w1 =
          json_exists w && negb (allowed && bool_decide (p !! "libraries" = None)) ∧
        (json_exists w = false → w1 = w) ∧
        (is_Some (p !! "libraries") → w1 = w) ∧
        (allowed = false → w1 = w) ∧
        (∀ allowed', json_exists w1 = false →
                     migrate_json_config_if_required allowed' w1 = Ok w1) ∧
        migrate_json_config_if_required allowed w1 = Ok w1.
Proof.
  intros Hp. apply get_dict_Ok in Hp.
  destruct w as [h ex wr]. cbn [heap] in Hp.
  unfold migrate_json_config_if_required. cbn [json_exists heap].
  destruct ex; cbn [negb].
  - rewrite Hp. cbn [bind].
    case_bool_decide as Hl.
    + destruct allowed; cbn [try_pass os_remove heap db_writes json_exists].
      * eexists. split; [reflexivity|]. cbn.
        repeat split; try done.
        intros [? ?]; congruence.
      * eexists. split; [reflexivity|]. cbn. rewrite Hp. cbn.
        rewrite bool_decide_true by done. cbn.
        repeat split; try done.
    + eexists. split; [reflexivity|]. cbn. rewrite Hp. cbn.
      rewrite bool_decide_false by done.
      repeat split; try done.
      by rewrite andb_false_r.
  - eexists. split; [reflexivity|]. cbn. repeat split; done.
Qed.

Lemma migrate_json_config_idempotent_witness :
  let w := mkWorld (module_heap ∅) true [] in
  heap w !! plugin_prefs = Some (ODict ∅) ∧
  ∃ w1, migrate_json_config_if_required true w = Ok w1 ∧ json_exists w1 = false.
Proof.
  intros w.
  assert (H : heap w !! plugin_prefs = Some (ODict ∅)) by (vm_compute; reflexivity).
  split; [exact H|].
  destruct (migrate_json_config_idempotent true w ∅ H)
    as (w1 & Hrun & _ & _ & Hex & _).
  exists w1. split; [exact Hrun|]. rewrite Hex. reflexivity.
Defined.

(** The life of the legacy file, on an example: while ['libraries'] is
    in the blob the file stays; [get_library_config] moves the last
    library into its database and takes ['libraries'] out of the blob;
    the next run of the migration removes the file. *)
Lemma legacy_file_removed_after_last_library :
  migrate_json_config_if_required true legacy_world = Ok legacy_world ∧
  ∃ w1 pp w2,
    get_library_config legacy_db legacy_world = Ok (VRef 6%positive, w1) ∧
    heap w1 !! plugin_prefs = Some (ODict pp) ∧ pp !! "libraries" = None ∧
    json_exists w1 = true ∧
    get_namespaced legacy_db PREFS_NAMESPACE PREFS_KEY_SETTINGS VNone w1 =
      Ok (VRef 6%positive) ∧
    migrate_json_config_if_required true w1 = Ok w2 ∧
    json_exists w2 = false.
Proof.
  split; [vm_compute; reflexivity|].
  destruct (get_library_config legacy_db legacy_world) as [[v w1]|] eqn:E;
    [|vm_compute in E; discriminate].
  vm_compute in E. injection E as <- <-.
  eexists _, _, _. split; [reflexivity|].
  split; [vm_compute; reflexivity|]. split; [reflexivity|].
  split; [reflexivity|]. split; [vm_compute; reflexivity|].
  split; [vm_compute; reflexivity|]. reflexivity.
Qed.

Lemma settings_key_ne_version :
  namespaced PREFS_NAMESPACE PREFS_KEY_SETTINGS ≠ KEY_SCHEMA_VERSION.
Proof. discriminate. Qed.

Lemma current_version_is_current :
  is_current_version (VNum DEFAULT_SCHEMA_VERSION) = true.
Proof. reflexivity. Qed.

Lemma migrate_library_config_spec (d : db) (l : loc)
    (c p : gmap string val) (w : world) :
  heap w !! l = Some (ODict c) →
  heap w !! prefs d = Some (ODict p) →
  ∃ w1 c1,
    migrate_library_config_if_required d (VRef l) w = Ok w1 ∧
    heap w1 !! l = Some (ODict c1) ∧
    (if is_current_version (default (VNum 0) (c !! KEY_SCHEMA_VERSION))
     then w1 = w
     else
       c1 !! KEY_SCHEMA_VERSION = Some (VNum DEFAULT_SCHEMA_VERSION) ∧
       db_writes w1 =
         (prefs d, namespaced PREFS_NAMESPACE PREFS_KEY_SETTINGS, VRef l)
           :: db_writes w ∧
       json_exists w1 = json_exists w ∧
       get_namespaced d PREFS_NAMESPACE PREFS_KEY_SETTINGS VNone w1 = Ok (VRef l) ∧
       (l ≠ prefs d → c1 = <[KEY_SCHEMA_VERSION := VNum DEFAULT_SCHEMA_VERSION]> c) ∧
       (∀ l', l' ≠ l → l' ≠ prefs d → heap w1 !! l' = heap w !! l')) ∧
    is_current_version (default (VNum 0) (c1 !! KEY_SCHEMA_VERSION)) = true ∧
    migrate_library_config_if_required d (VRef l) w1 = Ok w1.
Proof.
  intros Hc Hp.
  assert (Hagain : ∀ w1 c1,
    heap w1 !! l = Some (ODict c1) →
    is_current_version (default (VNum 0) (c1 !! KEY_SCHEMA_VERSION)) = true →
    migrate_library_config_if_required d (VRef l) w1 = Ok w1).
  { intros w1 c1 H1 Hv. unfold migrate_library_config_if_required.
    cbn [as_ref bind]. rewrite (get_dict_Ok _ _ _ H1). cbn [bind].
    by rewrite Hv. }
  unfold migrate_library_config_if_required at 1.
  cbn [as_ref bind]. rewrite (get_dict_Ok _ _ _ Hc). cbn [bind].
  destruct (is_current_version (default (VNum 0) (c !! KEY_SCHEMA_VERSION)))
    eqn:Hv.
  - exists w, c. repeat split; eauto.
  - unfold set_library_config, set_namespaced, set_heap. cbn [heap json_exists db_writes].
    set (c' := <[KEY_SCHEMA_VERSION := VNum DEFAULT_SCHEMA_VERSION]> c).
    destruct (decide (l = prefs d)) as [->|Hne].
    + rewrite (get_dict_Ok _ (prefs d) c') by apply lookup_insert_eq.
      cbn [bind].
      set (c1 := <[namespaced PREFS_NAMESPACE PREFS_KEY_SETTINGS := VRef (prefs d)]> c').
      assert (Hk : c1 !! KEY_SCHEMA_VERSION = Some (VNum DEFAULT_SCHEMA_VERSION)).
      { unfold c1, c'. rewrite lookup_insert_ne by apply settings_key_ne_version.
        apply lookup_insert_eq. }
      eexists _, c1. split; [reflexivity|]. cbn [heap json_exists db_writes].
      assert (Hl : (<[prefs d := ODict c1]> (<[prefs d := ODict c']> (heap w)))
                     !! prefs d = Some (ODict c1)) by apply lookup_insert_eq.
      split; [exact Hl|]. split; [|split].
      * repeat split; try done.
        -- unfold get_namespaced. cbn [heap]. rewrite (get_dict_Ok _ _ _ Hl).
           cbn [bind]. unfold c1. by rewrite lookup_insert_eq.
        -- intros l' Hl' _. by rewrite !lookup_insert_ne.
      * by rewrite Hk.
      * apply (Hagain _ c1); [exact Hl | by rewrite Hk].
    + rewrite (get_dict_Ok _ (prefs d) p) by (by rewrite lookup_insert_ne).
      cbn [bind].
      assert (Hk : c' !! KEY_SCHEMA_VERSION = Some (VNum DEFAULT_SCHEMA_VERSION))
        by apply lookup_insert_eq.
      eexists _, c'. split; [reflexivity|]. cbn [heap json_exists db_writes].
      assert (Hl : (<[prefs d := ODict (<[namespaced PREFS_NAMESPACE PREFS_KEY_SETTINGS
                                            := VRef l]> p)]>
                      (<[l := ODict c']> (heap w))) !! l = Some (ODict c')).
      { rewrite lookup_insert_ne by done. apply lookup_insert_eq. }
      split; [exact Hl|]. split; [|split].
      * repeat split; try done.
        -- unfold get_namespaced. cbn [heap].
           rewrite (get_dict_Ok _ (prefs d) _ (lookup_insert_eq _ _ _)).
           cbn [bind]. by rewrite lookup_insert_eq.
        -- intros l' Hl1 Hl2. by rewrite !lookup_insert_ne.
      * by rewrite Hk.
      * apply (Hagain _ c'); [exact Hl | by rewrite Hk].
Qed.

(** C5. The schema migration of a library record [l] (a dict [c]) for
    database [d]: when the record's version is current nothing changes and
    nothing is written; otherwise the version field becomes the current
    version, the other fields stay, and exactly one row is written, after
    which the store returns the record; in both cases the record is then
    current and a second run changes nothing. *)
Theorem migrate_library_config_once (d : db) (l : loc)
    (c p : gmap string val) (w : world) :
  heap w !! l = Some (ODict c) →
  heap w !! prefs d = Some (ODict p) →
  ∃ w1 c1,
    migrate_library_config_if_required d (VRef l) w = Ok w1 ∧
    heap w1 !! l = Some (ODict c1) ∧
    (if is_current_version (default (VNum 0) (c !! KEY_SCHEMA_VERSION))
     then w1 = w
     else
       c1 !! KEY_SCHEMA_VERSION = Some (VNum DEFAULT_SCHEMA_VERSION) ∧
       db_writes w1 =
         (prefs d, namespaced PREFS_NAMESPACE PREFS_KEY_SETTINGS, VRef l)
           :: db_writes w ∧
       json_exists w1 = json_exists w ∧
       get_namespaced d PREFS_NAMESPACE PREFS_KEY_SETTINGS VNone w1 = Ok (VRef l) ∧
       (l ≠ prefs d → c1 = <[KEY_SCHEMA_VERSION := VNum DEFAULT_SCHEMA_VERSION]> c) ∧
       (∀ l', l' ≠ l → l' ≠ prefs d → heap w1 !! l' = heap w !! l')) ∧
    is_current_version (default (VNum 0) (c1 !! KEY_SCHEMA_VERSION)) = true ∧
    migrate_library_config_if_required d (VRef l) w1 = Ok w1.
Proof. apply migrate_library_config_spec. Qed.

Lemma migrate_library_config_once_witness :
  let d := mkDb "uuid" 4%positive in
  let c := default_library_dict 6%positive in
  let w := mkWorld (<[5%positive := ODict c]> (<[4%positive := ODict ∅]> (module_heap ∅)))
                   false [] in
  heap w !! 5%positive = Some (ODict c) ∧
  heap w !! prefs d = Some (ODict ∅) ∧
  ∃ w1, migrate_library_config_if_required d (VRef 5%positive) w = Ok w1 ∧
        length (db_writes w1) = 1%nat ∧
        migrate_library_config_if_required d (VRef 5%positive) w1 = Ok w1.
Proof.
  intros d c w.
  assert (H1 : heap w !! 5%positive = Some (ODict c)) by (vm_compute; reflexivity).
  assert (H2 : heap w !! prefs d = Some (ODict ∅)) by (vm_compute; reflexivity).
  split; [exact H1|]. split; [exact H2|].
  destruct (migrate_library_config_once d 5%positive c ∅ w H1 H2)
    as (w1 & c1 & Hrun & _ & Hcase & _ & Hagain).
  exists w1. split; [exact Hrun|]. split; [|exact Hagain].
  change (is_current_version (default (VNum 0) (c !! KEY_SCHEMA_VERSION)))
    with false in Hcase.
  destruct Hcase as (_ & Hw & _). rewrite Hw. reflexivity.
Defined.

Lemma default_entries v :
  map_to_list (default_library_dict v) =
  [("autoApplyView", VBool false); ("views", VRef v);
   ("viewToApply", VStr LAST_VIEW_ITEM); ("lastView", VStr EmptyString)].
Proof. vm_compute. reflexivity. Qed.

Lemma default_rebuilt v :
  <["autoApplyView" := VBool false]>
    (<["views" := VRef v]>
       (<["viewToApply" := VStr LAST_VIEW_ITEM]>
          (<["lastView" := VStr EmptyString]> ∅))) = default_library_dict v.
Proof. vm_compute. reflexivity. Qed.

(** [copy.deepcopy(DEFAULT_LIBRARY_VALUES)]: two fresh dicts, the copy of
    the record and the copy of its views dict. *)
Lemma deepcopy_memo_defaults n h :
  defaults_intact h →
  let r := fresh (dom h) in
  let vs := fresh (dom (<[r := ODict ∅]> h)) in
  deepcopy_memo (S (S n)) (VRef DEFAULT_LIBRARY_VALUES) h ∅ =
    Ok (VRef r, <[r := ODict (default_library_dict vs)]>
                 (<[vs := ODict ∅]> (<[vs := ODict ∅]> (<[r := ODict ∅]> h))),
        <[DEFAULT_VIEWS := vs]> (<[DEFAULT_LIBRARY_VALUES := r]> ∅)).
Proof.
  intros [H1 H2] r vs.
  assert (Hr : h !! r = None) by (apply not_elem_of_dom, is_fresh).
  assert (Hr2 : r ≠ DEFAULT_VIEWS) by (intros E; rewrite E in Hr; congruence).
  cbn [deepcopy_memo].
  rewrite lookup_empty, H1, default_entries.
  cbn [copy_members foldl bind fst snd deepcopy_memo].
  rewrite (lookup_insert_ne _ DEFAULT_LIBRARY_VALUES DEFAULT_VIEWS) by discriminate.
  rewrite lookup_empty.
  rewrite (lookup_insert_ne h r DEFAULT_VIEWS) by exact Hr2.
  rewrite H2, map_to_list_empty.
  cbn [copy_members foldl bind fst snd deepcopy_memo app list_to_map foldr].
  fold r. fold vs. by rewrite default_rebuilt.
Qed.

Lemma deepcopy_defaults h :
  defaults_intact h →
  ∃ r vs h',
    deepcopy (VRef DEFAULT_LIBRARY_VALUES) h = Ok (VRef r, h') ∧
    h !! r = None ∧ h !! vs = None ∧ r ≠ vs ∧
    h' !! r = Some (ODict (default_library_dict vs)) ∧
    h' !! vs = Some (ODict ∅) ∧
    (∀ l, l ≠ r → l ≠ vs → h' !! l = h !! l).
Proof.
  intros Hd.
  pose proof (deepcopy_memo_defaults 998 h Hd) as Hc. cbn zeta in Hc.
  set (r := fresh (dom h)) in *.
  set (vs := fresh (dom (<[r := ODict ∅]> h))) in *.
  assert (Hr : h !! r = None) by (apply not_elem_of_dom, is_fresh).
  assert (Hvs : (<[r := ODict ∅]> h) !! vs = None) by (apply not_elem_of_dom, is_fresh).
  assert (Hne : r ≠ vs).
  { intros E. rewrite <- E, lookup_insert_eq in Hvs. done. }
  rewrite lookup_insert_ne in Hvs by done.
  eexists r, vs, _. split.
  { unfold deepcopy. change recursion_limit with (S (S 998)).
    rewrite Hc. reflexivity. }
  repeat split; try done.
  - apply lookup_insert_eq.
  - rewrite lookup_insert_ne by done. apply lookup_insert_eq.
  - intros l H1 H2. by rewrite !lookup_insert_ne.
Qed.

(** The legacy-blob branch of [get_library_config] finds nothing for a
    library that has no entry there. *)
Lemma get_library_config_fresh (d : db) (w : world) :
  defaults_intact (heap w) →
  nothing_stored d (heap w) →
  ∃ r vs w',
    get_library_config d w = Ok (VRef r, w') ∧
    heap w !! r = None ∧ heap w !! vs = None ∧ r ≠ vs ∧
    default_record (heap w') r vs ∧
    (∀ l, l ≠ r → l ≠ vs → l ≠ prefs d → heap w' !! l = heap w !! l) ∧
    get_namespaced d PREFS_NAMESPACE PREFS_KEY_SETTINGS VNone w' = Ok (VRef r).
Proof.
  intros Hd (Hp1 & Hp2 & (p & Hp & Hnone) & (pp & Hpp & Hleg)).
  destruct (deepcopy_defaults _ Hd) as (r & vs & h' & Hcopy & Hr & Hvs & Hne & Hr' & Hvs' & Hframe).
  assert (Hpr : prefs d ≠ r) by (intros E; rewrite E in Hp; congruence).
  assert (Hpv : prefs d ≠ vs) by (intros E; rewrite E in Hp; congruence).
  assert (Hp' : h' !! prefs d = Some (ODict p)) by (by rewrite Hframe).
  destruct (migrate_library_config_spec d r (default_library_dict vs) p
              (set_heap h' w) Hr' Hp')
    as (w1 & c1 & Hmig & Hc1 & Hcase & _ & _).
  change (is_current_version _) with false in Hcase.
  destruct Hcase as (_ & _ & _ & Hget & Hc1eq & Hframe1).
  rewrite (Hc1eq (not_eq_sym Hpr)) in Hc1.
  exists r, vs, w1.
  assert (Hrun : get_library_config d w = Ok (VRef r, w1)).
  { unfold get_library_config, get_library_uuid. cbv zeta.
    rewrite (get_dict_Ok _ _ _ Hpp). cbn [bind].
    destruct Hleg as [Hl | (ll & ls & Hl & Hll & Hid)]; rewrite Hl;
      [| cbn [as_ref bind]; rewrite (get_dict_Ok _ _ _ Hll); cbn [bind];
         rewrite Hid];
      cbn [bind]; rewrite Hcopy; cbn [bind];
      unfold get_namespaced; cbn [set_heap heap];
      rewrite (get_dict_Ok _ _ _ Hp'); cbn [bind]; rewrite Hnone;
      cbn [default bind]; rewrite Hmig; reflexivity. }
  split; [exact Hrun|]. repeat split; try done.
  - rewrite Hframe1 by done. exact Hvs'.
  - intros l H1 H2 H3. rewrite Hframe1 by done. by apply Hframe.
Qed.

Lemma defaults_intact_frame h h' r vs :
  defaults_intact h →
  h !! r = None → h !! vs = None →
  (∀ l, l ≠ r → l ≠ vs → h' !! l = h !! l) →
  defaults_intact h'.
Proof.
  intros [H1 H2] Hr Hvs Hframe. split.
  - rewrite Hframe; [done| |]; intros E; rewrite <- E in *; congruence.
  - rewrite Hframe; [done| |]; intros E; rewrite <- E in *; congruence.
Qed.

Lemma default_record_fields h r vs :
  default_record h r vs → has_default_fields h r.
Proof.
  intros [H1 H2]. eexists _, vs. split; [exact H1|].
  split; [|split; [exact H2|]]; done.
Qed.

(** C8. A library with nothing stored gets a record of its own: two
    objects that did not exist before, holding an empty views mapping,
    [lastView] the empty string, [autoApplyView] false and [viewToApply]
    the sentinel (and the schema version the migration has stamped on it).
    Whatever is later written into that record or into its views mapping,
    [DEFAULT_LIBRARY_VALUES] stays as it was, and another library with
    nothing stored again gets the default fields, in objects disjoint from
    the first library's. *)
Theorem get_library_config_defaults (d : db) (w : world) :
  defaults_intact (heap w) →
  nothing_stored d (heap w) →
  ∃ r vs w',
    get_library_config d w = Ok (VRef r, w') ∧
    heap w !! r = None ∧ heap w !! vs = None ∧ r ≠ vs ∧
    default_record (heap w') r vs ∧
    has_default_fields (heap w') r ∧
    (∀ o1 o2, defaults_intact (<[r := o1]> (<[vs := o2]> (heap w')))) ∧
    (∀ d' o1 o2 w2,
       heap w2 = <[r := o1]> (<[vs := o2]> (heap w')) →
       nothing_stored d' (heap w2) →
       ∃ r' vs' w2',
         get_library_config d' w2 = Ok (VRef r', w2') ∧
         r' ≠ r ∧ r' ≠ vs ∧ vs' ≠ r ∧ vs' ≠ vs ∧ r' ≠ vs' ∧
         default_record (heap w2') r' vs' ∧
         has_default_fields (heap w2') r').
Proof.
  intros Hd Hn.
  destruct (get_library_config_fresh d w Hd Hn)
    as (r & vs & w' & Hrun & Hr & Hvs & Hne & Hrec & Hframe & _).
  assert (Hmut : ∀ o1 o2, defaults_intact (<[r := o1]> (<[vs := o2]> (heap w')))).
  { intros o1 o2. destruct Hn as (Hp1 & Hp2 & _).
    destruct Hd as [H1 H2].
    assert (r ≠ DEFAULT_LIBRARY_VALUES) by (intros E; rewrite E in Hr; congruence).
    assert (r ≠ DEFAULT_VIEWS) by (intros E; rewrite E in Hr; congruence).
    assert (vs ≠ DEFAULT_LIBRARY_VALUES) by (intros E; rewrite E in Hvs; congruence).
    assert (vs ≠ DEFAULT_VIEWS) by (intros E; rewrite E in Hvs; congruence).
    split; rewrite !lookup_insert_ne by done; rewrite Hframe by done; done. }
  exists r, vs, w'.
  split; [exact Hrun|]. split; [exact Hr|]. split; [exact Hvs|].
  split; [exact Hne|]. split; [exact Hrec|].
  split; [exact (default_record_fields _ _ _ Hrec)|].
  split; [exact Hmut|].
  intros d' o1 o2 w2 Hw2 Hn'.
  assert (Hd2 : defaults_intact (heap w2)) by (rewrite Hw2; apply Hmut).
  destruct (get_library_config_fresh d' w2 Hd2 Hn')
    as (r' & vs' & w2' & Hrun' & Hr' & Hvs' & Hne' & Hrec' & _).
  exists r', vs', w2'. split; [exact Hrun'|].
  rewrite Hw2 in Hr', Hvs'.
  split. { intros E. by rewrite E, lookup_insert_eq in Hr'. }
  split. { intros E. rewrite E, lookup_insert_ne, lookup_insert_eq in Hr'; done. }
  split. { intros E. by rewrite E, lookup_insert_eq in Hvs'. }
  split. { intros E. rewrite E, lookup_insert_ne, lookup_insert_eq in Hvs'; done. }
  split; [exact Hne'|]. split; [exact Hrec'|].
  exact (default_record_fields _ _ _ Hrec').
Qed.

Lemma get_library_config_defaults_witness :
  let d := mkDb "uuid-1" 4%positive in
  let w := mkWorld (<[4%positive := ODict ∅]> (module_heap ∅)) false [] in
  defaults_intact (heap w) ∧ nothing_stored d (heap w) ∧
  ∃ r w', get_library_config d w = Ok (VRef r, w') ∧
          has_default_fields (heap w') r.
Proof.
  intros d w.
  assert (Hd : defaults_intact (heap w)) by (split; vm_compute; reflexivity).
  assert (Hn : nothing_stored d (heap w)).
  { split; [discriminate|]. split; [discriminate|]. split.
    - exists ∅. split; vm_compute; reflexivity.
    - exists ∅. split; [vm_compute; reflexivity|]. left. reflexivity. }
  split; [exact Hd|]. split; [exact Hn|].
  destruct (get_library_config_defaults d w Hd Hn)
    as (r & vs & w' & Hrun & _ & _ & _ & _ & Hf & _).
  exists r, w'. split; [exact Hrun | exact Hf].
Defined.

End PrefsTheory.
(* ===================================================================== *)
(** * The dialog: proofs *)
(* ===================================================================== *)

Module DialogTheory.
Import Dialog PySpec PyTheory DialogSpec.

(** ** Sorting and combo boxes *)

Section sorted_facts.
Context {A : Type} (le : A → A → bool).

Lemma insert_sorted_perm x l : insert_sorted le x l ≡ₚ x :: l.
Proof.
  induction l as [|y l IH]; cbn; [done|].
  destruct (le x y); [done|]. rewrite IH. apply Permutation_swap.
Qed.

Lemma sorted_perm l : sorted le l ≡ₚ l.
Proof.
  induction l as [|x l IH]; cbn; [done|].
  rewrite insert_sorted_perm. by rewrite IH.
Qed.
End sorted_facts.

Lemma sorted_keys_elem {V} (vs : gmap string V) t :
  t ∈ sorted_keys vs ↔ is_Some (vs !! t).
Proof.
  unfold sorted_keys. rewrite sorted_perm.
  rewrite list_elem_of_fmap. split.
  - intros ([k v] & -> & H%elem_of_map_to_list). eauto.
  - intros [v H]. exists (t, v). split; [done|]. by apply elem_of_map_to_list.
Qed.

Lemma items_add_all l c :
  items (foldl (fun acc t => addItem t acc) c l) = items c ++ l.
Proof.
  revert c. induction l as [|x l IH]; intros c; cbn [foldl].
  - by rewrite app_nil_r.
  - rewrite IH. cbn. by rewrite <- app_assoc.
Qed.

Lemma items_setCurrentIndex i c : items (setCurrentIndex i c) = items c.
Proof. done. Qed.

Lemma items_select_view sel c :
  items (vc_combo (select_view sel c)) = items (vc_combo c).
Proof.
  unfold select_view. cbn. destruct (truthy_opt sel); [done|].
  by destruct (0 <? count (vc_combo c)).
Qed.

Lemma special_select_view sel c : special (select_view sel c) = special c.
Proof. done. Qed.

Lemma populate_combo_items {V} (vs : gmap string V) sel c :
  items (vc_combo (populate_combo vs sel c)) =
  (if special c then [LAST_VIEW_ITEM] else []) ++ sorted_keys vs.
Proof.
  unfold populate_combo. rewrite items_select_view. cbn [vc_combo].
  rewrite items_add_all. by destruct (special c).
Qed.

Lemma populate_combo_special {V} (vs : gmap string V) sel c :
  special (populate_combo vs sel c) = special c.
Proof. done. Qed.

Lemma items_select_value s c : items (select_value s c) = items c.
Proof.
  unfold select_value. destruct (truthy s); [done|].
  by destruct (0 <? count c).
Qed.

Lemma currentText_elem c :
  currentText c = EmptyString ∨ currentText c ∈ items c.
Proof.
  unfold currentText. destruct (currentIndex c <? 0); [by left|].
  destruct (items c !! Z.to_nat (currentIndex c)) as [t|] eqn:E; [|by left].
  right. cbn. by eapply list_elem_of_lookup_2.
Qed.

Lemma find_from_spec t l i0 :
  t ∈ l →
  i0 ≤ find_from t l i0 < i0 + Z.of_nat (length l) ∧
  l !! Z.to_nat (find_from t l i0 - i0) = Some t.
Proof.
  revert i0. induction l as [|x l IH]; intros i0 Hin.
  - by apply elem_of_nil in Hin.
  - cbn [find_from]. destruct (String.eqb_spec x t) as [->|Hne].
    + split; [cbn [length]; lia|]. by rewrite Z.sub_diag.
    + apply elem_of_cons in Hin as [->|Hin]; [done|].
      destruct (IH (i0 + 1) Hin) as [Hr Hl]. split; [cbn [length]; lia|].
      replace (Z.to_nat (find_from t l (i0 + 1) - i0))
        with (S (Z.to_nat (find_from t l (i0 + 1) - (i0 + 1)))) by lia.
      exact Hl.
Qed.

Lemma currentText_set (i : Z) c t :
  0 ≤ i → items c !! Z.to_nat i = Some t →
  currentText (setCurrentIndex i c) = t.
Proof.
  intros Hi Hl. unfold currentText, setCurrentIndex, count. cbn.
  pose proof (lookup_lt_Some _ _ _ Hl) as Hlt.
  replace (0 <=? i) with true by (symmetry; apply Z.leb_le; lia).
  replace (i <? Z.of_nat (length (items c))) with true
    by (symmetry; apply Z.ltb_lt; lia).
  cbn. replace (i <? 0) with false by (symmetry; apply Z.ltb_ge; lia).
  by rewrite Hl.
Qed.

Lemma currentText_find t c :
  t ∈ items c → currentText (setCurrentIndex (findText t c) c) = t.
Proof.
  intros Hin. destruct (find_from_spec t (items c) 0 Hin) as [Hr Hl].
  apply currentText_set; [unfold findText; lia|].
  unfold findText. by rewrite Z.sub_0_r in Hl.
Qed.

(** [select_value] shows the stored name, when the combo box offers it. *)
Lemma select_value_shows s c :
  search_combo_ok c → (s = EmptyString ∨ s ∈ items c) →
  currentText (select_value s c) = s.
Proof.
  intros [H0 _] Hs. unfold select_value.
  destruct s as [|a s]; cbn [truthy].
  - assert ((0 <? count c) = true) as ->.
    { apply Z.ltb_lt. unfold count.
      apply lookup_lt_Some in H0. lia. }
    by apply currentText_set.
  - destruct Hs as [?|Hs]; [done|]. by apply currentText_find.
Qed.

Lemma select_value_ok s c : search_combo_ok c → search_combo_ok (select_value s c).
Proof. unfold search_combo_ok. by rewrite items_select_value. Qed.

(** ** Filling a list widget *)

Lemma remove_first_perm x l : x ∈ l → x :: list_remove_first x l ≡ₚ l.
Proof.
  induction l as [|y l IH]; intros Hin; [by apply elem_of_nil in Hin|].
  cbn [list_remove_first]. destruct (String.eqb_spec y x) as [->|Hne]; [done|].
  apply elem_of_cons in Hin as [->|Hin]; [done|].
  rewrite Permutation_swap. by rewrite (IH Hin).
Qed.

Lemma dict_of_pairs_lookup {V} (l : list (string * V)) (m : gmap string V) k v :
  foldl (fun m p => <[p.1 := p.2]> m) m l !! k = Some v →
  (k, v) ∈ l ∨ m !! k = Some v.
Proof.
  revert m. induction l as [|[k' v'] l IH]; intros m; cbn [foldl]; [by right|].
  intros [H|H]%IH.
  - left. by apply elem_of_cons; right.
  - cbn in H. destruct (decide (k' = k)) as [->|Hne].
    + rewrite lookup_insert_eq in H. left. apply elem_of_cons; left. congruence.
    + rewrite lookup_insert_ne in H by done. by right.
Qed.

Lemma dict_of_pairs_is_Some {V} (l : list (string * V)) (m : gmap string V) k :
  k ∈ l.*1 ∨ is_Some (m !! k) →
  is_Some (foldl (fun m p => <[p.1 := p.2]> m) m l !! k).
Proof.
  revert m. induction l as [|[k' v'] l IH]; intros m; cbn [foldl].
  - intros [H|H]; [by apply elem_of_nil in H | done].
  - intros H. apply IH. cbn [fmap list_fmap fst] in H.
    destruct (decide (k' = k)) as [->|Hne].
    + right. cbn. rewrite lookup_insert_eq. eauto.
    + destruct H as [H|H].
      * apply elem_of_cons in H as [?|H]; [congruence | by left].
      * right. cbn. by rewrite lookup_insert_ne.
Qed.

(** When equal names carry equal values, [dict(pairs)] returns the value
    of any pair. *)
Lemma dict_of_pairs_functional {V} (l : list (string * V)) k v :
  (∀ v1 v2, (k, v1) ∈ l → (k, v2) ∈ l → v1 = v2) →
  (k, v) ∈ l → dict_of_pairs l !! k = Some v.
Proof.
  intros Hfun Hin.
  destruct (dict_of_pairs_is_Some l ∅ k) as [v' Hv'].
  { left. apply list_elem_of_fmap. by exists (k, v). }
  unfold dict_of_pairs. rewrite Hv'.
  apply dict_of_pairs_lookup in Hv' as [Hv'|Hv']; [|by rewrite lookup_empty in Hv'].
  f_equal. by apply Hfun.
Qed.

Module ColumnListTheory.
Import ColumnList.

Lemma populate_column_ok g c b :
  is_Some (headers g !! c) →
  ∃ it, populate_column g c b = Ok it ∧ data it = c ∧ inert it ∧
        (c ≠ "ondevice" → checkState it = check_of_bool b).
Proof.
  intros [h Hh]. unfold populate_column, getitem. rewrite Hh. cbn [bind].
  eexists. split; [reflexivity|]. cbn. split; [done|].
  destruct (String.eqb_spec c "ondevice") as [->|Hne]; split; done.
Qed.

Lemma populate_stored_ok g cols rem :
  Forall (column_name_ok g) rem →
  ∃ its rest,
    populate_stored g cols rem = Ok (its, rest) ∧
    (data <$> its) ++ rest ≡ₚ rem ∧
    Forall inert its ∧
    Forall (λ it, data it ≠ "ondevice" → checkState it = Checked) its ∧
    (∀ unsel, rem ≡ₚ cols.*1 ++ unsel →
              data <$> its = cols.*1 ∧ rest ≡ₚ unsel).
Proof.
  revert rem. induction cols as [|[c wd] cols IH]; intros rem Hrem.
  - exists [], rem. cbn.
    split; [done|]. split; [done|]. split; [done|]. split; [done|].
    by intros unsel ->.
  - cbn [populate_stored]. case_bool_decide as Hin.
    + assert (Hc : column_name_ok g c) by (by eapply Forall_forall in Hrem).
      destruct (populate_column_ok g c true (proj1 Hc))
        as (it & Hit & Hdata & Hinert & Hchk).
      rewrite Hit. cbn [bind].
      pose proof (remove_first_perm c rem Hin) as Hperm.
      assert (Hrem' : Forall (column_name_ok g) (list_remove_first c rem)).
      { rewrite <- Hperm in Hrem. by apply Forall_cons in Hrem as [_ ?]. }
      destruct (IH _ Hrem') as (its & rest & Hrun & Hp & Hi & Hk & Hexact).
      rewrite Hrun. cbn [bind].
      exists (it :: its), rest. split; [done|].
      split. { cbn. rewrite Hdata, Hp. done. }
      split. { by constructor. }
      split. { constructor; [rewrite Hdata; exact Hchk | done]. }
      intros unsel Hu. cbn [fmap list_fmap fst] in Hu.
      rewrite <- Hperm in Hu. cbn in Hu. apply Permutation_cons_inv in Hu.
      destruct (Hexact _ Hu) as [E1 E2]. split; [|done].
      cbn. by rewrite Hdata, E1.
    + destruct (IH _ Hrem) as (its & rest & Hrun & Hp & Hi & Hk & Hexact).
      exists its, rest.
      split; [done|]. split; [done|]. split; [done|]. split; [done|].
      intros unsel Hu. exfalso. apply Hin. rewrite Hu.
      apply elem_of_app. left. apply elem_of_cons. by left.
Qed.

Lemma populate_rest_ok g rest :
  Forall (column_name_ok g) rest →
  ∃ its, mapM (fun colname => populate_column g colname false) rest = Ok its ∧
         data <$> its = rest ∧ Forall inert its ∧
         Forall (λ it, checkState it = Unchecked) its.
Proof.
  induction 1 as [|c rest Hc _ (its & Hrun & Hd & Hi & Hu)].
  - by exists [].
  - destruct (populate_column_ok g c false (proj1 Hc))
      as (it & Hit & Hdata & Hinert & Hchk).
    cbn [mapM]. rewrite Hit. cbn [bind]. rewrite Hrun. cbn [bind].
    exists (it :: its). split; [done|].
    split. { cbn. by rewrite Hdata, Hd. }
    split. { by constructor. }
    constructor; [|done].
    destruct (decide (c = "ondevice")) as [E|Hne]; [|by apply Hchk].
    apply Hinert. congruence.
Qed.

(** [populate] succeeds on host columns that have headers, whatever the
    stored list holds, and shows each host column once; the stored
    columns come first and are ticked. *)
Lemma populate_ok g cols all w :
  columns_ok g all →
  ∃ its its',
    populate g cols all w =
      Ok (mkColumnList (its ++ its') (-1) (dict_of_pairs cols) all) ∧
    columns_list_ok all (mkColumnList (its ++ its') (-1) (dict_of_pairs cols) all) ∧
    Forall (λ it, data it ≠ "ondevice" → checkState it = Checked) its ∧
    Forall (λ it, checkState it = Unchecked) its' ∧
    (∀ unsel, all.*1 ≡ₚ cols.*1 ++ unsel →
              data <$> its = cols.*1 ∧ data <$> its' ≡ₚ unsel).
Proof.
  intros Hall. unfold populate.
  destruct (populate_stored_ok g cols all.*1 Hall)
    as (its & rest & Hrun & Hp & Hi & Hk & Hexact).
  rewrite Hrun. cbn [bind].
  assert (Hrest : Forall (column_name_ok g) rest).
  { unfold columns_ok in Hall. rewrite <- Hp in Hall.
    by apply Forall_app in Hall as [_ ?]. }
  destruct (populate_rest_ok g rest Hrest) as (its' & Hrun' & Hd' & Hi' & Hu').
  rewrite Hrun'. cbn [bind].
  exists its, its'. split; [done|]. split; [|split; [done|split; [done|]]].
  - split; [|split; [done|]]; cbn.
    + rewrite fmap_app, Hd'. done.
    + apply Forall_app. split; done.
  - intros unsel Hu. destruct (Hexact _ Hu) as [E1 E2]. by rewrite Hd'.
Qed.

(** *** Reading it back *)

Lemma get_data_filter w :
  get_data w =
  (λ it, (strip (data it), width_of w (strip (data it)))) <$>
    filter (λ it, kept it = true) (cl_items w).
Proof.
  unfold get_data. induction (cl_items w) as [|it l IH]; [done|].
  cbn [omap list_omap]. rewrite filter_cons. fold (kept it).
  destruct (kept it) eqn:E.
  - rewrite decide_True by done. cbn. f_equal. exact IH.
  - rewrite decide_False by done. exact IH.
Qed.

Lemma get_data_names w c :
  c ∈ (get_data w).*1 → ∃ it, it ∈ cl_items w ∧ c = strip (data it).
Proof.
  rewrite get_data_filter, <- list_fmap_compose.
  intros (it & -> & Hit%list_elem_of_filter)%list_elem_of_fmap.
  exists it. by destruct Hit.
Qed.

Lemma get_data_width w c wd : (c, wd) ∈ get_data w → wd = width_of w c.
Proof.
  rewrite get_data_filter. intros (it & [= -> ->] & _)%list_elem_of_fmap. done.
Qed.

Lemma get_data_ondevice w it :
  it ∈ cl_items w → strip (data it) = "ondevice" →
  ("ondevice", width_of w "ondevice") ∈ get_data w.
Proof.
  intros Hin Hd. rewrite get_data_filter. apply list_elem_of_fmap.
  exists it. rewrite Hd. split; [done|]. apply list_elem_of_filter.
  split; [|done]. unfold kept. rewrite Hd. by rewrite orb_true_r.
Qed.

Lemma items_stripped g all w :
  columns_ok g all → data <$> cl_items w ≡ₚ all.*1 →
  ∀ it, it ∈ cl_items w → column_name_ok g (data it).
Proof.
  intros Hall Hp it Hin. unfold columns_ok in Hall. rewrite <- Hp in Hall.
  eapply Forall_forall in Hall; [exact Hall|].
  apply list_elem_of_fmap. by exists it.
Qed.

(** Every column [get_data] returns is a host column. *)
Lemma get_data_host g all w c :
  columns_ok g all → data <$> cl_items w ≡ₚ all.*1 →
  c ∈ (get_data w).*1 → c ∈ all.*1.
Proof.
  intros Hall Hp (it & Hin & ->)%get_data_names.
  destruct (items_stripped g all w Hall Hp it Hin) as (_ & -> & _).
  rewrite <- Hp. apply list_elem_of_fmap. by exists it.
Qed.

Lemma omap_unticked w :
  Forall (λ it, checkState it = Unchecked) (cl_items w) →
  Forall (λ it, strip (data it) ≠ "ondevice") (cl_items w) →
  get_data w = [].
Proof.
  unfold get_data. induction (cl_items w) as [|it l IH]; [done|].
  intros [Hu1 Hu2]%Forall_cons [Hn1 Hn2]%Forall_cons.
  cbn [omap list_omap]. rewrite Hu1. cbn [is_checked orb].
  destruct (String.eqb_spec (strip (data it)) "ondevice"); [done|].
  by apply IH.
Qed.

Lemma get_data_app l1 l2 r sw all :
  get_data (mkColumnList (l1 ++ l2) r sw all) =
  get_data (mkColumnList l1 r sw all) ++ get_data (mkColumnList l2 r sw all).
Proof. unfold get_data. cbn. apply omap_app. Qed.

Lemma get_data_kept its (L : list (string * Z)) r sw all :
  data <$> its = L.*1 →
  Forall (λ it, data it ≠ "ondevice" → checkState it = Checked) its →
  (∀ c wd, (c, wd) ∈ L → sw !! c = Some wd) →
  (∀ c, c ∈ L.*1 → strip c = c) →
  get_data (mkColumnList its r sw all) = L.
Proof.
  unfold get_data. cbn [cl_items saved_column_widths all_columns_with_widths].
  revert its. induction L as [|[c wd] L IH]; intros its Hd Hk Hdict Hnames.
  - by destruct its.
  - destruct its as [|it its]; [done|]. cbn in Hd. injection Hd as Hc Hd.
    apply Forall_cons in Hk as [Hk1 Hk2].
    cbn [omap list_omap].
    assert (Hs : strip c = c) by (apply Hnames; cbn; apply elem_of_cons; by left).
    rewrite Hc, Hs.
    assert (Hkept : is_checked (checkState it) || String.eqb c "ondevice" = true).
    { destruct (String.eqb_spec c "ondevice"); [by rewrite orb_true_r|].
      rewrite Hk1 by congruence. done. }
    rewrite Hkept.
    rewrite (Hdict c wd) by (apply elem_of_cons; by left). cbn [default].
    f_equal. apply IH; try done.
    + intros c' wd' Hin. apply Hdict. apply elem_of_cons. by right.
    + intros c' Hin. apply Hnames. cbn. apply elem_of_cons. by right.
Qed.

(** Populating from what [get_data] returned, and reading back. *)
Lemma get_data_populate g all w w0 :
  columns_ok g all → data <$> cl_items w ≡ₚ all.*1 →
  ∃ w', populate g (get_data w) all w0 = Ok w' ∧
        columns_list_ok all w' ∧
        get_data w' = get_data w.
Proof.
  intros Hall Hp.
  pose proof (items_stripped g all w Hall Hp) as Hstr.
  set (L := get_data w).
  destruct (populate_ok g L all w0 Hall) as (its & its' & Hrun & Hok & Hk & Hu & Hexact).
  eexists. split; [exact Hrun|]. split; [exact Hok|].
  (* the kept items, and the others *)
  set (sel := filter (λ it, kept it = true) (cl_items w)).
  set (unsel := filter (λ it, ¬ kept it = true) (cl_items w)).
  assert (HL : L.*1 = data <$> sel).
  { unfold L. rewrite get_data_filter, <- list_fmap_compose. fold sel.
    apply list_fmap_ext. intros i it Hit. cbn.
    apply list_elem_of_lookup_2, list_elem_of_filter in Hit as [_ Hit].
    by destruct (Hstr it Hit) as (_ & -> & _). }
  assert (Hsplit : all.*1 ≡ₚ L.*1 ++ (data <$> unsel)).
  { rewrite HL, <- fmap_app, <- Hp. apply fmap_Permutation.
    symmetry. apply filter_app_complement. }
  destruct (Hexact _ Hsplit) as [Hd Hd'].
  rewrite get_data_app.
  (* the untouched items contribute nothing *)
  rewrite (omap_unticked (mkColumnList its' _ _ _)); [|exact Hu|].
  2:{ apply Forall_forall. intros it Hit Hcontra.
      assert (Hin : data it ∈ data <$> unsel).
      { rewrite <- Hd'. apply list_elem_of_fmap. by exists it. }
      apply list_elem_of_fmap in Hin as (it0 & E & Hin0).
      pose proof Hin0 as Hin1.
      apply list_elem_of_filter in Hin0 as [Hk0 Hit0]. apply Hk0.
      unfold kept. rewrite <- E, Hcontra. by rewrite orb_true_r. }
  rewrite app_nil_r.
  (* the kept ones come back as they were *)
  apply get_data_kept; try done.
  - intros c wd Hin. apply dict_of_pairs_functional; [|done].
    intros v1 v2 H1%get_data_width H2%get_data_width. congruence.
  - intros c (it & Hit & ->)%get_data_names.
    destruct (Hstr it Hit) as (_ & E & _). by rewrite !E.
Qed.

End ColumnListTheory.

(** ** The sort list *)

Lemma fmap_perm_inv {A B} (f : A → B) (l1 : list B) (l2 : list A) :
  l1 ≡ₚ f <$> l2 → ∃ l3, l1 = f <$> l3 ∧ l2 ≡ₚ l3.
Proof.
  intros H.
  destruct (Permutation_map_inv f l2 H) as (l3 & E & Hp).
  exists l3. split; [exact E | done].
Qed.

Module SortListTheory.
Import SortList.

Lemma parse_sort_data g c a :
  column_name_ok g c →
  split "|" (strip (sort_data (c, a))) = [c; str a].
Proof.
  intros (_ & Hs & Hb). unfold sort_data. cbn [fst snd].
  rewrite (strip_app_bar c (str a) Hs (str_not_space a) (str_not_empty a)).
  rewrite (split_app_bar c (str a) Hb).
  by rewrite (split_no_bar _ (str_not_bar a)).
Qed.

Lemma sort_populate_column_ok g c a b :
  is_Some (headers g !! c) →
  ∃ it, populate_column g c a b = Ok it ∧ data it = sort_data (c, a) ∧
        checkState it = check_of_bool b.
Proof.
  intros [h Hh]. unfold populate_column, getitem. rewrite Hh. cbn [bind].
  eexists. split; [reflexivity|]. done.
Qed.

Lemma sort_populate_stored_ok g cols rem :
  Forall (column_name_ok g) rem →
  ∃ its found rest,
    populate_stored g cols rem = Ok (its, rest) ∧
    data <$> its = sort_data <$> found ∧
    found.*1 ++ rest ≡ₚ rem ∧
    Forall (λ it, checkState it = Checked) its ∧
    (∀ unsel, rem ≡ₚ cols.*1 ++ unsel → found = cols ∧ rest ≡ₚ unsel).
Proof.
  revert rem. induction cols as [|[c a] cols IH]; intros rem Hrem.
  - exists [], [], rem. cbn.
    split; [done|]. split; [done|]. split; [done|]. split; [done|].
    by intros unsel ->.
  - cbn [populate_stored]. case_bool_decide as Hin.
    + assert (Hc : column_name_ok g c) by (by eapply Forall_forall in Hrem).
      destruct (sort_populate_column_ok g c a true (proj1 Hc)) as (it & Hit & Hdata & Hchk).
      rewrite Hit. cbn [bind].
      pose proof (remove_first_perm c rem Hin) as Hperm.
      assert (Hrem' : Forall (column_name_ok g) (list_remove_first c rem)).
      { rewrite <- Hperm in Hrem. by apply Forall_cons in Hrem as [_ ?]. }
      destruct (IH _ Hrem') as (its & found & rest & Hrun & Hd & Hp & Hk & Hexact).
      rewrite Hrun. cbn [bind].
      exists (it :: its), ((c, a) :: found), rest. split; [done|].
      split. { cbn. by rewrite Hdata, Hd. }
      split. { cbn. by rewrite Hp. }
      split. { by constructor. }
      intros unsel Hu. cbn [fmap list_fmap fst] in Hu.
      rewrite <- Hperm in Hu. cbn in Hu. apply Permutation_cons_inv in Hu.
      destruct (Hexact _ Hu) as [E1 E2]. by rewrite E1.
    + destruct (IH _ Hrem) as (its & found & rest & Hrun & Hd & Hp & Hk & Hexact).
      exists its, found, rest.
      split; [done|]. split; [done|]. split; [done|]. split; [done|].
      intros unsel Hu. exfalso. apply Hin. rewrite Hu.
      apply elem_of_app. left. apply elem_of_cons. by left.
Qed.

Lemma sort_populate_rest_ok g rest :
  Forall (column_name_ok g) rest →
  ∃ its, mapM (fun col => populate_column g col 0 false) rest = Ok its ∧
         data <$> its = sort_data <$> ((λ c, (c, 0)) <$> rest) ∧
         Forall (λ it, checkState it = Unchecked) its.
Proof.
  induction 1 as [|c rest Hc _ (its & Hrun & Hd & Hu)].
  - by exists [].
  - destruct (sort_populate_column_ok g c 0 false (proj1 Hc)) as (it & Hit & Hdata & Hchk).
    cbn [mapM]. rewrite Hit. cbn [bind]. rewrite Hrun. cbn [bind].
    exists (it :: its). split; [done|].
    split. { cbn. by rewrite Hdata, Hd. }
    by constructor.
Qed.

Lemma sort_populate_ok g cols all w :
  columns_ok g all →
  ∃ its its',
    populate g cols all w =
      Ok (mkColumnList (its ++ its') (-1) (saved_column_widths w)
                       (all_columns_with_widths w)) ∧
    sort_list_ok all (mkColumnList (its ++ its') (-1) (saved_column_widths w)
                                   (all_columns_with_widths w)) ∧
    Forall (λ it, checkState it = Checked) its ∧
    Forall (λ it, checkState it = Unchecked) its' ∧
    (∀ unsel, all.*1 ≡ₚ cols.*1 ++ unsel → data <$> its = sort_data <$> cols).
Proof.
  intros Hall. unfold populate.
  destruct (sort_populate_stored_ok g cols all.*1 Hall)
    as (its & found & rest & Hrun & Hd & Hp & Hk & Hexact).
  rewrite Hrun. cbn [bind].
  assert (Hrest : Forall (column_name_ok g) rest).
  { unfold columns_ok in Hall. rewrite <- Hp in Hall.
    by apply Forall_app in Hall as [_ ?]. }
  destruct (sort_populate_rest_ok g rest Hrest) as (its' & Hrun' & Hd' & Hu').
  rewrite Hrun'. cbn [bind].
  exists its, its'. split; [done|]. split; [|split; [done|split; [done|]]].
  - exists (found ++ ((λ c, (c, 0)) <$> rest)). cbn [cl_items]. split.
    + by rewrite !fmap_app, Hd, Hd'.
    + rewrite fmap_app, <- list_fmap_compose.
      replace ((fst ∘ λ c : string, (c, 0)) <$> rest) with rest; [done|].
      clear. induction rest as [|c rest IH]; cbn; [done|]. by rewrite <- IH.
  - intros unsel Hu. destruct (Hexact _ Hu) as [-> _]. done.
Qed.

(** *** Reading it back *)

Lemma get_data_items_app l1 l2 :
  get_data_items (l1 ++ l2) =
  (a ← get_data_items l1 ; b ← get_data_items l2 ; Ok (a ++ b)).
Proof.
  induction l1 as [|it l1 IH]; cbn [app get_data_items].
  - cbn [bind]. by destruct (get_data_items l2).
  - destruct (is_checked (checkState it)); [|exact IH].
    destruct (index (split "|" (strip (data it))) 0); [|done]. cbn [bind].
    destruct (index (split "|" (strip (data it))) 1); [|done]. cbn [bind].
    destruct (int _); [|done]. cbn [bind]. rewrite IH.
    destruct (get_data_items l1); [|done]. cbn [bind].
    by destruct (get_data_items l2).
Qed.

Lemma get_data_items_unchecked l :
  Forall (λ it, checkState it = Unchecked) l → get_data_items l = Ok [].
Proof.
  induction 1 as [|it l Hu _ IH]; [done|].
  cbn [get_data_items]. by rewrite Hu.
Qed.

Lemma get_data_item g c a it l :
  column_name_ok g c → data it = sort_data (c, a) →
  get_data_items (it :: l) =
  if is_checked (checkState it)
  then (cols ← get_data_items l ; Ok ((c, a) :: cols))
  else get_data_items l.
Proof.
  intros Hc Hd. cbn [get_data_items]. destruct (is_checked (checkState it)); [|done].
  rewrite Hd, (parse_sort_data g c a Hc). cbn [index lookup list_lookup bind].
  by rewrite int_str.
Qed.

Lemma get_data_items_checked g its cas :
  data <$> its = sort_data <$> cas →
  Forall (column_name_ok g) cas.*1 →
  Forall (λ it, checkState it = Checked) its →
  get_data_items its = Ok cas.
Proof.
  revert its. induction cas as [|[c a] cas IH]; intros its Hd Hn Hk.
  - by destruct its.
  - destruct its as [|it its]; [done|]. cbn in Hd. injection Hd as Hd1 Hd2.
    apply Forall_cons in Hn as [Hn1 Hn2]. apply Forall_cons in Hk as [Hk1 Hk2].
    rewrite (get_data_item g c a it its Hn1 Hd1), Hk1. cbn [is_checked].
    by rewrite (IH its Hd2 Hn2 Hk2).
Qed.

(** On a well-formed sort list [get_data] succeeds, and what it returns
    is part of what the list shows. *)
Lemma get_data_items_ok g its cas :
  data <$> its = sort_data <$> cas →
  Forall (column_name_ok g) cas.*1 →
  ∃ L U, get_data_items its = Ok L ∧ cas ≡ₚ L ++ U.
Proof.
  revert its. induction cas as [|[c a] cas IH]; intros its Hd Hn.
  - destruct its; [|done]. by exists [], [].
  - destruct its as [|it its]; [done|]. cbn in Hd. injection Hd as Hd1 Hd2.
    apply Forall_cons in Hn as [Hn1 Hn2].
    destruct (IH its Hd2 Hn2) as (L & U & Hrun & Hp).
    rewrite (get_data_item g c a it its Hn1 Hd1), Hrun. cbn [bind].
    destruct (is_checked (checkState it)).
    + exists ((c, a) :: L), U. split; [done|]. cbn. by rewrite Hp.
    + exists L, ((c, a) :: U). split; [done|].
      rewrite Hp. apply Permutation_middle.
Qed.

Lemma get_data_ok g all w :
  columns_ok g all → sort_list_ok all w →
  ∃ L U, get_data w = Ok L ∧ all.*1 ≡ₚ L.*1 ++ U.
Proof.
  intros Hall (cas & Hd & Hp).
  assert (Hn : Forall (column_name_ok g) cas.*1) by (by rewrite Hp).
  destruct (get_data_items_ok g _ _ Hd Hn) as (L & U & Hrun & HLU).
  exists L, U.*1. split; [exact Hrun|].
  by rewrite <- Hp, HLU, fmap_app.
Qed.

(** Populating from what [get_data] returned, and reading back. *)
Lemma sort_get_data_populate g all w w0 L :
  columns_ok g all → sort_list_ok all w → get_data w = Ok L →
  ∃ w', populate g L all w0 = Ok w' ∧ sort_list_ok all w' ∧ get_data w' = Ok L.
Proof.
  intros Hall Hok HL.
  destruct (get_data_ok g all w Hall Hok) as (L' & U & HL' & Hsplit).
  assert (L' = L) as -> by congruence.
  destruct (sort_populate_ok g L all w0 Hall) as (its & its' & Hrun & Hok' & Hk & Hu & Hexact).
  eexists. split; [exact Hrun|]. split; [exact Hok'|].
  unfold get_data. cbn [cl_items]. rewrite get_data_items_app.
  rewrite (get_data_items_checked g its L (Hexact _ Hsplit)); [|  | exact Hk].
  - cbn [bind]. rewrite (get_data_items_unchecked _ Hu). cbn [bind].
    by rewrite app_nil_r.
  - unfold columns_ok in Hall. rewrite Hsplit in Hall.
    by apply Forall_app in Hall as [? _].
Qed.

End SortListTheory.

(** ** What the user does to a list *)

Lemma move_item_perm idx to l : move_item idx to l ≡ₚ l.
Proof.
  unfold move_item. destruct (idx <? 0); [done|].
  destruct (l !! Z.to_nat idx) as [it|] eqn:E; [|done].
  rewrite <- Permutation_middle, take_drop.
  symmetry. by apply delete_Permutation.
Qed.

Lemma list_step_items a w :
  cl_items (list_step a w) ≡ₚ cl_items w ∨
  ∃ row it, a = Tick row ∧ cl_items w !! row = Some it ∧ userCheckable it = true ∧
            cl_items (list_step a w) =
              <[row := mkItem (text it) (data it) true (toggled (checkState it))]>
                (cl_items w).
Proof.
  destruct a as [row|row| |]; cbn [list_step].
  - unfold tick. destruct (cl_items w !! row) as [it|] eqn:E; [|by left].
    destruct (userCheckable it) eqn:Hu; [|by left].
    right. exists row, it. done.
  - by left.
  - left. unfold move_column_up. destruct (0 <? cl_currentRow w); [|done].
    apply move_item_perm.
  - left. unfold move_column_down. destruct (_ <? _); [|done].
    apply move_item_perm.
Qed.

Lemma list_step_frame a w :
  saved_column_widths (list_step a w) = saved_column_widths w ∧
  all_columns_with_widths (list_step a w) = all_columns_with_widths w.
Proof.
  destruct a as [row|row| |]; cbn [list_step]; [|done| |].
  - unfold tick. destruct (cl_items w !! row) as [it|]; [|done].
    by destruct (userCheckable it).
  - unfold move_column_up. by destruct (0 <? cl_currentRow w).
  - unfold move_column_down. by destruct (_ <? _).
Qed.

Lemma list_step_data a w :
  data <$> cl_items (list_step a w) ≡ₚ data <$> cl_items w.
Proof.
  destruct (list_step_items a w) as [Hp|(row & it & _ & Hl & _ & ->)].
  - by rewrite Hp.
  - rewrite list_fmap_insert. cbn [data].
    rewrite list_insert_id; [done|]. by rewrite list_lookup_fmap, Hl.
Qed.

Lemma list_step_columns_ok all a w :
  columns_list_ok all w → columns_list_ok all (list_step a w).
Proof.
  intros (Hp & Hall & Hi). destruct (list_step_frame a w) as [_ Hf].
  split; [by rewrite list_step_data|]. split; [congruence|].
  destruct (list_step_items a w) as [Hperm|(row & it & _ & Hl & Hu & ->)].
  - by rewrite Hperm.
  - apply Forall_insert; [done|]. cbn. intros Hd.
    eapply Forall_lookup_1 in Hi; [|exact Hl].
    destruct (Hi Hd). congruence.
Qed.

Lemma list_step_sort_ok all a w :
  sort_list_ok all w → sort_list_ok all (list_step a w).
Proof.
  intros (cas & Hd & Hp).
  destruct (list_step_items a w) as [Hperm|(row & it & _ & Hl & Hu & E)].
  - assert (H : data <$> cl_items (list_step a w) ≡ₚ sort_data <$> cas)
      by (by rewrite Hperm, Hd).
    apply fmap_perm_inv in H as (cas' & E & Hp').
    exists cas'. split; [exact E|]. by rewrite <- Hp', Hp.
  - exists cas. split; [|done]. rewrite E, list_fmap_insert. cbn [data].
    rewrite list_insert_id; [done|]. by rewrite list_lookup_fmap, Hl.
Qed.

Lemma change_sort_ok g all asc w :
  columns_ok g all → sort_list_ok all w →
  ∃ w', SortList.change_sort asc w = Ok w' ∧ sort_list_ok all w'.
Proof.
  intros Hall (cas & Hd & Hp). unfold SortList.change_sort.
  destruct (cl_currentRow w <? 0); [exists w; split; [done|by exists cas]|].
  destruct (cl_items w !! Z.to_nat (cl_currentRow w)) as [it|] eqn:E;
    [|exists w; split; [done|by exists cas]].
  assert (Hit : (data <$> cl_items w) !! Z.to_nat (cl_currentRow w) = Some (data it))
    by (by rewrite list_lookup_fmap, E).
  rewrite Hd, list_lookup_fmap in Hit.
  destruct (cas !! Z.to_nat (cl_currentRow w)) as [[c a]|] eqn:Ec; [|done].
  injection Hit as Hit.
  assert (Hc : column_name_ok g c).
  { unfold columns_ok in Hall. rewrite <- Hp in Hall.
    eapply Forall_forall in Hall; [exact Hall|].
    apply list_elem_of_fmap. exists (c, a). split; [done|].
    by eapply list_elem_of_lookup_2. }
  rewrite <- Hit, (SortListTheory.parse_sort_data g c a Hc).
  cbn [index lookup list_lookup bind].
  eexists. split; [reflexivity|].
  exists (<[Z.to_nat (cl_currentRow w) := (c, asc)]> cas). cbn [cl_items]. split.
  - by rewrite !list_fmap_insert, Hd.
  - rewrite list_fmap_insert. cbn [fst].
    rewrite list_insert_id; [done|]. by rewrite list_lookup_fmap, Ec.
Qed.

(** ** The clash test *)

Lemma clashes_spec skip name vs :
  clashes skip name vs = true ↔ collides skip name vs.
Proof.
  unfold clashes, collides. rewrite existsb_exists. split.
  - intros (k & Hin & [Hs He]%andb_prop).
    apply list_elem_of_In, list_elem_of_fmap in Hin as ([k' v] & -> & Hin).
    apply elem_of_map_to_list in Hin. exists k'. cbn in *.
    split; [eauto|]. split.
    + apply negb_true_iff in Hs. by apply bool_decide_eq_false in Hs.
    + by apply String.eqb_eq.
  - intros (k & [v Hv] & Hs & He). exists k. split.
    + apply list_elem_of_In, list_elem_of_fmap. exists (k, v).
      split; [done|]. by apply elem_of_map_to_list.
    + apply andb_true_intro. split.
      * apply negb_true_iff. by apply bool_decide_eq_false.
      * by apply String.eqb_eq.
Qed.

(** ** Filling the form *)

Lemma Inv_Pre st : Inv st → Pre st.
Proof. intros []. by constructor. Qed.

(** The name the view combo box shows is the name of a stored view. *)
Lemma name_is_key st v :
  keys_stripped (views st) →
  (∀ t, t ∈ items (vc_combo (select_view_combo st)) ↔ is_Some (views st !! t)) →
  name_of_combo (vc_combo (select_view_combo st)) = Some v →
  truthy v = true →
  is_Some (views st !! v) ∧ currentText (vc_combo (select_view_combo st)) = v.
Proof.
  intros Hkeys Hsel Hname Hv. unfold name_of_combo in Hname.
  destruct (count _ =? 0); [done|]. injection Hname as <-.
  destruct (currentText_elem (vc_combo (select_view_combo st))) as [E|Hin].
  - by rewrite E in Hv.
  - apply Hsel in Hin. by rewrite (Hkeys _ Hin).
Qed.

Lemma populate_empty g w :
  ColumnList.populate g [] [] w = Ok (mkColumnList [] (-1) ∅ []).
Proof. done. Qed.

Lemma sort_populate_empty g w :
  SortList.populate g [] [] w =
  Ok (mkColumnList [] (-1) (saved_column_widths w) (all_columns_with_widths w)).
Proof. done. Qed.

(** [select_view_combo_index_changed(save_previous=False)], unfolded for
    a view that exists. *)
Lemma select_existing st v info cl sl :
  name_of_combo (vc_combo (select_view_combo st)) = Some v →
  truthy v = true →
  views st !! v = Some info →
  ColumnList.populate (gui st) (columns info) (all_columns st) (columns_list st) = Ok cl →
  SortList.populate (gui st) (sort info) (all_columns st) (sort_list st) = Ok sl →
  select_view_combo_index_changed false st =
  Ok (mkConfig (gui st) (views st) (all_columns st) (Some v)
               (select_view_combo st) cl sl
               (check_of_bool (applySearch info))
               (select_value (searchToApply info) (saved_search_combo st))
               (check_of_bool (applyRestriction info))
               (select_value (restrictionToApply info) (search_restriction_combo st))
               (auto_apply_checkbox st) (auto_view_combo st)).
Proof.
  intros Hname Hv Hinfo Hcl Hsl.
  unfold select_view_combo_index_changed. cbn [bind].
  unfold name_of_combo in Hname.
  destruct (count _ =? 0); [done|]. injection Hname as Hname.
  rewrite Hname. cbn [truthy_opt default from_option id]. rewrite Hv.
  unfold getitem. rewrite Hinfo. cbn [bind].
  rewrite Hcl. cbn [bind]. rewrite Hsl. reflexivity.
Qed.

(** The same, when the combo box shows no view or the view without a
    name. *)
Lemma select_none st :
  truthy_opt (name_of_combo (vc_combo (select_view_combo st))) = false →
  select_view_combo_index_changed false st =
  Ok (mkConfig (gui st) (views st) (all_columns st)
               (name_of_combo (vc_combo (select_view_combo st)))
               (select_view_combo st)
               (mkColumnList [] (-1) ∅ [])
               (mkColumnList [] (-1) (saved_column_widths (sort_list st))
                             (all_columns_with_widths (sort_list st)))
               Unchecked (select_value EmptyString (saved_search_combo st))
               Unchecked (select_value EmptyString (search_restriction_combo st))
               (auto_apply_checkbox st) (auto_view_combo st)).
Proof.
  intros Hname. unfold select_view_combo_index_changed. cbn [bind].
  unfold name_of_combo in *.
  destruct (count _ =? 0); cbn [truthy_opt] in *; [done|].
  rewrite Hname. done.
Qed.

Lemma select_false_spec st :
  Pre st →
  ∃ st', select_view_combo_index_changed false st = Ok st' ∧
         Inv st' ∧ same_frame st st'.
Proof.
  intros [Hcols Hkeys Huniq Hsel Hspec Hs Hr].
  destruct (truthy_opt (name_of_combo (vc_combo (select_view_combo st)))) eqn:Hn.
  - destruct (name_of_combo _) as [v|] eqn:Hname; [|done]. cbn in Hn.
    destruct (name_is_key st v Hkeys Hsel Hname Hn) as [[info Hinfo] _].
    destruct (ColumnListTheory.populate_ok (gui st) (columns info) (all_columns st)
                (columns_list st) Hcols) as (its & its' & Hcl & Hclok & _).
    destruct (SortListTheory.sort_populate_ok (gui st) (sort info) (all_columns st)
                (sort_list st) Hcols) as (sits & sits' & Hsl & Hslok & _).
    eexists. split; [exact (select_existing st v info _ _ Hname Hn Hinfo Hcl Hsl)|].
    split; [|done].
    constructor; cbn; try done; by apply select_value_ok.
  - eexists. split; [exact (select_none st Hn)|]. split; [|done].
    constructor; cbn -[select_value]; try done;
      try (by apply select_value_ok).
    by rewrite Hn.
Qed.

(** ** Persisting the form *)

Lemma same_keys_insert vs k info :
  is_Some (vs !! k) → same_keys vs (<[k := info]> vs).
Proof.
  intros Hk k'. destruct (decide (k = k')) as [->|Hne].
  - rewrite lookup_insert_eq. split; eauto.
  - by rewrite lookup_insert_ne.
Qed.

Lemma persist_none st :
  truthy_opt (view_name st) = false → persist_view_config st = Ok st.
Proof.
  unfold persist_view_config. destruct (view_name st) as [v|]; [|done].
  cbn. by intros ->.
Qed.

Lemma persist_some st v old sorts :
  view_name st = Some v → truthy v = true →
  views st !! v = Some old →
  SortList.get_data (sort_list st) = Ok sorts →
  ∃ info, form_selection st = Ok info ∧
          persist_view_config st = Ok (set_views (<[v := info]> (views st)) st) ∧
          columns info = ColumnList.get_data (columns_list st) ∧
          sort info = sorts ∧
          filters_consistent info.
Proof.
  intros Hname Hv Hold Hs.
  unfold persist_view_config, form_selection, getitem.
  rewrite Hname, Hv, Hold, Hs. cbn [bind].
  eexists. split; [reflexivity|]. split; [reflexivity|].
  cbn. split; [done|]. split; [done|].
  unfold filters_consistent. cbn. split; intros H; by rewrite H.
Qed.

(** [persist_view_config] succeeds on a form whose view exists and whose
    sort list is well formed; it changes the stored definition of that
    view and nothing else. *)
Lemma persist_ok st :
  columns_ok (gui st) (all_columns st) →
  (∀ v, view_name st = Some v → truthy v = true →
        is_Some (views st !! v) ∧ sort_list_ok (all_columns st) (sort_list st)) →
  ∃ vs1, persist_view_config st = Ok (set_views vs1 st) ∧ same_keys (views st) vs1.
Proof.
  intros Hcols Hv.
  destruct (truthy_opt (view_name st)) eqn:Ht.
  - destruct (view_name st) as [v|] eqn:Hname; [|done]. cbn in Ht.
    destruct (Hv v eq_refl Ht) as [[old Hold] Hsort].
    destruct (SortListTheory.get_data_ok _ _ _ Hcols Hsort) as (L & U & HL & _).
    destruct (persist_some st v old L Hname Ht Hold HL) as (info & _ & Hrun & _).
    eexists. split; [exact Hrun|]. apply same_keys_insert. eauto.
  - exists (views st). rewrite (persist_none st Ht). split; [|done].
    by destruct st.
Qed.

Lemma Inv_view_exists st v :
  Inv st → view_name st = Some v → truthy v = true →
  is_Some (views st !! v) ∧ currentText (vc_combo (select_view_combo st)) = v.
Proof.
  intros HI Hname Hv. apply name_is_key; try done; try apply HI.
  by rewrite <- (inv_name st HI).
Qed.

Lemma Inv_persist_ok st :
  Inv st →
  ∃ vs1, persist_view_config st = Ok (set_views vs1 st) ∧ same_keys (views st) vs1.
Proof.
  intros HI. apply persist_ok; [apply HI|].
  intros v Hname Hv. split; [by apply (Inv_view_exists st v)|].
  apply (inv_lists st HI). by rewrite Hname.
Qed.

Lemma same_keys_stripped vs vs' :
  same_keys vs vs' → keys_stripped vs → keys_stripped vs'.
Proof. intros Hk H k Hin. apply H. by apply Hk. Qed.

Lemma same_keys_unique vs vs' :
  same_keys vs vs' → unique_ci vs → unique_ci vs'.
Proof. intros Hk H k1 k2 H1 H2. apply H; by apply Hk. Qed.

Lemma Inv_set_views st vs1 :
  Inv st → same_keys (views st) vs1 → Inv (set_views vs1 st).
Proof.
  intros [] Hk. constructor; cbn; try done.
  - by eapply same_keys_stripped.
  - by eapply same_keys_unique.
  - intros t. rewrite (Hk t). apply inv_select0.
Qed.

Lemma Inv_set_form st cl sl asc ssc arc src aac avc :
  Inv st →
  (truthy_opt (view_name st) = true →
   columns_list_ok (all_columns st) cl ∧ sort_list_ok (all_columns st) sl) →
  search_combo_ok ssc → search_combo_ok src →
  special avc = true →
  Inv (set_form cl sl asc ssc arc src aac avc st).
Proof.
  intros [] Hl Hs Hr Ha. constructor; cbn; try done.
  split; [|done]. by destruct inv_special0.
Qed.

Lemma search_choose_ok i c :
  search_combo_ok c →
  search_combo_ok (if (0 <=? i) && (i <? count c) then setCurrentIndex i c else c).
Proof. by destruct (_ && _). Qed.

(** ** Adding, renaming and deleting a view *)

Lemma collides_same_keys skip name vs vs' :
  same_keys vs vs' → collides skip name vs' → collides skip name vs.
Proof. intros Hk (k & H1 & H2). exists k. split; [by apply Hk | done]. Qed.

Lemma unique_insert vs new info :
  unique_ci vs → ¬ collides None new vs → unique_ci (<[new := info]> vs).
Proof.
  intros Hu Hc k1 k2 H1 H2 Hl.
  destruct (decide (new = k1)) as [E1|N1]; destruct (decide (new = k2)) as [E2|N2];
    [congruence| | |].
  - rewrite lookup_insert_ne in H2 by done. subst k1.
    exfalso. apply Hc. exists k2. done.
  - rewrite lookup_insert_ne in H1 by done. subst k2.
    exfalso. apply Hc. exists k1. done.
  - rewrite lookup_insert_ne in H1, H2 by done. by apply Hu.
Qed.

Lemma unique_delete vs k : unique_ci vs → unique_ci (delete k vs).
Proof.
  intros Hu k1 k2 H1 H2. apply Hu.
  - destruct (decide (k = k1)) as [->|?];
      [by rewrite lookup_delete_eq in H1 | by rewrite lookup_delete_ne in H1].
  - destruct (decide (k = k2)) as [->|?];
      [by rewrite lookup_delete_eq in H2 | by rewrite lookup_delete_ne in H2].
Qed.

Lemma unique_rename vs old new info :
  unique_ci vs → ¬ collides (Some old) new vs →
  unique_ci (<[new := info]> (delete old vs)).
Proof.
  intros Hu Hc. apply unique_insert; [by apply unique_delete|].
  intros (k & Hk & _ & Hl). apply Hc. exists k.
  destruct (decide (old = k)) as [->|Hne].
  - by rewrite lookup_delete_eq in Hk.
  - rewrite lookup_delete_ne in Hk by done. split; [done|]. split; [congruence|done].
Qed.

Lemma keys_stripped_insert vs text info :
  keys_stripped vs → keys_stripped (<[strip text := info]> vs).
Proof.
  intros Hk k Hin. destruct (decide (strip text = k)) as [<-|Hne].
  - apply strip_idem.
  - rewrite lookup_insert_ne in Hin by done. by apply Hk.
Qed.

Lemma keys_stripped_delete vs k : keys_stripped vs → keys_stripped (delete k vs).
Proof.
  intros Hk k' Hin. apply Hk. destruct (decide (k = k')) as [->|?];
    [by rewrite lookup_delete_eq in Hin | by rewrite lookup_delete_ne in Hin].
Qed.

Lemma populate_combo_select (vs : gmap string view_info) sel c :
  special c = false →
  ∀ t, t ∈ items (vc_combo (populate_combo vs sel c)) ↔ is_Some (vs !! t).
Proof.
  intros Hs t. rewrite populate_combo_items, Hs. cbn [app].
  apply sorted_keys_elem.
Qed.

(** The state every view operation builds before it refills the form:
    new mapping, view combo box rebuilt from it. *)
Lemma Pre_rebuilt st vs sel name :
  Inv st → keys_stripped vs → unique_ci vs →
  Pre (mkConfig (gui st) vs (all_columns st) name
                (populate_combo vs sel (select_view_combo st))
                (columns_list st) (sort_list st) (apply_search_checkbox st)
                (saved_search_combo st) (apply_restriction_checkbox st)
                (search_restriction_combo st) (auto_apply_checkbox st)
                (auto_view_combo st)).
Proof.
  intros [] Hk Hu. destruct inv_special0 as [Hs1 Hs2].
  constructor; cbn -[populate_combo]; try done.
  exact (populate_combo_select vs sel _ Hs1).
Qed.

(** Rebuilding the auto-apply combo box keeps the invariant. *)
Lemma Inv_set_auto st2 avc :
  Inv st2 → special avc = true →
  Inv (mkConfig (gui st2) (views st2) (all_columns st2) (view_name st2)
                (select_view_combo st2) (columns_list st2) (sort_list st2)
                (apply_search_checkbox st2) (saved_search_combo st2)
                (apply_restriction_checkbox st2)
                (search_restriction_combo st2) (auto_apply_checkbox st2)
                avc).
Proof. intros HI Ha. apply (Inv_set_form st2); try apply HI. exact Ha. Qed.

Lemma Inv_special_auto st : Inv st → special (auto_view_combo st) = true.
Proof. intros HI. apply (inv_special st HI). Qed.

Lemma add_view_Inv text ok st st' o :
  Inv st → add_view text ok st = Ok (st', o) → Inv st'.
Proof.
  intros HI Hrun. unfold add_view in Hrun.
  destruct ok; cbn [negb] in Hrun; [|by injection Hrun as <- <-].
  destruct (clashes None (strip text) (views st)) eqn:Hc;
    [by injection Hrun as <- <-|].
  destruct (Inv_persist_ok st HI) as (vs1 & Hp & Hk).
  rewrite Hp in Hrun. cbn [bind] in Hrun.
  match type of Hrun with
  | bind ?m _ = _ => destruct m as [view_info|e] eqn:Hvi; [|done]
  end.
  cbn [bind] in Hrun. cbn [set_views gui views all_columns view_name
    select_view_combo columns_list sort_list apply_search_checkbox
    saved_search_combo apply_restriction_checkbox search_restriction_combo
    auto_apply_checkbox auto_view_combo] in Hrun.
  match type of Hrun with
  | bind (select_view_combo_index_changed false ?s) _ = _ =>
      assert (HP : Pre s)
  end.
  { apply (Pre_rebuilt st); [done| |].
    - apply keys_stripped_insert. eapply same_keys_stripped; [done|]. apply HI.
    - apply unique_insert.
      + eapply same_keys_unique; [done|]. apply HI.
      + intros Hcol%(collides_same_keys _ _ _ _ Hk)%clashes_spec. congruence. }
  destruct (select_false_spec _ HP) as (st2 & Hsel & HI2 & _).
  rewrite Hsel in Hrun. cbn [bind] in Hrun. injection Hrun as <- <-.
  apply Inv_set_auto; [done|]. by apply Inv_special_auto.
Qed.

Lemma rename_view_Inv text ok st st' o :
  Inv st → rename_view text ok st = Ok (st', o) → Inv st'.
Proof.
  intros HI Hrun. unfold rename_view in Hrun.
  destruct (truthy_opt (view_name st)) eqn:Ht; cbn [negb] in Hrun;
    [|by injection Hrun as <- <-].
  destruct ok; cbn [negb] in Hrun; [|by injection Hrun as <- <-].
  destruct (String.eqb (strip text) _); [by injection Hrun as <- <-|].
  destruct (clashes _ (strip text) (views st)) eqn:Hc;
    [by injection Hrun as <- <-|].
  destruct (Inv_persist_ok st HI) as (vs1 & Hp & Hk).
  rewrite Hp in Hrun. cbn [bind] in Hrun.
  match type of Hrun with
  | bind ?m _ = _ => destruct m as [view_info|e] eqn:Hvi; [|done]
  end.
  cbn [bind] in Hrun. cbn [set_views gui views all_columns view_name
    select_view_combo columns_list sort_list apply_search_checkbox
    saved_search_combo apply_restriction_checkbox search_restriction_combo
    auto_apply_checkbox auto_view_combo] in Hrun.
  match type of Hrun with
  | bind (select_view_combo_index_changed false ?s) _ = _ =>
      assert (HP : Pre s)
  end.
  { apply (Pre_rebuilt st); [done| |].
    - apply keys_stripped_insert, keys_stripped_delete.
      eapply same_keys_stripped; [done|]. apply HI.
    - apply unique_rename.
      + eapply same_keys_unique; [done|]. apply HI.
      + intros Hcol%(collides_same_keys _ _ _ _ Hk)%clashes_spec. congruence. }
  destruct (select_false_spec _ HP) as (st2 & Hsel & HI2 & _).
  rewrite Hsel in Hrun. cbn [bind] in Hrun. injection Hrun as <- <-.
  apply Inv_set_auto; [done|].
  destruct (String.eqb _ _); by apply Inv_special_auto.
Qed.

(** [delete_view], confirmed, on a view with a name: the view leaves the
    mapping, both combo boxes are rebuilt from what remains, and the form
    is refilled. *)
Lemma delete_view_spec st v :
  Inv st → view_name st = Some v → truthy v = true →
  ∃ st', delete_view true st = Ok st' ∧ Inv st' ∧
         views st' = delete v (views st) ∧
         select_view_combo st' =
           populate_combo (delete v (views st)) None (select_view_combo st) ∧
         auto_view_combo st' =
           populate_combo (delete v (views st)) None (auto_view_combo st).
Proof.
  intros HI Hname Hv. unfold delete_view, getitem.
  rewrite Hname. cbn [truthy_opt negb default from_option id]. rewrite Hv. cbn [negb].
  destruct (Inv_view_exists st v HI Hname Hv) as [[info Hinfo] _].
  rewrite Hinfo. cbn [bind].
  match goal with
  | |- ∃ _, bind (select_view_combo_index_changed false ?s) _ = _ ∧ _ =>
      assert (HP : Pre s)
  end.
  { apply (Pre_rebuilt st); [done| |].
    - apply keys_stripped_delete, HI.
    - apply unique_delete, HI. }
  destruct (select_false_spec _ HP) as (st2 & Hsel & HI2 & Hfr).
  rewrite Hsel. cbn [bind]. eexists. split; [reflexivity|].
  destruct Hfr as (_ & Hvs & _ & Hsc & _ & Hac). cbn in Hvs, Hsc, Hac.
  split. { apply Inv_set_auto; [done|]. by apply Inv_special_auto. }
  cbn [views select_view_combo auto_view_combo]. by rewrite Hvs, Hsc, Hac.
Qed.

Lemma delete_view_Inv confirmed st st' :
  Inv st → delete_view confirmed st = Ok st' → Inv st'.
Proof.
  intros HI Hrun.
  destruct (truthy_opt (view_name st)) eqn:Ht.
  - destruct confirmed.
    + destruct (view_name st) as [v|] eqn:Hname; [|done]. cbn in Ht.
      destruct (delete_view_spec st v HI Hname Ht) as (st2 & Hrun2 & HI2 & _).
      congruence.
    + unfold delete_view in Hrun. rewrite Ht in Hrun. cbn in Hrun. congruence.
  - unfold delete_view in Hrun. rewrite Ht in Hrun. cbn in Hrun. congruence.
Qed.



(** ** Picking another view *)

Lemma select_true_unfold st :
  select_view_combo_index_changed true st =
  (st1 ← persist_view_config st ; select_view_combo_index_changed false st1).
Proof. reflexivity. Qed.

Lemma choose_view_Inv i st st' :
  Inv st → step (ChooseView i) st = Ok st' → Inv st'.
Proof.
  intros HI Hrun. cbn [step] in Hrun.
  destruct (_ && _); [|by injection Hrun as <-].
  rewrite select_true_unfold in Hrun.
  match type of Hrun with
  | bind (persist_view_config ?s) _ = _ =>
      destruct (persist_ok s) as (vs1 & Hp & Hk)
  end.
  { apply HI. }
  { cbn. intros v Hname Hv. split; [by apply (Inv_view_exists st v)|].
    apply (inv_lists st HI). by rewrite Hname. }
  rewrite Hp in Hrun. cbn [bind] in Hrun. cbn in Hk.
  match type of Hrun with
  | select_view_combo_index_changed false ?s = _ => assert (HP : Pre s)
  end.
  { destruct HI. constructor; cbn; try done.
    - by eapply same_keys_stripped.
    - by eapply same_keys_unique.
    - intros t. rewrite (Hk t). apply inv_select0. }
  destruct (select_false_spec _ HP) as (st2 & Hsel & HI2 & _). congruence.
Qed.

(** ** Opening the dialog *)

Lemma mapM_keyed (positions : gmap string Z) colmap keyed :
  mapM (fun x => p ← getitem positions x ; Ok (p, x)) colmap = Ok keyed →
  keyed.*2 = colmap.
Proof.
  revert keyed. induction colmap as [|x l IH]; intros keyed; cbn [mapM].
  - by intros [= <-].
  - destruct (getitem positions x); [|done]. cbn [bind].
    destruct (mapM _ l) as [ys|]; [|done]. cbn [bind]. intros [= <-].
    cbn. by rewrite (IH ys).
Qed.

Lemma sort_by_position_perm positions colmap l :
  sort_by_position positions colmap = Ok l → l ≡ₚ colmap.
Proof.
  unfold sort_by_position. destruct (_ <? _)%nat; [by intros [= <-]|].
  destruct (listsort_runs _ _ _ _) as [runs|]; [|done]. cbn [bind].
  destruct (mapM _ colmap) as [keyed|] eqn:E; [|done]. cbn [bind].
  intros [= <-]. rewrite sorted_perm. by rewrite (mapM_keyed _ _ _ E).
Qed.

Lemma get_current_columns_names g defaults visible_only cols c :
  get_current_columns g defaults visible_only = Ok cols →
  c ∈ cols.*1 → c ∈ column_map g.
Proof.
  unfold get_current_columns.
  destruct (sort_by_position _ _) as [l|] eqn:E; [|done]. cbn [bind].
  apply sort_by_position_perm in E. intros [= <-].
  rewrite <- list_fmap_compose.
  intros (x & -> & Hx)%list_elem_of_fmap.
  assert (Hc : (fst ∘ (λ col : string,
             if bool_decide (col ∈ hidden_columns (columns_state g defaults))
             then (col, -1)
             else (col, default (-1) (column_sizes (columns_state g defaults) !! col))))
             x = x).
  { cbn. by destruct (bool_decide _). }
  rewrite Hc, <- E.
  destruct visible_only; [|done]. by apply list_elem_of_filter in Hx as [_ ?].
Qed.

Lemma search_populate_combo_ok g :
  Forall (λ s, strip s = s) (saved_searches g) →
  search_combo_ok (search_populate_combo g).
Proof.
  intros Hs. unfold search_combo_ok, search_populate_combo.
  rewrite items_add_all. cbn [items addItem clear app]. split; [done|].
  constructor; [done|]. by rewrite sorted_perm.
Qed.

Lemma init_Inv g library st :
  host_ok g → library_ok library → init g library = Ok st → Inv st.
Proof.
  intros [Hcols Hss] (vs & Hvs & Hkeys & Huniq) Hrun.
  unfold init in Hrun. rewrite Hvs in Hrun. cbn [bind] in Hrun.
  destruct (get_current_columns g false false) as [all|] eqn:Hall; [|done].
  cbn [bind] in Hrun.
  match type of Hrun with
  | select_view_combo_index_changed false ?s = _ => assert (HP : Pre s)
  end.
  { pose proof (search_populate_combo_ok g Hss) as Hsearch.
    constructor; cbn -[search_populate_combo new_ViewComboBox]; try done.
    - apply Forall_forall. intros c Hc.
      eapply Forall_forall in Hcols; [exact Hcols|].
      by eapply get_current_columns_names.
    - intros t.
      assert (Hitems : ∀ t, t ∈ items (vc_combo (new_ViewComboBox vs false)) ↔
                            is_Some (vs !! t))
        by (by apply populate_combo_select).
      destruct (lib_lastView library) as [last|]; [|apply Hitems].
      destruct (bool_decide _); [|apply Hitems].
      rewrite items_select_view. apply Hitems.
    - split; [|done].
      destruct (lib_lastView library); [destruct (bool_decide _)|]; done. }
  destruct (select_false_spec _ HP) as (st2 & Hsel & HI2 & _). congruence.
Qed.

(** ** Every step keeps the invariant *)

Lemma step_Inv a st st' : Inv st → step a st = Ok st' → Inv st'.
Proof.
  intros HI Hrun. destruct a; try (by eapply choose_view_Inv);
    cbn [step] in Hrun.
  - destruct (add_view _ ok st) as [[st1 o]|] eqn:E; [|done].
    injection Hrun as <-. by eapply add_view_Inv.
  - destruct (rename_view _ ok st) as [[st1 o]|] eqn:E; [|done].
    injection Hrun as <-. by eapply rename_view_Inv.
  - by eapply delete_view_Inv.
  - injection Hrun as <-. apply Inv_set_form; try apply HI.
    intros Ht. destruct (inv_lists st HI Ht). split; [|done].
    by apply list_step_columns_ok.
  - injection Hrun as <-. apply Inv_set_form; try apply HI.
    intros Ht. destruct (inv_lists st HI Ht). split; [done|].
    by apply list_step_sort_ok.
  - destruct (SortList.item_selection_changed _); [|by injection Hrun as <-].
    destruct (SortList.change_sort 0 (sort_list st)) as [sl|] eqn:E; [|done].
    injection Hrun as <-. apply Inv_set_form; try apply HI.
    intros Ht. destruct (inv_lists st HI Ht) as [H1 H2]. split; [done|].
    destruct (change_sort_ok _ _ 0 _ (inv_columns st HI) H2) as (sl' & E' & Hok).
    congruence.
  - destruct (SortList.item_selection_changed _); [|by injection Hrun as <-].
    destruct (SortList.change_sort 1 (sort_list st)) as [sl|] eqn:E; [|done].
    injection Hrun as <-. apply Inv_set_form; try apply HI.
    intros Ht. destruct (inv_lists st HI Ht) as [H1 H2]. split; [done|].
    destruct (change_sort_ok _ _ 1 _ (inv_columns st HI) H2) as (sl' & E' & Hok).
    congruence.
  - injection Hrun as <-. apply Inv_set_form; apply HI.
  - injection Hrun as <-. apply Inv_set_form; try apply HI.
    apply search_choose_ok, HI.
  - injection Hrun as <-. apply Inv_set_form; apply HI.
  - injection Hrun as <-. apply Inv_set_form; try apply HI.
    apply search_choose_ok, HI.
  - injection Hrun as <-. apply Inv_set_form; apply HI.
  - injection Hrun as <-. apply Inv_set_form; apply HI.
Qed.

Lemma run_Inv acts st st' : Inv st → run acts st = Ok st' → Inv st'.
Proof.
  revert st. induction acts as [|a acts IH]; intros st HI; cbn [run].
  - by intros [= <-].
  - destruct (step a st) as [st1|] eqn:E; [|done]. cbn [bind].
    apply IH. by eapply step_Inv.
Qed.

Lemma reachable_Inv st : reachable st → Inv st.
Proof.
  intros (g & library & st0 & acts & Hg & Hl & Hinit & Hrun).
  eapply run_Inv; [|exact Hrun]. by eapply init_Inv.
Qed.

End DialogTheory.
(* ===================================================================== *)
(** * The dialog: the properties of the specification *)
(* ===================================================================== *)

Module DialogClaims.
Import Dialog PySpec PyTheory DialogSpec DialogTheory ExampleRun.

(** ** The example host *)

Lemma example_host_ok : host_ok example_gui.
Proof.
  split.
  - repeat constructor; try (by eexists); reflexivity.
  - repeat constructor.
Qed.

Lemma default_library_ok : library_ok default_library.
Proof.
  exists ∅. split; [done|]. split.
  - intros k [? H]. by rewrite lookup_empty in H.
  - intros k1 k2 [? H]. by rewrite lookup_empty in H.
Qed.

Lemma example_run_reachable acts st : example_run acts = Ok st → reachable st.
Proof.
  unfold example_run. destruct (init example_gui default_library) as [st0|] eqn:E;
    [|done].
  cbn [bind]. intros Hrun.
  exists example_gui, default_library, st0, acts.
  split; [apply example_host_ok|]. split; [apply default_library_ok|]. done.
Qed.

Lemma example_run_init acts st :
  example_run acts = Ok st →
  ∃ st0, init example_gui default_library = Ok st0 ∧ run acts st0 = Ok st.
Proof.
  unfold example_run.
  destruct (init example_gui default_library) as [st0|]; [|done].
  cbn [bind]. intros Hrun. by exists st0.
Qed.

(** What a run shows is read off its value. *)
Lemma read_off {A} (f : ConfigWidget → A) (d : A) acts st :
  example_run acts = Ok st →
  f st = match example_run acts with Ok s => f s | Raise _ => d end.
Proof. by intros ->. Qed.

(** ** C9 *)

(** C9. When [persist_view_config] runs for the view being edited, the
    definition it stores has the flags of the two check boxes, and a
    filter whose flag is off has the empty name. *)
Theorem persist_disabled_filter_has_no_name (st : ConfigWidget) (v : string)
    (old : view_info) (sorts : list (string * Z)) :
  view_name st = Some v → truthy v = true →
  views st !! v = Some old →
  SortList.get_data (sort_list st) = Ok sorts →
  ∃ st1 info,
    persist_view_config st = Ok st1 ∧
    views st1 !! v = Some info ∧
    applyRestriction info = is_checked (apply_restriction_checkbox st) ∧
    applySearch info = is_checked (apply_search_checkbox st) ∧
    (applyRestriction info = false → restrictionToApply info = EmptyString) ∧
    (applySearch info = false → searchToApply info = EmptyString).
Proof.
  intros Hname Hv Hold Hs.
  destruct (persist_some st v old sorts Hname Hv Hold Hs)
    as (info & Hform & Hrun & _ & _ & Hc1 & Hc2).
  exists (set_views (<[v := info]> (views st)) st), info.
  split; [exact Hrun|]. split; [cbn; apply lookup_insert_eq|].
  unfold form_selection in Hform. rewrite Hs in Hform. cbn [bind] in Hform.
  injection Hform as <-. cbn in *. done.
Qed.

Lemma persist_disabled_filter_has_no_name_witness :
  ∃ st, example_run [AddView "Default" true; ChooseSearch 1] = Ok st ∧
  ∃ st1 info,
    persist_view_config st = Ok st1 ∧
    views st1 !! "Default" = Some info ∧
    applySearch info = false ∧ searchToApply info = EmptyString.
Proof.
  destruct (example_run [AddView "Default" true; ChooseSearch 1]) as [st|] eqn:E;
    [|vm_compute in E; discriminate].
  exists st. split; [reflexivity|].
  vm_compute in E. injection E as <-.
  edestruct (persist_disabled_filter_has_no_name) as (st1 & info & Hrun & Hi & _ & Hs & _ & Hn);
    [| | | | exists st1, info; split; [exact Hrun|]; split; [exact Hi|];
            split; [exact Hs | exact (Hn Hs)]].
  - reflexivity.
  - reflexivity.
  - vm_compute. reflexivity.
  - vm_compute. reflexivity.
Defined.

(** ** C10 *)

(** C10. [populate_column] gives the device column an item that is not
    user-checkable and is unchecked, so ticking it does nothing; and a
    columns list with an item for the device column always reports that
    column, in [get_data] and therefore in the column list
    [persist_view_config] stores. *)
Theorem ondevice_not_checkable_always_saved (g : Gui) (h : string)
    (w : ColumnListWidget) (row : nat) (it : QListWidgetItem) :
  headers g !! "ondevice" = Some h →
  cl_items w !! row = Some it →
  data it = "ondevice" →
  (∀ is_checked,
     ColumnList.populate_column g "ondevice" is_checked =
       Ok (mkItem h "ondevice" false Unchecked)) ∧
  (userCheckable it = false → tick row w = w) ∧
  "ondevice" ∈ (ColumnList.get_data w).*1 ∧
  (∀ st v st1,
     columns_list st = w → view_name st = Some v → truthy v = true →
     persist_view_config st = Ok st1 →
     ∃ info, views st1 !! v = Some info ∧ "ondevice" ∈ (columns info).*1).
Proof.
  intros Hh Hrow Hd.
  assert (Hin : "ondevice" ∈ (ColumnList.get_data w).*1).
  { apply list_elem_of_fmap.
    exists ("ondevice", width_of w "ondevice"). split; [done|].
    apply (ColumnListTheory.get_data_ondevice w it).
    - by eapply list_elem_of_lookup_2.
    - by rewrite Hd. }
  split; [|split; [|split; [exact Hin|]]].
  - intros b. unfold ColumnList.populate_column, getitem. by rewrite Hh.
  - intros Hu. unfold tick. by rewrite Hrow, Hu.
  - intros st v st1 Hw Hname Hv Hrun.
    unfold persist_view_config in Hrun. rewrite Hname, Hv in Hrun.
    destruct (getitem (views st) v); [|done]. cbn [bind] in Hrun.
    destruct (SortList.get_data (sort_list st)); [|done]. cbn [bind] in Hrun.
    injection Hrun as <-. eexists. split; [cbn; apply lookup_insert_eq|].
    cbn [columns]. by rewrite Hw.
Qed.

Lemma ondevice_not_checkable_always_saved_witness :
  ∃ st, example_run [AddView "Default" true; OnColumns (Tick 2)] = Ok st ∧
        ∃ it, cl_items (columns_list st) !! 2%nat = Some it ∧
              data it = "ondevice" ∧ checkState it = Unchecked ∧
              "ondevice" ∈ (ColumnList.get_data (columns_list st)).*1.
Proof.
  destruct (example_run [AddView "Default" true; OnColumns (Tick 2)])
    as [st|] eqn:E; [|vm_compute in E; discriminate].
  exists st. split; [reflexivity|].
  vm_compute in E. injection E as <-.
  eexists. split; [reflexivity|]. split; [reflexivity|]. split; [reflexivity|].
  eapply (ondevice_not_checkable_always_saved example_gui "On Device" _ 2%nat).
  - reflexivity.
  - reflexivity.
  - reflexivity.
Defined.

(** ** C7 *)

Lemma list_run_columns_ok all acts w :
  columns_list_ok all w → columns_list_ok all (list_run acts w).
Proof.
  revert w. induction acts as [|a acts IH]; intros w Hw; [done|].
  cbn. apply IH. by apply list_step_columns_ok.
Qed.

Lemma list_run_sort_ok all acts w :
  sort_list_ok all w → sort_list_ok all (list_run acts w).
Proof.
  revert w. induction acts as [|a acts IH]; intros w Hw; [done|].
  cbn. apply IH. by apply list_step_sort_ok.
Qed.

(** What [persist_view_config] stores for the view being edited, in a
    state the dialog can be in. *)
Lemma persist_reachable st v :
  Inv st → view_name st = Some v → truthy v = true →
  ∃ info L U,
    form_selection st = Ok info ∧
    persist_view_config st = Ok (set_views (<[v := info]> (views st)) st) ∧
    columns info = ColumnList.get_data (columns_list st) ∧
    sort info = L ∧ SortList.get_data (sort_list st) = Ok L ∧
    (all_columns st).*1 ≡ₚ L.*1 ++ U ∧
    filters_consistent info.
Proof.
  intros HI Hname Hv.
  destruct (Inv_view_exists st v HI Hname Hv) as [[old Hold] _].
  assert (Ht : truthy_opt (view_name st) = true) by (by rewrite Hname).
  destruct (inv_lists st HI Ht) as [_ Hsort].
  destruct (SortListTheory.get_data_ok _ _ _ (inv_columns st HI) Hsort)
    as (L & U & HL & HLU).
  destruct (persist_some st v old L Hname Hv Hold HL)
    as (info & Hform & Hrun & Hc & Hs & Hf).
  exists info, L, U. done.
Qed.

(** C7. Given host columns with headers and well-formed names: filling
    the columns list from any stored column list succeeds, and what
    [get_data] then reads back, at once or after the user has ticked and
    moved items, holds host columns only; the same goes for the sort list;
    and in every state of the dialog the column and sort lists that
    [persist_view_config] stores hold host columns only. *)
Theorem stored_columns_are_host_columns (g : Gui)
    (all cols sorts : list (string * Z)) (w sw : ColumnListWidget) :
  columns_ok g all →
  (∃ w', ColumnList.populate g cols all w = Ok w' ∧
         ∀ acts c, c ∈ (ColumnList.get_data (list_run acts w')).*1 → c ∈ all.*1) ∧
  (∃ sw', SortList.populate g sorts all sw = Ok sw' ∧
          ∀ acts, ∃ L, SortList.get_data (list_run acts sw') = Ok L ∧
                       ∀ c, c ∈ L.*1 → c ∈ all.*1) ∧
  (∀ st v, reachable st → view_name st = Some v → truthy v = true →
     ∃ st1 info,
       persist_view_config st = Ok st1 ∧ views st1 !! v = Some info ∧
       (∀ c, c ∈ (columns info).*1 → c ∈ (all_columns st).*1) ∧
       (∀ c, c ∈ (sort info).*1 → c ∈ (all_columns st).*1)).
Proof.
  intros Hall. split; [|split].
  - destruct (ColumnListTheory.populate_ok g cols all w Hall)
      as (its & its' & Hrun & Hok & _).
    eexists. split; [exact Hrun|]. intros acts c.
    destruct (list_run_columns_ok all acts _ Hok) as (Hp & _).
    by apply (ColumnListTheory.get_data_host g).
  - destruct (SortListTheory.sort_populate_ok g sorts all sw Hall)
      as (its & its' & Hrun & Hok & _).
    eexists. split; [exact Hrun|]. intros acts.
    destruct (SortListTheory.get_data_ok g all _ Hall
                (list_run_sort_ok all acts _ Hok)) as (L & U & HL & HLU).
    exists L. split; [exact HL|]. intros c Hc. rewrite HLU.
    apply elem_of_app. by left.
  - intros st v HI%reachable_Inv Hname Hv.
    destruct (persist_reachable st v HI Hname Hv)
      as (info & L & U & _ & Hrun & Hc & Hs & _ & HLU & _).
    eexists _, info. split; [exact Hrun|].
    split; [cbn; apply lookup_insert_eq|].
    assert (Ht : truthy_opt (view_name st) = true) by (by rewrite Hname).
    destruct (inv_lists st HI Ht) as [(Hp & _) _].
    split.
    + intros c. rewrite Hc.
      by apply (ColumnListTheory.get_data_host (gui st)); [apply HI|].
    + intros c Hin. rewrite Hs in Hin. rewrite HLU.
      apply elem_of_app. by left.
Qed.

Lemma stored_columns_are_host_columns_witness :
  let all := [("title", 100); ("authors", 80)] in
  let stored := [("authors", 55); ("rating", 30); ("title", 70)] in
  columns_ok example_gui all ∧
  ∃ w', ColumnList.populate example_gui stored all
          (mkColumnList [] (-1) ∅ []) = Ok w' ∧
        ColumnList.get_data w' = [("authors", 55); ("title", 70)] ∧
        ∀ c, c ∈ (ColumnList.get_data w').*1 → c ∈ all.*1.
Proof.
  intros all stored.
  assert (Hall : columns_ok example_gui all).
  { repeat constructor; try (by eexists); reflexivity. }
  split; [exact Hall|].
  destruct (stored_columns_are_host_columns example_gui all stored []
              (mkColumnList [] (-1) ∅ []) (mkColumnList [] (-1) ∅ []) Hall)
    as [(w' & Hrun & Hhost) _].
  exists w'. split; [exact Hrun|]. split.
  - vm_compute in Hrun. injection Hrun as <-. vm_compute. reflexivity.
  - intros c. apply (Hhost []).
Defined.

(** ** C1 *)

Lemma rename_view_clash st text old :
  view_name st = Some old → truthy old = true →
  collides (Some old) (strip text) (views st) →
  rename_view text true st =
  Ok (st, if String.eqb (strip text) old then Returned else same_name_dialog).
Proof.
  intros Hname Hold Hc%clashes_spec. unfold rename_view.
  rewrite Hname. cbn [truthy_opt negb default from_option id]. rewrite Hold.
  cbn [negb]. destruct (String.eqb (strip text) old); [done|]. by rewrite Hc.
Qed.

(** C1. A name that, once stripped, equals the name of an existing view
    up to case is refused by [add_view] with the error dialog, and the
    dialog's state (the views mapping with its definitions, the selected
    view, every control) is what it was.  [rename_view] does the same for
    a name that clashes with a view other than the one being renamed; the
    one case without an error dialog is a new name identical to the old
    one, where nothing happens either, and which does not arise in a
    mapping whose names are unique.  Hence in every state the dialog can
    reach, and after any further step, the names in the mapping are
    unique up to case. *)
Theorem colliding_name_rejected (st : ConfigWidget) (text : string) :
  (collides None (strip text) (views st) →
   add_view text true st = Ok (st, same_name_dialog)) ∧
  (∀ old, view_name st = Some old → truthy old = true →
     collides (Some old) (strip text) (views st) →
     ∃ o, rename_view text true st = Ok (st, o) ∧
          (strip text ≠ old → o = same_name_dialog) ∧
          (unique_ci (views st) → is_Some (views st !! old) →
           o = same_name_dialog)) ∧
  (reachable st →
     unique_ci (views st) ∧
     ∀ a st', step a st = Ok st' → unique_ci (views st')).
Proof.
  split; [|split].
  - intros Hc%clashes_spec. unfold add_view. cbn [negb]. by rewrite Hc.
  - intros old Hname Hold Hc.
    rewrite (rename_view_clash st text old Hname Hold Hc).
    eexists. split; [reflexivity|].
    destruct (String.eqb_spec (strip text) old) as [E|Hne]; [|done].
    split; [done|]. intros Hu Hin. exfalso.
    destruct Hc as (k & Hk & Hs & Hl).
    apply Hs. f_equal. apply Hu; [done|done|]. by rewrite Hl, E.
  - intros HI%reachable_Inv. split; [apply HI|].
    intros a st' Hstep. by apply (inv_unique st'), (step_Inv a st).
Qed.

Lemma colliding_name_rejected_witness :
  ∃ st, example_run [AddView "Default" true; AddView "Other" true] = Ok st ∧
        collides None (strip " DEFAULT ") (views st) ∧
        add_view " DEFAULT " true st = Ok (st, same_name_dialog) ∧
        view_name st = Some "Other" ∧
        collides (Some "Other") (strip " DEFAULT ") (views st) ∧
        rename_view " DEFAULT " true st = Ok (st, same_name_dialog) ∧
        unique_ci (views st).
Proof.
  destruct (example_run [AddView "Default" true; AddView "Other" true])
    as [st|] eqn:E; [|vm_compute in E; discriminate].
  exists st. split; [reflexivity|].
  pose proof (example_run_reachable _ _ E) as Hreach.
  destruct (colliding_name_rejected st " DEFAULT ") as (Hadd & Hren & Huniq).
  destruct (Huniq Hreach) as [Hu _].
  assert (Hname : view_name st = Some "Other")
    by (vm_compute in E; injection E as <-; reflexivity).
  assert (Hc : ∀ skip, skip ≠ Some "Default" →
                       collides skip (strip " DEFAULT ") (views st)).
  { intros skip Hs. exists "Default". split; [|split; [congruence|reflexivity]].
    vm_compute in E. injection E as <-. by eexists. }
  assert (Hc1 : collides None (strip " DEFAULT ") (views st)) by (by apply Hc).
  assert (Hc2 : collides (Some "Other") (strip " DEFAULT ") (views st))
    by (by apply Hc).
  split; [exact Hc1|]. split; [exact (Hadd Hc1)|]. split; [exact Hname|].
  split; [exact Hc2|]. split; [|exact Hu].
  destruct (Hren "Other" Hname eq_refl Hc2) as (o & Hrun & Ho & _).
  rewrite Hrun, Ho; [reflexivity|]. discriminate.
Defined.

(** ** C6 *)

(** Which names a callback can add to the mapping, whatever the state. *)

Lemma persist_keys st st1 :
  persist_view_config st = Ok st1 → same_keys (views st) (views st1).
Proof.
  unfold persist_view_config. destruct (view_name st) as [v|]; [|by intros [= <-]].
  destruct (truthy v); [|by intros [= <-]].
  unfold getitem. destruct (views st !! v) as [old|] eqn:E; [|done]. cbn [bind].
  destruct (SortList.get_data _); [|done]. cbn [bind]. intros [= <-].
  cbn. apply same_keys_insert. eauto.
Qed.

Lemma select_false_views st st' :
  select_view_combo_index_changed false st = Ok st' → views st' = views st.
Proof.
  unfold select_view_combo_index_changed. cbn [bind].
  match goal with
  | |- bind ?m _ = _ → _ =>
      destruct m as [[[[[[[cols sorts] all] ar] r] a] s]|]; [|done]
  end.
  cbn [bind]. destruct (ColumnList.populate _ _ _ _); [|done]. cbn [bind].
  destruct (SortList.populate _ _ _ _); [|done]. cbn [bind].
  by intros [= <-].
Qed.

Lemma select_views b st st' :
  select_view_combo_index_changed b st = Ok st' → same_keys (views st) (views st').
Proof.
  destruct b.
  - rewrite select_true_unfold.
    destruct (persist_view_config st) as [st1|] eqn:E; [|done]. cbn [bind].
    intros ->%select_false_views. by apply persist_keys.
  - by intros ->%select_false_views.
Qed.

Lemma add_view_keys text ok st st' o k :
  add_view text ok st = Ok (st', o) → is_Some (views st' !! k) →
  is_Some (views st !! k) ∨ (ok = true ∧ k = strip text).
Proof.
  unfold add_view. destruct ok; cbn [negb]; [|by intros [= <- <-]; left].
  destruct (clashes _ _ _); [by intros [= <- <-]; left|].
  destruct (persist_view_config st) as [st1|] eqn:Hp; [|done]. cbn [bind].
  apply persist_keys in Hp.
  match goal with
  | |- bind ?m _ = _ → _ => destruct m as [view_info|]; [|done]
  end.
  cbn [bind].
  match goal with
  | |- bind ?m _ = _ → _ => destruct m as [st2|] eqn:Hs; [|done]
  end.
  cbn [bind]. intros [= <- <-]. cbn [views].
  apply select_false_views in Hs. rewrite Hs. cbn [views].
  destruct (decide (strip text = k)) as [<-|Hne]; [by right|].
  rewrite lookup_insert_ne by done. left. by apply Hp.
Qed.

Lemma rename_view_keys text ok st st' o k :
  rename_view text ok st = Ok (st', o) → is_Some (views st' !! k) →
  is_Some (views st !! k) ∨ (ok = true ∧ k = strip text).
Proof.
  unfold rename_view.
  destruct (truthy_opt (view_name st)); cbn [negb]; [|by intros [= <- <-]; left].
  destruct ok; cbn [negb]; [|by intros [= <- <-]; left].
  destruct (String.eqb _ _); [by intros [= <- <-]; left|].
  destruct (clashes _ _ _); [by intros [= <- <-]; left|].
  destruct (persist_view_config st) as [st1|] eqn:Hp; [|done]. cbn [bind].
  apply persist_keys in Hp.
  destruct (getitem _ _) as [view_info|]; [|done]. cbn [bind].
  match goal with
  | |- bind ?m _ = _ → _ => destruct m as [st2|] eqn:Hs; [|done]
  end.
  cbn [bind]. intros [= <- <-]. cbn [views].
  apply select_false_views in Hs. rewrite Hs. cbn [views].
  destruct (decide (strip text = k)) as [<-|Hne]; [by right|].
  rewrite lookup_insert_ne by done. intros Hk. left. apply Hp.
  destruct (decide (default EmptyString (view_name st) = k)) as [E|Hne'].
  - rewrite <- E in Hk. by rewrite lookup_delete_eq in Hk.
  - by rewrite lookup_delete_ne in Hk.
Qed.

Lemma delete_view_keys confirmed st st' k :
  delete_view confirmed st = Ok st' → is_Some (views st' !! k) →
  is_Some (views st !! k).
Proof.
  unfold delete_view.
  destruct (truthy_opt (view_name st)); cbn [negb]; [|by intros [= <-]].
  destruct confirmed; cbn [negb]; [|by intros [= <-]].
  destruct (getitem _ _); [|done]. cbn [bind].
  match goal with
  | |- bind ?m _ = _ → _ => destruct m as [st2|] eqn:Hs; [|done]
  end.
  cbn [bind]. intros [= <-]. cbn [views].
  apply select_false_views in Hs. rewrite Hs. cbn [views].
  destruct (decide (default EmptyString (view_name st) = k)) as [E|Hne'].
  - rewrite <- E. by rewrite lookup_delete_eq.
  - by rewrite lookup_delete_ne.
Qed.

Lemma step_keys a st st' k :
  step a st = Ok st' → is_Some (views st' !! k) →
  is_Some (views st !! k) ∨ proposed_name a = Some k.
Proof.
  destruct a; cbn [step proposed_name];
    try (by intros [= <-]; left).
  - destruct (add_view _ ok st) as [[st1 o]|] eqn:E; [|done]. cbn [bind fst].
    intros [= <-] Hk.
    destruct (add_view_keys _ _ _ _ _ k E Hk) as [?|[-> ->]]; [by left | by right].
  - destruct (rename_view _ ok st) as [[st1 o]|] eqn:E; [|done]. cbn [bind fst].
    intros [= <-] Hk.
    destruct (rename_view_keys _ _ _ _ _ k E Hk) as [?|[-> ->]]; [by left | by right].
  - intros Hrun Hk. left. by eapply delete_view_keys.
  - destruct (_ && _); [|by intros [= <-]; left].
    intros Hk%select_views ?. left. by apply Hk.
  - destruct (SortList.item_selection_changed _); [|by intros [= <-]; left].
    destruct (SortList.change_sort _ _); [|done]. by intros [= <-]; left.
  - destruct (SortList.item_selection_changed _); [|by intros [= <-]; left].
    destruct (SortList.change_sort _ _); [|done]. by intros [= <-]; left.
Qed.

Lemma init_views g library st vs :
  lib_views library = Some vs → init g library = Ok st → views st = vs.
Proof.
  intros Hvs. unfold init. rewrite Hvs. cbn [bind].
  destruct (get_current_columns _ _ _); [|done]. cbn [bind].
  by intros ->%select_false_views.
Qed.

(** C6, as the code has it.  Nothing keeps the sentinel out of the
    mapping but the user: the dialog opened on the default record has no
    view of that name, and a run of the dialog in which the user never
    proposes exactly ['*Last View Used'] as a name leaves the mapping
    without that key, from any state that lacks it. *)
Theorem sentinel_absent_unless_proposed (acts : list action)
    (st st' : ConfigWidget) :
  views st !! LAST_VIEW_ITEM = None →
  Forall (λ a, proposed_name a ≠ Some LAST_VIEW_ITEM) acts →
  run acts st = Ok st' →
  views st' !! LAST_VIEW_ITEM = None ∧
  (∀ g st0, init g default_library = Ok st0 →
            views st0 !! LAST_VIEW_ITEM = None).
Proof.
  intros Hst Hacts Hrun. split.
  - revert st Hst Hrun. induction Hacts as [|a acts Ha _ IH]; intros st Hst; cbn [run].
    + by intros [= <-].
    + destruct (step a st) as [st1|] eqn:E; [|done]. cbn [bind].
      apply IH. apply eq_None_not_Some. intros Hk.
      destruct (step_keys a st st1 _ E Hk) as [H|H]; [|done].
      rewrite Hst in H. by destruct H.
  - intros g st0 Hinit. by rewrite (init_views g default_library st0 ∅ eq_refl Hinit).
Qed.

Lemma sentinel_absent_unless_proposed_witness :
  let acts := [AddView "*last view used" true; AddView "Default" true;
               RenameView "Last" true; DeleteView true] in
  ∃ st0 st', init example_gui default_library = Ok st0 ∧
             views st0 !! LAST_VIEW_ITEM = None ∧
             Forall (λ a, proposed_name a ≠ Some LAST_VIEW_ITEM) acts ∧
             run acts st0 = Ok st' ∧
             views st' !! LAST_VIEW_ITEM = None.
Proof.
  intros acts.
  destruct (init example_gui default_library) as [st0|] eqn:E0;
    [|vm_compute in E0; discriminate].
  destruct (run acts st0) as [st'|] eqn:E1;
    [|vm_compute in E0; injection E0 as <-; vm_compute in E1; discriminate].
  exists st0, st'. split; [reflexivity|].
  assert (H0 : views st0 !! LAST_VIEW_ITEM = None)
    by (by rewrite (init_views example_gui default_library st0 ∅ eq_refl E0)).
  assert (Hacts : Forall (λ a, proposed_name a ≠ Some LAST_VIEW_ITEM) acts)
    by (repeat constructor; discriminate).
  split; [exact H0|]. split; [exact Hacts|]. split; [exact E1|].
  exact (proj1 (sentinel_absent_unless_proposed acts st0 st' H0 Hacts E1)).
Defined.

(** The claim as written fails: the dialog accepts the sentinel itself,
    and a case variant of it, as the name of a view. *)
Lemma sentinel_name_accepted :
  (∃ st, example_run [AddView "*Last View Used" true] = Ok st ∧
         is_Some (views st !! LAST_VIEW_ITEM)) ∧
  (∃ st, example_run [AddView "*last view used" true;
                      RenameView "*Last View Used" true] = Ok st ∧
         is_Some (views st !! LAST_VIEW_ITEM)).
Proof.
  split.
  - destruct (example_run [AddView "*Last View Used" true]) as [st|] eqn:E;
      [|vm_compute in E; discriminate].
    exists st. split; [reflexivity|].
    vm_compute in E. injection E as <-. by eexists.
  - destruct (example_run [AddView "*last view used" true;
                           RenameView "*Last View Used" true]) as [st|] eqn:E;
      [|vm_compute in E; discriminate].
    exists st. split; [reflexivity|].
    vm_compute in E. injection E as <-. by eexists.
Qed.

(** ** C3 *)




(** ** C2 *)

Lemma is_checked_of_bool b : is_checked (check_of_bool b) = b.
Proof. by destruct b. Qed.

(** The name a search combo box shows is, once stripped, one it offers. *)
Lemma search_name_offered c :
  search_combo_ok c →
  strip (strip (currentText c)) = strip (currentText c) ∧
  (strip (currentText c) = EmptyString ∨ strip (currentText c) ∈ items c).
Proof.
  intros [_ Hs]. split; [apply strip_idem|].
  destruct (currentText_elem c) as [->|Hin]; [by left|].
  right. eapply Forall_forall in Hs; [|exact Hin]. by rewrite Hs.
Qed.

(** Persisting the form and refilling it from what was stored. *)
Lemma persist_then_select st v :
  Inv st → view_name st = Some v → truthy v = true →
  ∃ info st1 st2,
    form_selection st = Ok info ∧
    persist_view_config st = Ok st1 ∧
    views st1 !! v = Some info ∧
    select_view_combo_index_changed false st1 = Ok st2 ∧
    view_name st2 = Some v ∧
    views st2 = views st1 ∧
    ColumnList.get_data (columns_list st2) = columns info ∧
    SortList.get_data (sort_list st2) = Ok (sort info) ∧
    is_checked (apply_restriction_checkbox st2) = applyRestriction info ∧
    currentText (search_restriction_combo st2) = restrictionToApply info ∧
    is_checked (apply_search_checkbox st2) = applySearch info ∧
    currentText (saved_search_combo st2) = searchToApply info ∧
    form_selection st2 = Ok info.
Proof.
  intros HI Hname Hv.
  destruct (persist_reachable st v HI Hname Hv)
    as (info & L & U & Hform & Hrun & Hc & Hs & HL & HLU & Hf).
  assert (Ht : truthy_opt (view_name st) = true) by (by rewrite Hname).
  destruct (inv_lists st HI Ht) as [(Hp & _) Hsort].
  pose proof (inv_columns st HI) as Hcols.
  destruct (ColumnListTheory.get_data_populate (gui st) (all_columns st)
              (columns_list st) (columns_list st) Hcols Hp)
    as (cl & Hcl & _ & Hclget).
  destruct (SortListTheory.sort_get_data_populate (gui st) (all_columns st)
              (sort_list st) (sort_list st) L Hcols Hsort HL)
    as (sl & Hsl & _ & Hslget).
  set (st1 := set_views (<[v := info]> (views st)) st).
  assert (Hinfo : views st1 !! v = Some info) by apply lookup_insert_eq.
  assert (Hcombo : name_of_combo (vc_combo (select_view_combo st1)) = Some v).
  { cbn. by rewrite <- (inv_name st HI). }
  rewrite <- Hc in Hcl. rewrite <- Hs in Hsl.
  pose proof (select_existing st1 v info cl sl Hcombo Hv Hinfo Hcl Hsl) as Hsel.
  change (search_restriction_combo st1) with (search_restriction_combo st) in Hsel.
  change (saved_search_combo st1) with (saved_search_combo st) in Hsel.
  (* what the form held *)
  unfold form_selection in Hform. rewrite HL in Hform. cbn [bind] in Hform.
  injection Hform as Hform.
  destruct (search_name_offered _ (inv_restriction st HI)) as [Hr1 Hr2].
  destruct (search_name_offered _ (inv_search st HI)) as [Hs1 Hs2].
  assert (Hshow_r : currentText (select_value (restrictionToApply info)
                                   (search_restriction_combo st)) =
                    restrictionToApply info).
  { apply select_value_shows; [apply HI|]. rewrite <- Hform. cbn.
    destruct (is_checked (apply_restriction_checkbox st)); [exact Hr2 | by left]. }
  assert (Hshow_s : currentText (select_value (searchToApply info)
                                   (saved_search_combo st)) =
                    searchToApply info).
  { apply select_value_shows; [apply HI|]. rewrite <- Hform. cbn.
    destruct (is_checked (apply_search_checkbox st)); [exact Hs2 | by left]. }
  eexists info, st1, _.
  split. { unfold form_selection. rewrite HL. cbn [bind]. by rewrite Hform. }
  split; [exact Hrun|]. split; [exact Hinfo|]. split; [exact Hsel|].
  cbn [view_name views columns_list sort_list apply_restriction_checkbox
       search_restriction_combo apply_search_checkbox saved_search_combo].
  split; [done|]. split; [done|].
  split; [by rewrite Hclget|]. split; [by rewrite Hslget, Hs|].
  split; [apply is_checked_of_bool|]. split; [exact Hshow_r|].
  split; [apply is_checked_of_bool|]. split; [exact Hshow_s|].
  unfold form_selection.
  cbn [sort_list columns_list apply_restriction_checkbox
       search_restriction_combo apply_search_checkbox saved_search_combo].
  rewrite Hslget. cbn [bind]. rewrite Hclget, !is_checked_of_bool, Hshow_r, Hshow_s.
  rewrite <- Hform. cbn [applyRestriction restrictionToApply applySearch searchToApply].
  destruct (is_checked (apply_restriction_checkbox st));
    destruct (is_checked (apply_search_checkbox st));
    by rewrite ?Hr1, ?Hs1.
Qed.

(** C2, as the code has it.  The dialog is opened on a well-formed
    record, in a host whose columns are named by their lookup names and
    whose saved searches have names without white space at either end,
    and the user does anything.  Then, with a view [v] of non-empty name
    being edited: [persist_view_config] stores under [v] exactly what the
    form shows (ticked columns, with the device column, in order and with
    their widths; ticked sort columns with their directions, in order;
    the two flags, each with its name, empty when the flag is off); and
    [select_view_combo_index_changed], run on the result, selects [v]
    again and leaves a form that shows exactly what was stored. *)
Theorem persist_select_roundtrip (g : Gui) (library : library_config)
    (acts : list action) (st0 st : ConfigWidget) (v : string) :
  Forall (column_name_ok g) (column_map g) →
  Forall (λ s, strip s = s) (saved_searches g) →
  library_ok library →
  init g library = Ok st0 →
  run acts st0 = Ok st →
  view_name st = Some v → truthy v = true →
  ∃ info st1 st2,
    form_selection st = Ok info ∧
    persist_view_config st = Ok st1 ∧
    views st1 !! v = Some info ∧
    select_view_combo_index_changed false st1 = Ok st2 ∧
    view_name st2 = Some v ∧
    views st2 = views st1 ∧
    ColumnList.get_data (columns_list st2) = columns info ∧
    SortList.get_data (sort_list st2) = Ok (sort info) ∧
    is_checked (apply_restriction_checkbox st2) = applyRestriction info ∧
    currentText (search_restriction_combo st2) = restrictionToApply info ∧
    is_checked (apply_search_checkbox st2) = applySearch info ∧
    currentText (saved_search_combo st2) = searchToApply info ∧
    form_selection st2 = Ok info.
Proof.
  intros Hcols Hsearches Hlib Hinit Hrun.
  assert (HI : Inv st).
  { apply reachable_Inv. exists g, library, st0, acts.
    split; [by split|]. split; [exact Hlib|]. split; [exact Hinit|exact Hrun]. }
  by apply persist_then_select.
Qed.

Lemma persist_select_roundtrip_witness :
  ∃ st0 st,
    init example_gui default_library = Ok st0 ∧
    run [AddView "Default" true; OnColumns (Tick 3);
         OnColumns (Click 3); OnColumns MoveUp;
         OnSort (Tick 1); OnSort (Click 1); SortDescending;
         SetApplySearch Checked; ChooseSearch 2] st0 = Ok st ∧
    view_name st = Some "Default" ∧
    ∃ st1 st2,
      persist_view_config st = Ok st1 ∧
      select_view_combo_index_changed false st1 = Ok st2 ∧
      form_selection st2 = form_selection st ∧
      form_selection st =
        Ok (mkView [("title", 100); ("authors", 80); ("size", -1);
                    ("ondevice", -1)]
                   [("authors", 1)] false EmptyString true "unread").
Proof.
  destruct (example_run [AddView "Default" true; OnColumns (Tick 3);
                         OnColumns (Click 3); OnColumns MoveUp;
                         OnSort (Tick 1); OnSort (Click 1); SortDescending;
                         SetApplySearch Checked; ChooseSearch 2])
    as [st|] eqn:E; [|vm_compute in E; discriminate E].
  destruct (example_run_init _ _ E) as (st0 & E0 & Erun).
  exists st0, st. split; [exact E0|]. split; [exact Erun|].
  assert (Hname : view_name st = Some "Default").
  { rewrite (read_off view_name None _ _ E). vm_compute. reflexivity. }
  split; [exact Hname|].
  destruct (persist_select_roundtrip example_gui default_library _ st0 st
              "Default" (proj1 example_host_ok) (proj2 example_host_ok)
              default_library_ok E0 Erun Hname eq_refl)
    as (info & st1 & st2 & Hform & Hp & _ & Hsel & _ & _ & _ & _ & _ & _ & _
        & _ & Hform2).
  exists st1, st2. split; [exact Hp|]. split; [exact Hsel|].
  split; [rewrite Hform, Hform2; reflexivity|].
  rewrite (read_off form_selection (Raise TypeError) _ _ E).
  vm_compute. reflexivity.
Defined.

(** The claim as written fails for the view whose name is the empty
    string, which [add_view] accepts: with its entry selected,
    [persist_view_config] stores nothing of the form (here a ticked
    "apply saved search" box), and refilling the form shows no column
    although the view has some stored and unticks the box. *)
Lemma unnamed_view_does_not_roundtrip :
  ∃ st info st2,
    example_run [AddView "Default" true; AddView EmptyString true;
                 SetApplySearch Checked] = Ok st ∧
    view_name st = Some EmptyString ∧
    currentText (vc_combo (select_view_combo st)) = EmptyString ∧
    views st !! EmptyString = Some info ∧
    columns info = [("title", 100); ("authors", 80); ("ondevice", -1)] ∧
    applySearch info = false ∧
    apply_search_checkbox st = Checked ∧
    persist_view_config st = Ok st ∧
    select_view_combo_index_changed false st = Ok st2 ∧
    view_name st2 = Some EmptyString ∧
    ColumnList.get_data (columns_list st2) = [] ∧
    apply_search_checkbox st2 = Unchecked.
Proof.
  match goal with
  | |- ∃ st info st2, ?r = _ ∧ _ =>
      destruct r as [st|] eqn:E; [|vm_compute in E; discriminate]
  end.
  vm_compute in E. injection E as <-.
  eexists _, _, _. split; [reflexivity|].
  split; [reflexivity|]. split; [reflexivity|].
  split; [vm_compute; reflexivity|].
  split; [reflexivity|]. split; [reflexivity|]. split; [reflexivity|].
  split; [reflexivity|]. split; [vm_compute; reflexivity|].
  split; [reflexivity|]. split; reflexivity.
Qed.

(** Nor does the round trip hold in a host that has a saved search whose
    name has white space at an end.  In [padded_gui], with the box ticked
    and the search chosen, [persist_view_config] stores the stripped name,
    which the combo box does not offer; the refilled form has the box
    ticked and no search chosen. *)
Lemma padded_search_trace :
  (st ← padded_run [AddView "Default" true; SetApplySearch Checked;
                    ChooseSearch 1] ;
   st1 ← persist_view_config st ;
   st2 ← select_view_combo_index_changed false st1 ;
   Ok (view_name st, currentText (saved_search_combo st),
       (λ info, (applySearch info, searchToApply info)) <$>
         views st1 !! "Default",
       view_name st2, apply_search_checkbox st2,
       currentIndex (saved_search_combo st2),
       currentText (saved_search_combo st2))) =
  Ok (Some "Default", " foo", Some (true, "foo"), Some "Default", Checked,
      -1, EmptyString).
Proof. vm_compute. reflexivity. Qed.

Lemma padded_search_does_not_roundtrip :
  ∃ st info st1 st2,
    padded_run [AddView "Default" true; SetApplySearch Checked;
                ChooseSearch 1] = Ok st ∧
    view_name st = Some "Default" ∧
    currentText (saved_search_combo st) = " foo" ∧
    persist_view_config st = Ok st1 ∧
    views st1 !! "Default" = Some info ∧
    applySearch info = true ∧
    searchToApply info = "foo" ∧
    select_view_combo_index_changed false st1 = Ok st2 ∧
    view_name st2 = Some "Default" ∧
    apply_search_checkbox st2 = Checked ∧
    currentIndex (saved_search_combo st2) = -1 ∧
    currentText (saved_search_combo st2) = EmptyString.
Proof.
  pose proof padded_search_trace as H.
  destruct (padded_run _) as [st|] eqn:E; cbn [bind] in H; [|discriminate H].
  destruct (persist_view_config st) as [st1|] eqn:E1; cbn [bind] in H;
    [|discriminate H].
  destruct (select_view_combo_index_changed false st1) as [st2|] eqn:E2;
    cbn [bind] in H; [|discriminate H].
  injection H as H1 H2 H3 H4 H5 H6 H7.
  destruct (views st1 !! "Default") as [info|] eqn:E3; [|discriminate H3].
  injection H3 as H3 H3'.
  exists st, info, st1, st2.
  split; [reflexivity|]. split; [exact H1|]. split; [exact H2|].
  split; [exact E1|]. split; [exact E3|]. split; [exact H3|].
  split; [exact H3'|]. split; [exact E2|]. split; [exact H4|].
  split; [exact H5|]. split; [exact H6|exact H7].
Qed.

End DialogClaims.
(* ===================================================================== *)
(** * Further properties of the code *)
(* ===================================================================== *)

Module Combos.
Import Dialog PySpec PyTheory DialogSpec DialogTheory ExampleRun.

(** ** [sorted] sorts *)

Section sorted_sorts.
Context {A : Type} (le : A → A → bool) (R : relation A).
Context (le_R : ∀ x y, le x y = true ↔ R x y).
Context (R_total : ∀ x y, R x y ∨ R y x).
Context (R_trans : ∀ x y z, R x y → R y z → R x z).

Lemma insert_sorted_sorted x l :
  StronglySorted R l → StronglySorted R (insert_sorted le x l).
Proof.
  induction l as [|y l IH]; intros Hl; cbn [insert_sorted].
  - repeat constructor.
  - apply StronglySorted_inv in Hl as [Hl Hy].
    destruct (le x y) eqn:E.
    + apply le_R in E. constructor; [by constructor|].
      constructor; [done|]. eapply Forall_impl; [exact Hy|].
      intros z Hz. by eapply R_trans.
    + constructor; [by apply IH|].
      rewrite insert_sorted_perm. constructor; [|done].
      destruct (R_total x y) as [H|H]; [|done].
      apply le_R in H. congruence.
Qed.

Lemma sorted_sorted l : StronglySorted R (sorted le l).
Proof.
  induction l as [|x l IH]; cbn; [constructor|]. by apply insert_sorted_sorted.
Qed.
End sorted_sorts.

Lemma sorted_keys_sorted {V} (vs : gmap string V) :
  StronglySorted String.le (sorted_keys vs).
Proof.
  apply (sorted_sorted str_le).
  - intros x y. unfold str_le. apply bool_decide_eq_true.
  - intros x y. destruct (total String.le x y); eauto.
  - intros x y z. apply transitivity.
Qed.

(** ** [ViewComboBox] *)

(** X1. [populate_combo] fills the combo box with the names of the views,
    each once and in ascending order, after the sentinel entry when the
    combo box is the special one. *)
Theorem view_combo_lists_sorted_names {V} (vs : gmap string V)
    (selected_text : option string) (c : ViewComboBox) :
  ∃ names,
    items (vc_combo (populate_combo vs selected_text c)) =
      (if special c then [LAST_VIEW_ITEM] else []) ++ names ∧
    StronglySorted String.le names ∧
    NoDup names ∧
    (∀ t, t ∈ names ↔ is_Some (vs !! t)) ∧
    special (populate_combo vs selected_text c) = special c.
Proof.
  exists (sorted_keys vs). split; [apply populate_combo_items|].
  split; [apply sorted_keys_sorted|]. split; [|split; [apply sorted_keys_elem|done]].
  unfold sorted_keys. rewrite sorted_perm. apply NoDup_fst_map_to_list.
Qed.

Lemma find_from_absent t l i0 : t ∉ l → find_from t l i0 = -1.
Proof.
  revert i0. induction l as [|x l IH]; intros i0 Hn; [done|].
  cbn [find_from]. destruct (String.eqb_spec x t) as [->|Hne].
  - exfalso. apply Hn. by left.
  - apply IH. intros Hin. apply Hn. by right.
Qed.

Lemma currentIndex_add_all l c :
  currentIndex c = match items c with [] => -1 | _ => 0 end →
  currentIndex (foldl (fun acc t => addItem t acc) c l) =
    match items c ++ l with [] => -1 | _ => 0 end.
Proof.
  revert c. induction l as [|x l IH]; intros c0 H0; cbn [foldl].
  - by rewrite app_nil_r.
  - rewrite IH.
    + cbn [items addItem]. rewrite <- app_assoc. cbn. by destruct (items c0).
    + cbn [items addItem currentIndex]. rewrite H0. by destruct (items c0).
Qed.

Lemma populate_combo_unfold {V} (vs : gmap string V) sel c :
  ∃ c2, populate_combo vs sel c = select_view sel (mkViewCombo c2 (special c)) ∧
        items c2 = (if special c then [LAST_VIEW_ITEM] else []) ++ sorted_keys vs ∧
        currentIndex c2 = match items c2 with [] => -1 | _ => 0 end.
Proof.
  eexists. split; [reflexivity|]. rewrite items_add_all.
  split; [by destruct (special c)|].
  apply currentIndex_add_all. by destruct (special c).
Qed.

(** X2. What [populate_combo] leaves selected: the requested text when
    the combo box has it; nothing (index [-1], empty current text) when a
    non-empty text is requested that the combo box does not have; and the
    first entry when no text, or the empty text, is requested. *)
Theorem view_combo_selection {V} (vs : gmap string V)
    (selected_text : option string) (c : ViewComboBox) :
  let c' := vc_combo (populate_combo vs selected_text c) in
  let text := default EmptyString selected_text in
  (truthy_opt selected_text = true → text ∈ items c' → currentText c' = text) ∧
  (truthy_opt selected_text = true → text ∉ items c' →
     currentIndex c' = -1 ∧ currentText c' = EmptyString) ∧
  (truthy_opt selected_text = false →
     currentIndex c' = match items c' with [] => -1 | _ => 0 end ∧
     currentText c' = default EmptyString (items c' !! 0%nat)).
Proof.
  intros c' text. subst c'.
  destruct (populate_combo_unfold vs selected_text c) as (c2 & -> & Hitems & Hidx).
  rewrite items_select_view. cbn [vc_combo]. unfold select_view. cbn [vc_combo].
  split; [|split].
  - intros -> Hin. by apply currentText_find.
  - intros -> Hn. unfold findText. rewrite (find_from_absent _ _ _ Hn).
    split; [done|]. unfold setCurrentIndex, currentText. by cbn.
  - intros ->. unfold count. destruct (items c2) as [|x l] eqn:E.
    + change (0 <? Z.of_nat (length (@nil string))) with false. cbv iota.
      split; [exact Hidx|]. unfold currentText. by rewrite Hidx.
    + cbn [length]. replace (0 <? Z.of_nat (S (length l))) with true
        by (symmetry; apply Z.ltb_lt; lia).
      split.
      * unfold setCurrentIndex, count. rewrite E. cbn [length currentIndex].
        by replace (0 <? Z.of_nat (S (length l))) with true
          by (symmetry; apply Z.ltb_lt; lia).
      * by rewrite (currentText_set 0 c2 x); [| | rewrite E].
Qed.

Lemma view_combo_selection_witness :
  let vs : gmap string view_info :=
    {[ "b" := mkView [] [] false EmptyString false EmptyString;
       "a" := mkView [] [] false EmptyString false EmptyString ]} in
  let c := mkViewCombo clear true in
  items (vc_combo (populate_combo vs (Some "b") c)) = [LAST_VIEW_ITEM; "a"; "b"] ∧
  currentText (vc_combo (populate_combo vs (Some "b") c)) = "b" ∧
  currentIndex (vc_combo (populate_combo vs (Some "zz") c)) = -1 ∧
  currentText (vc_combo (populate_combo vs None c)) = LAST_VIEW_ITEM.
Proof.
  intros vs c.
  assert (Hitems : items (vc_combo (populate_combo vs (Some "b") c)) =
                   [LAST_VIEW_ITEM; "a"; "b"]) by (vm_compute; reflexivity).
  split; [exact Hitems|].
  destruct (view_combo_selection vs (Some "b") c) as (H1 & _ & _).
  destruct (view_combo_selection vs (Some "zz") c) as (_ & H2 & _).
  destruct (view_combo_selection vs None c) as (_ & _ & H3).
  split. { apply H1; [reflexivity|]. rewrite Hitems.
           rewrite !elem_of_cons. auto. }
  split. { apply H2; [reflexivity|].
           replace (items _) with [LAST_VIEW_ITEM; "a"; "b"]
             by (vm_compute; reflexivity).
           cbn. intros Hin. repeat (apply elem_of_cons in Hin as [Hin|Hin]; [done|]).
           by apply elem_of_nil in Hin. }
  destruct (H3 eq_refl) as [_ ->]. vm_compute. reflexivity.
Defined.

(** ** [SearchComboBox] *)

(** X3. [SearchComboBox.populate_combo] offers the empty entry first and
    then the saved searches, each as often as the host lists it, ordered
    by [sort_key]; the empty entry is current.  [select_value] then shows
    a name the combo box offers, and shows nothing (index [-1]) for a
    name it does not offer. *)
Theorem search_combo_offers (g : Gui) :
  let c := search_populate_combo g in
  ∃ names,
    items c = EmptyString :: names ∧
    names ≡ₚ saved_searches g ∧
    StronglySorted (λ a b, String.le (sort_key g a) (sort_key g b)) names ∧
    currentIndex c = 0 ∧
    (∀ s, s ∈ items c → currentText (select_value s c) = s) ∧
    (∀ s, s ∉ items c →
          currentIndex (select_value s c) = -1 ∧
          currentText (select_value s c) = EmptyString).
Proof.
  intros c. subst c. unfold search_populate_combo.
  set (p := sorted _ (saved_searches g)).
  assert (Hitems : items (foldl (fun acc t => addItem t acc)
                                (addItem EmptyString clear) p) = EmptyString :: p).
  { by rewrite items_add_all. }
  exists p. split; [exact Hitems|]. split; [apply sorted_perm|].
  split.
  { apply (sorted_sorted _ (λ a b, String.le (sort_key g a) (sort_key g b))).
    - intros x y. unfold str_le. apply bool_decide_eq_true.
    - intros x y. destruct (total String.le (sort_key g x) (sort_key g y)); eauto.
    - intros x y z. apply transitivity. }
  split. { by rewrite currentIndex_add_all. }
  split.
  - intros s Hin. unfold select_value. destruct s as [|a s]; cbn [truthy].
    + unfold count. rewrite Hitems. cbn [length].
      replace (0 <? Z.of_nat (S (length p))) with true
        by (symmetry; apply Z.ltb_lt; lia).
      apply currentText_set; [done|]. by rewrite Hitems.
    + by apply currentText_find.
  - intros s Hn. unfold select_value. destruct s as [|a s]; cbn [truthy].
    + exfalso. apply Hn. rewrite Hitems. by left.
    + unfold findText. rewrite (find_from_absent _ _ _ Hn).
      split; [done|]. unfold setCurrentIndex, currentText. by cbn.
Qed.

End Combos.

Module Lists.
Import Dialog PySpec PyTheory DialogSpec DialogTheory.

(** ** Moving an item of a list widget *)

Lemma move_item_up (l1 : list QListWidgetItem) a b l2 :
  move_item (Z.of_nat (length l1) + 1) (Z.of_nat (length l1) + 1 - 1)
            (l1 ++ a :: b :: l2) = l1 ++ b :: a :: l2.
Proof.
  unfold move_item.
  replace (Z.of_nat (length l1) + 1 <? 0) with false
    by (symmetry; apply Z.ltb_ge; lia).
  replace (Z.to_nat (Z.of_nat (length l1) + 1)) with (length (l1 ++ [a])).
  2:{ rewrite length_app. cbn. lia. }
  replace (Z.to_nat (Z.of_nat (length l1) + 1 - 1)) with (length l1) by lia.
  replace (l1 ++ a :: b :: l2) with ((l1 ++ [a]) ++ b :: l2)
    by (by rewrite <- app_assoc).
  rewrite list_lookup_middle by done. rewrite delete_middle.
  rewrite <- app_assoc. cbn [app].
  by rewrite take_app_length, drop_app_length.
Qed.

Lemma move_item_down (l1 : list QListWidgetItem) a b l2 :
  move_item (Z.of_nat (length l1)) (Z.of_nat (length l1) + 1)
            (l1 ++ a :: b :: l2) = l1 ++ b :: a :: l2.
Proof.
  unfold move_item.
  replace (Z.of_nat (length l1) <? 0) with false
    by (symmetry; apply Z.ltb_ge; lia).
  rewrite Nat2Z.id.
  replace (Z.to_nat (Z.of_nat (length l1) + 1)) with (length (l1 ++ [b])).
  2:{ rewrite length_app. cbn. lia. }
  rewrite list_lookup_middle by done. rewrite delete_middle.
  replace (l1 ++ b :: l2) with ((l1 ++ [b]) ++ l2) by (by rewrite <- app_assoc).
  rewrite take_app_length, drop_app_length. by rewrite <- app_assoc.
Qed.

Lemma set_row_in n idx :
  0 ≤ idx < Z.of_nat n → set_row n idx = idx.
Proof.
  intros H. unfold set_row.
  replace (0 <=? idx) with true by (symmetry; apply Z.leb_le; lia).
  by replace (idx <? Z.of_nat n) with true by (symmetry; apply Z.ltb_lt; lia).
Qed.

Lemma move_up_swap w l1 a b l2 :
  cl_items w = l1 ++ a :: b :: l2 →
  cl_currentRow w = Z.of_nat (length l1) + 1 →
  move_column_up w =
    mkColumnList (l1 ++ b :: a :: l2) (Z.of_nat (length l1))
                 (saved_column_widths w) (all_columns_with_widths w).
Proof.
  intros Hi Hr. unfold move_column_up. rewrite Hr, Hi.
  replace (0 <? Z.of_nat (length l1) + 1) with true
    by (symmetry; apply Z.ltb_lt; lia).
  rewrite move_item_up. f_equal.
  replace (Z.of_nat (length l1) + 1 - 1) with (Z.of_nat (length l1)) by lia.
  apply set_row_in. rewrite length_app. cbn [length]. lia.
Qed.

Lemma move_down_swap w l1 a b l2 :
  cl_items w = l1 ++ a :: b :: l2 →
  cl_currentRow w = Z.of_nat (length l1) →
  move_column_down w =
    mkColumnList (l1 ++ b :: a :: l2) (Z.of_nat (length l1) + 1)
                 (saved_column_widths w) (all_columns_with_widths w).
Proof.
  intros Hi Hr. unfold move_column_down. rewrite Hr, Hi.
  replace (Z.of_nat (length l1) <? Z.of_nat (length (l1 ++ a :: b :: l2)) - 1)
    with true by (symmetry; apply Z.ltb_lt; rewrite length_app; cbn [length]; lia).
  rewrite move_item_down. f_equal.
  apply set_row_in. rewrite length_app. cbn [length]. lia.
Qed.

Lemma split_two {A} (l : list A) (n : nat) :
  (S n < length l)%nat →
  ∃ l1 a b l2, l = l1 ++ a :: b :: l2 ∧ length l1 = n.
Proof.
  intros Hn. exists (take n l).
  destruct (drop n l) as [|a [|b l2]] eqn:E.
  - apply (f_equal length) in E. rewrite length_drop in E. cbn in E. lia.
  - apply (f_equal length) in E. rewrite length_drop in E. cbn in E. lia.
  - exists a, b, l2. split.
    + by rewrite <- E, take_drop.
    + rewrite length_take. lia.
Qed.

(** X4. [move_column_up] on a current row that has a row above it swaps
    the two items and makes the upper row current; the rest of the list
    and the widths the widget remembers stay; on the first row, or
    without a current row, it does nothing. *)
Theorem move_column_up_swaps (w : ColumnListWidget)
    (l1 : list QListWidgetItem) (a b : QListWidgetItem)
    (l2 : list QListWidgetItem) :
  cl_items w = l1 ++ a :: b :: l2 →
  (cl_currentRow w = Z.of_nat (length l1) + 1 →
   move_column_up w =
     mkColumnList (l1 ++ b :: a :: l2) (Z.of_nat (length l1))
                  (saved_column_widths w) (all_columns_with_widths w)) ∧
  (cl_currentRow w ≤ 0 → move_column_up w = w).
Proof.
  intros Hi. split.
  - by apply move_up_swap.
  - intros Hr. unfold move_column_up.
    by replace (0 <? cl_currentRow w) with false
      by (symmetry; apply Z.ltb_ge; lia).
Qed.

Lemma move_column_up_swaps_witness :
  let it c := mkItem c c true Checked in
  let w := mkColumnList [it "a"; it "b"; it "c"] 2 ∅ [] in
  cl_items (move_column_up w) = [it "a"; it "c"; it "b"] ∧
  cl_currentRow (move_column_up w) = 1.
Proof.
  intros it w.
  destruct (move_column_up_swaps w [it "a"] (it "b") (it "c") [] eq_refl)
    as [H _].
  rewrite (H eq_refl). split; reflexivity.
Defined.

(** X5. [move_column_down] on a current row that has a row below it swaps
    the two items and makes the lower row current; on the last row it
    does nothing. *)
Theorem move_column_down_swaps (w : ColumnListWidget)
    (l1 : list QListWidgetItem) (a b : QListWidgetItem)
    (l2 : list QListWidgetItem) :
  cl_items w = l1 ++ a :: b :: l2 →
  (cl_currentRow w = Z.of_nat (length l1) →
   move_column_down w =
     mkColumnList (l1 ++ b :: a :: l2) (Z.of_nat (length l1) + 1)
                  (saved_column_widths w) (all_columns_with_widths w)) ∧
  (Z.of_nat (length (cl_items w)) - 1 ≤ cl_currentRow w →
   move_column_down w = w).
Proof.
  intros Hi. split.
  - by apply move_down_swap.
  - intros Hr. unfold move_column_down.
    by replace (cl_currentRow w <? Z.of_nat (length (cl_items w)) - 1) with false
      by (symmetry; apply Z.ltb_ge; lia).
Qed.

Lemma move_column_down_swaps_witness :
  let it c := mkItem c c true Checked in
  let w := mkColumnList [it "a"; it "b"; it "c"] 1 ∅ [] in
  cl_items (move_column_down w) = [it "a"; it "c"; it "b"] ∧
  cl_currentRow (move_column_down w) = 2.
Proof.
  intros it w.
  destruct (move_column_down_swaps w [it "a"] (it "b") (it "c") [] eq_refl)
    as [H _].
  rewrite (H eq_refl). split; reflexivity.
Defined.

(** X6. Moving the current item up and then down again, or down and then
    up again, gives the widget back as it was: same items in the same
    order, same current row. *)
Theorem move_column_up_down_roundtrip (w : ColumnListWidget) :
  (0 < cl_currentRow w < Z.of_nat (length (cl_items w)) →
   move_column_down (move_column_up w) = w) ∧
  (0 ≤ cl_currentRow w < Z.of_nat (length (cl_items w)) - 1 →
   move_column_up (move_column_down w) = w).
Proof.
  split; intros Hr.
  - destruct (split_two (cl_items w) (Z.to_nat (cl_currentRow w - 1)))
      as (l1 & a & b & l2 & Hi & Hl); [lia|].
    assert (Hrow : cl_currentRow w = Z.of_nat (length l1) + 1) by lia.
    rewrite (move_up_swap w l1 a b l2 Hi Hrow).
    rewrite (move_down_swap _ l1 b a l2); [|done..].
    cbn [saved_column_widths all_columns_with_widths].
    rewrite <- Hi, <- Hrow. by destruct w.
  - destruct (split_two (cl_items w) (Z.to_nat (cl_currentRow w)))
      as (l1 & a & b & l2 & Hi & Hl); [lia|].
    assert (Hrow : cl_currentRow w = Z.of_nat (length l1)) by lia.
    rewrite (move_down_swap w l1 a b l2 Hi Hrow).
    rewrite (move_up_swap _ l1 b a l2); [|done..].
    cbn [saved_column_widths all_columns_with_widths].
    rewrite <- Hi, <- Hrow. by destruct w.
Qed.

Lemma move_column_up_down_roundtrip_witness :
  let it c := mkItem c c true Checked in
  let w := mkColumnList [it "a"; it "b"; it "c"] 1 ∅ [] in
  move_column_down (move_column_up w) = w ∧
  move_column_up (move_column_down w) = w.
Proof.
  intros it w. destruct (move_column_up_down_roundtrip w) as [H1 H2].
  split; [apply H1 | apply H2]; cbn; lia.
Defined.

End Lists.

Module Columns.
Import Dialog PySpec PyTheory DialogSpec DialogTheory Combos.

(** ** Filling a list widget from a stored view and reading it back *)

(** Checks [columns_ok] on a concrete host and column list. *)
Ltac host_columns :=
  unfold columns_ok; cbn [fmap list_fmap fst];
  repeat (apply List.Forall_cons;
          [split; [eexists; reflexivity | split; reflexivity]|]);
  apply List.Forall_nil.

Lemma remove_first_NoDup x l :
  NoDup l → x ∈ l →
  NoDup (list_remove_first x l) ∧
  ∀ y, y ∈ list_remove_first x l ↔ y ∈ l ∧ y ≠ x.
Proof.
  intros Hnd Hin. pose proof (remove_first_perm x l Hin) as Hp.
  rewrite <- Hp in Hnd. apply NoDup_cons in Hnd as [Hx Hnd].
  split; [done|]. intros y.
  assert (Hy : y ∈ l ↔ y = x ∨ y ∈ list_remove_first x l).
  { by rewrite <- elem_of_cons, Hp. }
  rewrite Hy. split.
  - intros Hin'. split; [by right|]. by intros ->.
  - by intros [[->|Hin'] Hne].
Qed.

Lemma filter_ext_elem {A} (P Q : A → Prop) `{!∀ x, Decision (P x)}
    `{!∀ x, Decision (Q x)} (l : list A) :
  (∀ x, x ∈ l → (P x ↔ Q x)) → filter P l = filter Q l.
Proof.
  induction l as [|x l IH]; intros Hext; [done|].
  rewrite !filter_cons.
  rewrite IH by (intros y Hy; apply Hext; by right).
  destruct (decide (P x)) as [HP|HP], (decide (Q x)) as [HQ|HQ]; try done.
  - exfalso. apply HQ, Hext; [by left|done].
  - exfalso. apply HP, Hext; [by left|done].
Qed.

Lemma NoDup_fst_functional {V} (l : list (string * V)) k v1 v2 :
  NoDup l.*1 → (k, v1) ∈ l → (k, v2) ∈ l → v1 = v2.
Proof.
  induction l as [|[k' v'] l IH]; intros Hnd H1 H2.
  - by apply elem_of_nil in H1.
  - cbn in Hnd. apply NoDup_cons in Hnd as [Hk Hnd].
    apply elem_of_cons in H1 as [H1|H1], H2 as [H2|H2].
    + congruence.
    + injection H1 as -> ->. exfalso. apply Hk.
      by apply (list_elem_of_fmap_2 fst l (k', v2)).
    + injection H2 as -> ->. exfalso. apply Hk.
      by apply (list_elem_of_fmap_2 fst l (k', v1)).
    + by apply IH.
Qed.

Lemma dict_of_pairs_None {V} (l : list (string * V)) k :
  k ∉ l.*1 → dict_of_pairs l !! k = None.
Proof.
  intros Hn. destruct (dict_of_pairs l !! k) as [v|] eqn:E; [|done].
  apply dict_of_pairs_lookup in E as [E|E]; [|done].
  exfalso. apply Hn. by apply (list_elem_of_fmap_2 fst l (k, v)).
Qed.

Lemma populate_stored_exact g cols rem :
  Forall (column_name_ok g) rem → NoDup rem → NoDup cols.*1 →
  ∃ its rest,
    ColumnList.populate_stored g cols rem = Ok (its, rest) ∧
    data <$> its = (filter (λ p, p.1 ∈ rem) cols).*1 ∧
    Forall (λ it, data it ≠ "ondevice" → checkState it = Checked) its ∧
    NoDup rest ∧ Forall (column_name_ok g) rest ∧
    (∀ c, c ∈ rest ↔ c ∈ rem ∧ c ∉ cols.*1).
Proof.
  revert rem. induction cols as [|[c wd] cols IH]; intros rem Hok Hnd Hnc.
  - exists [], rem. do 5 (split; [done|]). intros c. split; [|by intros []].
    intros Hin. split; [done|]. apply not_elem_of_nil.
  - cbn in Hnc. apply NoDup_cons in Hnc as [Hc Hnc].
    cbn [ColumnList.populate_stored]. case_bool_decide as Hin.
    + destruct (remove_first_NoDup c rem Hnd Hin) as [Hnd' Hel].
      assert (Hok' : Forall (column_name_ok g) (list_remove_first c rem)).
      { apply Forall_forall. intros y Hy%Hel.
        eapply Forall_forall in Hok; [done|]. apply Hy. }
      destruct (IH _ Hok' Hnd' Hnc) as (its & rest & Hrun & Hd & Hch & Hndr & Hokr & Hr).
      assert (Hh : is_Some (headers g !! c)).
      { eapply Forall_forall in Hok; [|exact Hin]. apply Hok. }
      destruct (ColumnListTheory.populate_column_ok g c true Hh)
        as (it & Hit & Hdit & _ & Hcit).
      rewrite Hit. cbn [bind]. rewrite Hrun. cbn [bind].
      exists (it :: its), rest. split; [done|]. split.
      { rewrite filter_cons_True by done. rewrite !fmap_cons. cbn [fst].
        rewrite Hdit, Hd. do 2 f_equal.
        apply filter_ext_elem. intros p Hp. rewrite Hel. split; [by intros []|].
        intros Hpr. split; [done|]. intros Heq. apply Hc. rewrite <- Heq.
        by apply (list_elem_of_fmap_2 fst). }
      split. { constructor; [|done]. intros Hne. rewrite Hdit in Hne.
               by rewrite (Hcit Hne). }
      split; [done|]. split; [done|].
      intros c'. rewrite Hr, Hel. rewrite fmap_cons.
      cbn [fst]. rewrite not_elem_of_cons. tauto.
    + destruct (IH _ Hok Hnd Hnc) as (its & rest & Hrun & Hd & Hch & Hndr & Hokr & Hr).
      exists its, rest. split; [done|]. split.
      { by rewrite filter_cons_False. }
      split; [done|]. split; [done|]. split; [done|].
      intros c'. rewrite Hr. rewrite fmap_cons. cbn [fst].
      rewrite not_elem_of_cons. split; [|tauto].
      intros [H1 H2]. split; [done|]. split; [|done]. by intros ->.
Qed.

Lemma get_data_unticked its r sw all :
  Forall (λ it, checkState it = Unchecked) its →
  NoDup (data <$> its) →
  Forall (λ it, strip (data it) = data it) its →
  ColumnList.get_data (mkColumnList its r sw all) =
    if bool_decide ("ondevice" ∈ data <$> its)
    then [("ondevice",
           default (ColumnList.use_width "ondevice" all) (sw !! "ondevice"))]
    else [].
Proof.
  induction its as [|it its IH]; intros Hu Hnd Hs.
  - by rewrite bool_decide_eq_false_2 by apply not_elem_of_nil.
  - apply Forall_cons in Hu as [Hu1 Hu], Hs as [Hs1 Hs].
    rewrite fmap_cons in Hnd. apply NoDup_cons in Hnd as [Hn Hnd].
    specialize (IH Hu Hnd Hs). unfold ColumnList.get_data in *.
    cbn [cl_items omap list_omap saved_column_widths all_columns_with_widths] in *.
    rewrite Hu1, Hs1. cbn [is_checked orb].
    destruct (String.eqb_spec (data it) "ondevice") as [He|Hne].
    + rewrite He in *. rewrite IH.
      rewrite (bool_decide_eq_false_2 _ Hn).
      rewrite bool_decide_eq_true_2; [done|]. rewrite fmap_cons, He. by left.
    + rewrite IH. rewrite fmap_cons.
      destruct (decide ("ondevice" ∈ data <$> its)) as [Hi|Hi].
      * rewrite !bool_decide_eq_true_2; [done| by right | done].
      * rewrite !bool_decide_eq_false_2; [done| |done].
        rewrite not_elem_of_cons. split; [congruence|done].
Qed.

(** X7. Filling the columns list from a stored view and reading it back:
    [populate] never fails on the host's columns, and [get_data] then
    gives the stored columns that the host still has, in the stored
    order and with the stored widths, followed by the device column with
    the host's width when the host has it and the view did not.  Stored
    columns the host no longer has are dropped. *)
Theorem columns_populate_then_get_data (g : Gui)
    (cols all : list (string * Z)) (w : ColumnListWidget) :
  columns_ok g all → NoDup all.*1 → NoDup cols.*1 →
  ∃ w',
    ColumnList.populate g cols all w = Ok w' ∧
    ColumnList.get_data w' =
      filter (λ p, p.1 ∈ all.*1) cols ++
      (if bool_decide ("ondevice" ∈ all.*1 ∧ "ondevice" ∉ cols.*1)
       then [("ondevice", ColumnList.use_width "ondevice" all)]
       else []).
Proof.
  intros Hok Hnd Hnc. unfold ColumnList.populate.
  destruct (populate_stored_exact g cols all.*1 Hok Hnd Hnc)
    as (its & rest & Hrun & Hd & Hch & Hndr & Hokr & Hr).
  rewrite Hrun. cbn [bind].
  destruct (ColumnListTheory.populate_rest_ok g rest Hokr)
    as (its' & Hrun' & Hd' & _ & Hu).
  rewrite Hrun'. cbn [bind]. eexists. split; [reflexivity|].
  rewrite ColumnListTheory.get_data_app. f_equal.
  - apply ColumnListTheory.get_data_kept; [done|done| |].
    + intros c wd [_ Hin]%list_elem_of_filter.
      apply dict_of_pairs_functional; [|done].
      intros v1 v2. by apply NoDup_fst_functional.
    + intros c [[c' wd] [-> [Hin _]%list_elem_of_filter]]%list_elem_of_fmap.
      eapply Forall_forall in Hok; [|exact Hin]. apply Hok.
  - rewrite get_data_unticked; [|done|by rewrite Hd'|].
    2:{ apply Forall_forall. intros it Hit.
        assert (Hin : data it ∈ rest).
        { rewrite <- Hd'. by apply list_elem_of_fmap_2. }
        eapply Forall_forall in Hokr; [|exact Hin]. apply Hokr. }
    rewrite Hd'. destruct (decide ("ondevice" ∈ rest)) as [Hi|Hi].
    + pose proof Hi as [Hi1 Hi2]%Hr.
      rewrite !bool_decide_eq_true_2 by done.
      by rewrite dict_of_pairs_None.
    + rewrite !bool_decide_eq_false_2; [done| |done]. by rewrite <- Hr.
Qed.

Lemma columns_populate_then_get_data_witness :
  let cols := [("title", 120); ("gone", 50); ("authors", 90)] in
  let all := [("authors", 80); ("title", 100); ("size", -1); ("ondevice", 30)] in
  ∃ w', ColumnList.populate example_gui cols all (mkColumnList [] (-1) ∅ []) = Ok w' ∧
        ColumnList.get_data w' = [("title", 120); ("authors", 90); ("ondevice", 30)].
Proof.
  intros cols all.
  destruct (columns_populate_then_get_data example_gui cols all
              (mkColumnList [] (-1) ∅ [])) as (w' & Hrun & Hget).
  - host_columns.
  - apply (bool_decide_unpack _). vm_compute. reflexivity.
  - apply (bool_decide_unpack _). vm_compute. reflexivity.
  - exists w'. split; [exact Hrun|]. rewrite Hget. vm_compute. reflexivity.
Defined.

Lemma sort_populate_stored_exact g cols rem :
  Forall (column_name_ok g) rem → NoDup rem → NoDup cols.*1 →
  ∃ its rest,
    SortList.populate_stored g cols rem = Ok (its, rest) ∧
    data <$> its = sort_data <$> filter (λ p, p.1 ∈ rem) cols ∧
    Forall (λ it, checkState it = Checked) its ∧
    Forall (column_name_ok g) rest.
Proof.
  revert rem. induction cols as [|[c a] cols IH]; intros rem Hok Hnd Hnc.
  - by exists [], rem.
  - cbn in Hnc. apply NoDup_cons in Hnc as [Hc Hnc].
    cbn [SortList.populate_stored]. case_bool_decide as Hin.
    + destruct (remove_first_NoDup c rem Hnd Hin) as [Hnd' Hel].
      assert (Hok' : Forall (column_name_ok g) (list_remove_first c rem)).
      { apply Forall_forall. intros y Hy%Hel.
        eapply Forall_forall in Hok; [done|]. apply Hy. }
      destruct (IH _ Hok' Hnd' Hnc) as (its & rest & Hrun & Hd & Hch & Hokr).
      assert (Hh : is_Some (headers g !! c)).
      { eapply Forall_forall in Hok; [|exact Hin]. apply Hok. }
      destruct (SortListTheory.sort_populate_column_ok g c a true Hh)
        as (it & Hit & Hdit & Hcit).
      rewrite Hit. cbn [bind]. rewrite Hrun. cbn [bind].
      exists (it :: its), rest. split; [done|]. split.
      { rewrite filter_cons_True by done. rewrite !fmap_cons.
        rewrite Hdit, Hd. do 2 f_equal.
        apply filter_ext_elem. intros p Hp. rewrite Hel. split; [by intros []|].
        intros Hpr. split; [done|]. intros Heq. apply Hc. rewrite <- Heq.
        by apply (list_elem_of_fmap_2 fst). }
      split; [|done]. by constructor.
    + destruct (IH _ Hok Hnd Hnc) as (its & rest & Hrun & Hd & Hch & Hokr).
      exists its, rest. split; [done|]. split; [|done].
      by rewrite filter_cons_False.
Qed.

(** X8. Filling the sort list from a stored view and reading it back:
    [populate] never fails on the host's columns, and [get_data] then
    gives the stored sort columns that the host still has, in the stored
    order and with the stored directions; the direction survives being
    written into the item as text and parsed again. *)
Theorem sort_populate_then_get_data (g : Gui)
    (sorts all : list (string * Z)) (w : ColumnListWidget) :
  columns_ok g all → NoDup all.*1 → NoDup sorts.*1 →
  ∃ w',
    SortList.populate g sorts all w = Ok w' ∧
    SortList.get_data w' = Ok (filter (λ p, p.1 ∈ all.*1) sorts).
Proof.
  intros Hok Hnd Hnc. unfold SortList.populate.
  destruct (sort_populate_stored_exact g sorts all.*1 Hok Hnd Hnc)
    as (its & rest & Hrun & Hd & Hch & Hokr).
  rewrite Hrun. cbn [bind].
  destruct (SortListTheory.sort_populate_rest_ok g rest Hokr)
    as (its' & Hrun' & _ & Hu).
  rewrite Hrun'. cbn [bind]. eexists. split; [reflexivity|].
  unfold SortList.get_data. cbn [cl_items].
  rewrite SortListTheory.get_data_items_app.
  rewrite (SortListTheory.get_data_items_checked g its _ Hd); [|  |done].
  - cbn [bind]. rewrite SortListTheory.get_data_items_unchecked by done.
    cbn [bind]. by rewrite app_nil_r.
  - apply Forall_forall.
    intros c [[c' a] [-> [Hin _]%list_elem_of_filter]]%list_elem_of_fmap.
    eapply Forall_forall in Hok; [|exact Hin]. done.
Qed.

Lemma sort_populate_then_get_data_witness :
  let sorts := [("title", 1); ("gone", 0); ("size", 0)] in
  let all := [("authors", 80); ("title", 100); ("size", -1); ("ondevice", 30)] in
  ∃ w', SortList.populate example_gui sorts all (mkColumnList [] (-1) ∅ []) = Ok w' ∧
        SortList.get_data w' = Ok [("title", 1); ("size", 0)].
Proof.
  intros sorts all.
  destruct (sort_populate_then_get_data example_gui sorts all
              (mkColumnList [] (-1) ∅ [])) as (w' & Hrun & Hget).
  - host_columns.
  - apply (bool_decide_unpack _). vm_compute. reflexivity.
  - apply (bool_decide_unpack _). vm_compute. reflexivity.
  - exists w'. split; [exact Hrun|]. rewrite Hget. vm_compute. reflexivity.
Defined.

(** X9. [change_sort] on the current item of the sort list rewrites the
    direction in that item's data and nothing else: the column name,
    every other item, the ticks, the order and the current row stay. *)
Theorem change_sort_sets_direction (g : Gui) (asc : Z) (w : ColumnListWidget)
    (cas : list (string * Z)) (r : nat) (c : string) (a : Z) :
  data <$> cl_items w = sort_data <$> cas →
  cl_currentRow w = Z.of_nat r →
  cas !! r = Some (c, a) →
  column_name_ok g c →
  ∃ w',
    SortList.change_sort asc w = Ok w' ∧
    data <$> cl_items w' = sort_data <$> <[r := (c, asc)]> cas ∧
    checkState <$> cl_items w' = checkState <$> cl_items w ∧
    text <$> cl_items w' = text <$> cl_items w ∧
    cl_currentRow w' = cl_currentRow w.
Proof.
  intros Hd Hr Hc Hok. unfold SortList.change_sort. rewrite Hr.
  replace (Z.of_nat r <? 0) with false by (symmetry; apply Z.ltb_ge; lia).
  rewrite Nat2Z.id.
  assert (Hl : (data <$> cl_items w) !! r = Some (sort_data (c, a))).
  { by rewrite Hd, list_lookup_fmap, Hc. }
  rewrite list_lookup_fmap in Hl.
  destruct (cl_items w !! r) as [item|] eqn:Hitem; [|done].
  injection Hl as Hdi. rewrite Hdi.
  rewrite (SortListTheory.parse_sort_data g c a Hok).
  unfold index. cbn [lookup list_lookup bind]. eexists. split; [reflexivity|].
  cbn [cl_items cl_currentRow]. rewrite !list_fmap_insert. cbn [data checkState text].
  split; [by rewrite Hd|].
  split; [apply list_insert_id; by rewrite list_lookup_fmap, Hitem|].
  split; [apply list_insert_id; by rewrite list_lookup_fmap, Hitem|done].
Qed.

Lemma change_sort_sets_direction_witness :
  let w := mkColumnList [mkItem "Title" "title|0" true Checked;
                         mkItem "Size (MB)" "size|0" true Unchecked] 0 ∅ [] in
  ∃ w', SortList.change_sort 1 w = Ok w' ∧
        data <$> cl_items w' = ["title|1"; "size|0"].
Proof.
  intros w.
  destruct (change_sort_sets_direction example_gui 1 w
              [("title", 0); ("size", 0)] 0 "title" 0)
    as (w' & Hrun & Hd & _); [reflexivity|reflexivity|reflexivity| |].
  - vm_compute. split; [eexists; reflexivity|split; reflexivity].
  - exists w'. split; [exact Hrun|]. rewrite Hd. vm_compute. reflexivity.
Defined.

End Columns.

Module HostColumns.
Import Dialog PySpec PyTheory DialogSpec DialogTheory Combos.

(** ** [get_current_columns] *)

Lemma mapM_keyed_positions (positions : gmap string Z) colmap keyed :
  mapM (fun x => p ← getitem positions x ; Ok (p, x)) colmap = Ok keyed →
  Forall (λ px, positions !! px.2 = Some px.1) keyed.
Proof.
  revert keyed. induction colmap as [|x l IH]; intros keyed; cbn [mapM].
  - intros [= <-]. constructor.
  - unfold getitem. destruct (positions !! x) as [p|] eqn:E; [|done].
    cbn [bind]. destruct (mapM _ l) as [ys|]; [|done]. cbn [bind].
    intros [= <-]. constructor; [done|]. by apply IH.
Qed.

Lemma mapM_keyed_Ok (positions : gmap string Z) colmap :
  Forall (λ c, is_Some (positions !! c)) colmap →
  ∃ keyed, mapM (fun x => p ← getitem positions x ; Ok (p, x)) colmap = Ok keyed.
Proof.
  induction 1 as [|x l [p Hp] _ [ys IH]]; cbn [mapM]; [by eexists|].
  rewrite IH. unfold getitem. rewrite Hp. cbn [bind]. by eexists.
Qed.

Lemma mapM_keyed_Raise (positions : gmap string Z) colmap c :
  c ∈ colmap → positions !! c = None →
  ∃ k, mapM (fun x => p ← getitem positions x ; Ok (p, x)) colmap =
         Raise (KeyError k) ∧
       k ∈ colmap ∧ positions !! k = None.
Proof.
  intros Hin Hc. induction colmap as [|x l IH]; [by apply elem_of_nil in Hin|].
  cbn [mapM]. unfold getitem at 1. destruct (positions !! x) as [p|] eqn:E.
  - cbn [bind]. apply elem_of_cons in Hin as [->|Hin]; [congruence|].
    destruct (IH Hin) as (k & -> & Hk & Hn). exists k.
    split; [done|]. split; [by right|done].
  - exists x. split; [done|]. split; [by left|done].
Qed.

Lemma StronglySorted_with {A} (R : relation A) (P : A → Prop) l :
  StronglySorted R l → Forall P l →
  StronglySorted (λ a b, R a b ∧ P a ∧ P b) l.
Proof.
  induction 1 as [|x l Hl IH Hx]; intros HP; [constructor|].
  apply Forall_cons in HP as [Px HP]. constructor; [by apply IH|].
  apply Forall_forall. intros y Hy. split; [|split; [done|]].
  - eapply Forall_forall in Hx; [exact Hx|done].
  - eapply Forall_forall in HP; [exact HP|done].
Qed.

Lemma StronglySorted_filter {A} (R : relation A) (P : A → Prop)
    `{!∀ x, Decision (P x)} l :
  StronglySorted R l → StronglySorted R (filter P l).
Proof.
  induction 1 as [|x l Hl IH Hx]; [constructor|].
  rewrite filter_cons. destruct (decide (P x)); [|done].
  constructor; [done|]. apply Forall_forall.
  intros y [_ Hy]%list_elem_of_filter.
  eapply Forall_forall in Hx; [exact Hx|done].
Qed.

Lemma sort_by_position_sorted positions colmap l :
  sort_by_position positions colmap = Ok l → (2 ≤ length colmap)%nat →
  StronglySorted (by_position positions) l.
Proof.
  unfold sort_by_position. intros Hrun Hlen.
  replace (length colmap <? 2)%nat with false in Hrun
    by (symmetry; apply Nat.ltb_ge; lia).
  destruct (listsort_runs _ _ _ _) as [runs|]; [|done]. cbn [bind] in Hrun.
  destruct (mapM _ colmap) as [keyed|] eqn:E; [|done]. cbn [bind] in Hrun.
  injection Hrun as <-.
  pose proof (mapM_keyed_positions _ _ _ E) as Hpos.
  eapply (StronglySorted_fmap snd
            (λ a b : Z * string,
               a.1 ≤ b.1 ∧ positions !! a.2 = Some a.1 ∧
               positions !! b.2 = Some b.1)).
  - intros [pa a] [pb b] (Hle & Ha & Hb). by exists pa, pb.
  - apply (StronglySorted_with (λ a b : Z * string, a.1 ≤ b.1)
             (λ px, positions !! px.2 = Some px.1)).
    + apply (sorted_sorted (λ a b : Z * string, a.1 <=? b.1)).
      * intros x y. apply Z.leb_le.
      * intros x y. lia.
      * intros x y z. lia.
    + by rewrite sorted_perm.
Qed.

Lemma current_width_fst state (l : list string) :
  ((λ col, if bool_decide (col ∈ hidden_columns state) then (col, -1)
           else (col, default (-1) (column_sizes state !! col))) <$> l).*1 = l.
Proof.
  induction l as [|x l IH]; [done|]. rewrite !fmap_cons, IH.
  by destruct (bool_decide _).
Qed.

Lemma current_width_fmap state (l : list string) :
  (λ col, if bool_decide (col ∈ hidden_columns state) then (col, -1)
          else (col, default (-1) (column_sizes state !! col))) <$> l =
  (λ c, (c, current_width state c)) <$> l.
Proof.
  apply list_fmap_ext. intros _ c _. unfold current_width.
  by destruct (bool_decide _).
Qed.

(** X10. What [get_current_columns] returns: the host's columns, or with
    [visible_only] those that are not hidden together with the device
    column, each once for each time the host lists it; each with [-1]
    when it is hidden, else with its size, or [-1] when the host has no
    size for it; and in the order of the host's positions when the host
    has at least two columns. *)
Theorem get_current_columns_sorted_widths (g : Gui)
    (defaults visible_only : bool) (cols : list (string * Z)) :
  get_current_columns g defaults visible_only = Ok cols →
  let state := columns_state g defaults in
  cols.*1 ≡ₚ
    (if visible_only
     then filter (λ c, c ∉ hidden_columns state ∨ c = "ondevice") (column_map g)
     else column_map g) ∧
  cols = (λ c, (c, current_width state c)) <$> cols.*1 ∧
  ((2 ≤ length (column_map g))%nat →
   StronglySorted (by_position (column_positions state)) cols.*1).
Proof.
  intros Hrun state. unfold get_current_columns in Hrun. fold state in Hrun.
  destruct (sort_by_position _ _) as [l|] eqn:E; [|done]. cbn [bind] in Hrun.
  injection Hrun as <-. rewrite current_width_fst.
  pose proof (sort_by_position_perm _ _ _ E) as Hperm.
  split; [|split].
  - destruct visible_only; [by rewrite Hperm|done].
  - apply current_width_fmap.
  - intros Hlen. pose proof (sort_by_position_sorted _ _ _ E Hlen) as Hs.
    destruct visible_only; [by apply StronglySorted_filter|done].
Qed.

Lemma get_current_columns_sorted_widths_witness :
  ∃ cols,
    get_current_columns example_gui false true = Ok cols ∧
    cols = [("title", 100); ("authors", 80); ("ondevice", -1)] ∧
    cols.*1 ≡ₚ filter (λ c, c ∉ hidden_columns example_state ∨ c = "ondevice")
                      (column_map example_gui).
Proof.
  eexists. split; [vm_compute; reflexivity|]. split; [reflexivity|].
  refine (proj1 (get_current_columns_sorted_widths example_gui false true _ _)).
  vm_compute. reflexivity.
Defined.

(** *** The look-ups of the sort *)

Lemma islt_Ok positions x y :
  is_Some (positions !! x) → is_Some (positions !! y) →
  ∃ b, islt positions x y = Ok b.
Proof.
  intros [px Hx] [py Hy]. unfold islt, getitem. rewrite Hx, Hy.
  cbn [bind]. by eexists.
Qed.

Lemma islt_Raise positions x y e :
  islt positions x y = Raise e →
  ∃ k, e = KeyError k ∧ (k = x ∨ k = y) ∧ positions !! k = None.
Proof.
  unfold islt, getitem. destruct (positions !! x) as [px|] eqn:Hx; cbn [bind].
  - destruct (positions !! y) as [py|] eqn:Hy; cbn [bind]; [done|].
    intros [= <-]. exists y. auto.
  - intros [= <-]. exists x. auto.
Qed.

Lemma run_more_Ok positions d prev rest n :
  is_Some (positions !! prev) →
  Forall (λ c, is_Some (positions !! c)) rest →
  ∃ m, run_more positions d prev rest n = Ok m.
Proof.
  intros Hprev Hrest. revert prev n Hprev.
  induction Hrest as [|c rest Hc _ IH]; intros prev n Hprev; cbn [run_more].
  - by eexists.
  - destruct (islt_Ok positions c prev Hc Hprev) as [lt ->]. cbn [bind].
    destruct (Bool.eqb lt d); [by apply IH | by eexists].
Qed.

Lemma run_more_le positions d prev rest n m :
  run_more positions d prev rest n = Ok m → (n ≤ m ≤ n + length rest)%nat.
Proof.
  revert prev n. induction rest as [|c rest IH]; intros prev n; cbn [run_more].
  - intros [= <-]. cbn. lia.
  - destruct (islt positions c prev) as [lt|]; [|done]. cbn [bind].
    destruct (Bool.eqb lt d).
    + intros H%IH. cbn [length]. lia.
    + intros [= <-]. cbn [length]. lia.
Qed.

Lemma run_more_Raise positions d prev rest n e :
  run_more positions d prev rest n = Raise e →
  ∃ k, e = KeyError k ∧ k ∈ prev :: rest ∧ positions !! k = None.
Proof.
  revert prev n. induction rest as [|c rest IH]; intros prev n; cbn [run_more];
    [done|].
  destruct (islt positions c prev) as [lt|e'] eqn:E; cbn [bind].
  - destruct (Bool.eqb lt d); [|done].
    intros (k & -> & Hk & Hn)%IH. exists k. split; [done|]. split; [|done].
    by right.
  - intros [= <-]. apply islt_Raise in E as (k & -> & [->| ->] & Hn).
    + exists c. split; [done|]. split; [|done]. right. by left.
    + exists prev. split; [done|]. split; [|done]. by left.
Qed.

Lemma count_run_Ok positions seg :
  Forall (λ c, is_Some (positions !! c)) seg →
  ∃ n, count_run positions seg = Ok n.
Proof.
  intros Hseg. destruct seg as [|x0 [|x1 rest]]; cbn [count_run];
    [by eexists | by eexists |].
  apply Forall_cons in Hseg as [H0 Hseg]. apply Forall_cons in Hseg as [H1 Hseg].
  destruct (islt_Ok positions x1 x0 H1 H0) as [d ->]. cbn [bind].
  by apply run_more_Ok.
Qed.

Lemma count_run_le positions seg n :
  count_run positions seg = Ok n → seg ≠ [] → (1 ≤ n ≤ length seg)%nat.
Proof.
  destruct seg as [|x0 [|x1 rest]]; cbn [count_run]; [done| |].
  - intros [= <-] _. cbn. lia.
  - destruct (islt positions x1 x0); [|done]. cbn [bind].
    intros H%run_more_le _. cbn [length]. lia.
Qed.

Lemma count_run_Raise positions seg e :
  count_run positions seg = Raise e →
  ∃ k, e = KeyError k ∧ k ∈ seg ∧ positions !! k = None.
Proof.
  destruct seg as [|x0 [|x1 rest]]; cbn [count_run]; [done|done|].
  destruct (islt positions x1 x0) as [d|e'] eqn:E; cbn [bind].
  - intros (k & -> & Hk & Hn)%run_more_Raise. exists k.
    split; [done|]. split; [by right|done].
  - intros [= <-]. apply islt_Raise in E as (k & -> & Hk & Hn). exists k.
    split; [done|]. split; [|done]. rewrite !elem_of_cons. tauto.
Qed.

Lemma mapM_getitem_Ok (positions : gmap string Z) l :
  Forall (λ c, is_Some (positions !! c)) l →
  ∃ ps, mapM (getitem positions) l = Ok ps.
Proof.
  induction 1 as [|x l [p Hp] _ [ps IH]]; cbn [mapM]; [by eexists|].
  unfold getitem at 1. rewrite Hp. cbn [bind]. rewrite IH. by eexists.
Qed.

Lemma mapM_getitem_Raise (positions : gmap string Z) l e :
  mapM (getitem positions) l = Raise e →
  ∃ k, e = KeyError k ∧ k ∈ l ∧ positions !! k = None.
Proof.
  induction l as [|x l IH]; cbn [mapM]; [done|].
  unfold getitem at 1. destruct (positions !! x) as [p|] eqn:Hx; cbn [bind].
  - destruct (mapM _ l) as [ps|e'] eqn:E; cbn [bind]; [done|].
    intros [= <-]. destruct (IH eq_refl) as (k & -> & Hk & Hn).
    exists k. split; [done|]. split; [by right|done].
  - intros [= <-]. exists x. split; [done|]. split; [by left|done].
Qed.

Lemma mapM_getitem_first_missing (positions : gmap string Z) pre k post :
  Forall (λ c, is_Some (positions !! c)) pre → positions !! k = None →
  mapM (getitem positions) (pre ++ k :: post) = Raise (KeyError k).
Proof.
  intros Hpre Hk. induction Hpre as [|x l [p Hp] _ IH]; cbn [mapM app].
  - unfold getitem. by rewrite Hk.
  - unfold getitem at 1. rewrite Hp. cbn [bind]. by rewrite IH.
Qed.

Lemma force_pos (n minrun len : nat) :
  (1 ≤ n ≤ len)%nat →
  (1 ≤ (if (n <? minrun)%nat then Nat.min minrun len else n) ≤ len)%nat.
Proof.
  intros Hn. destruct (Nat.ltb_spec n minrun); lia.
Qed.

Lemma listsort_runs_Ok fuel positions minrun seg :
  Forall (λ c, is_Some (positions !! c)) seg → (length seg ≤ fuel)%nat →
  listsort_runs fuel positions minrun seg = Ok tt.
Proof.
  revert seg. induction fuel as [|fuel IH]; intros seg Hseg Hlen.
  - destruct seg as [|x0 [|x1 rest]]; cbn in Hlen; [done|lia|lia].
  - destruct seg as [|x0 [|x1 rest]]; cbn [listsort_runs]; [done| |].
    + apply Forall_cons in Hseg as [[p Hp] _]. unfold getitem. by rewrite Hp.
    + destruct (count_run_Ok positions _ Hseg) as [n Hn]. rewrite Hn.
      cbn [bind].
      pose proof (count_run_le _ _ _ Hn ltac:(done)) as Hle.
      pose proof (force_pos n minrun _ Hle) as Hf.
      set (force := if (n <? minrun)%nat then _ else n) in *.
      destruct (mapM_getitem_Ok positions
                  (take (force - n) (drop n (x0 :: x1 :: rest)))) as [ps ->].
      { by apply Forall_take, Forall_drop. }
      cbn [bind]. apply IH; [by apply Forall_drop|].
      rewrite length_drop. lia.
Qed.

Lemma listsort_runs_Raise fuel positions minrun seg e :
  (length seg ≤ fuel)%nat →
  listsort_runs fuel positions minrun seg = Raise e →
  ∃ k, e = KeyError k ∧ k ∈ seg ∧ positions !! k = None.
Proof.
  revert seg. induction fuel as [|fuel IH]; intros seg Hlen.
  - destruct seg as [|x0 [|x1 rest]]; cbn in Hlen; [done|lia|lia].
  - destruct seg as [|x0 [|x1 rest]]; cbn [listsort_runs]; [done| |].
    + unfold getitem. destruct (positions !! x0) eqn:Hx; cbn [bind]; [done|].
      intros [= <-]. exists x0. split; [done|]. split; [by left|done].
    + destruct (count_run positions _) as [n|e'] eqn:Hn; cbn [bind].
      2:{ intros [= <-]. by apply count_run_Raise in Hn. }
      pose proof (count_run_le _ _ _ Hn ltac:(done)) as Hle.
      pose proof (force_pos n minrun _ Hle) as Hf.
      set (force := if (n <? minrun)%nat then _ else n) in *.
      destruct (mapM _ (take _ _)) as [ps|e'] eqn:Hps; cbn [bind].
      * intros (k & -> & Hk & Hnone)%IH; [|rewrite length_drop; lia].
        exists k. split; [done|]. split; [|done].
        apply list_elem_of_lookup in Hk as [i Hi]. rewrite lookup_drop in Hi.
        by eapply list_elem_of_lookup_2.
      * intros [= <-]. apply mapM_getitem_Raise in Hps as (k & -> & Hk & Hnone).
        exists k. split; [done|]. split; [|done].
        apply list_elem_of_lookup in Hk as [i Hi].
        apply lookup_take_Some in Hi as [Hi _]. rewrite lookup_drop in Hi.
        by eapply list_elem_of_lookup_2.
Qed.

Lemma minrun_small n : (n < 64)%nat → merge_compute_minrun n = n.
Proof.
  intros Hn. unfold merge_compute_minrun. destruct n as [|n]; [done|].
  cbn [minrun_loop].
  replace (64 <=? S n)%nat with false by (symmetry; apply Nat.leb_gt; lia).
  lia.
Qed.

Lemma run_more_first_missing positions d prev pre k post n :
  is_Some (positions !! prev) →
  Forall (λ c, is_Some (positions !! c)) pre → positions !! k = None →
  run_more positions d prev (pre ++ k :: post) n = Raise (KeyError k) ∨
  ∃ j, (j < length pre)%nat ∧
       run_more positions d prev (pre ++ k :: post) n = Ok (n + j)%nat.
Proof.
  intros Hprev Hpre Hk. revert prev n Hprev.
  induction Hpre as [|c pre Hc _ IH]; intros prev n Hprev; cbn [run_more app].
  - left. unfold islt, getitem. by rewrite Hk.
  - destruct (islt_Ok positions c prev Hc Hprev) as [lt ->]. cbn [bind].
    destruct (Bool.eqb lt d).
    + destruct (IH c (S n) Hc) as [->|(j & Hj & ->)]; [by left|].
      right. exists (S j). split; [cbn [length]; lia|]. f_equal. lia.
    + right. exists 0%nat. split; [cbn [length]; lia|]. f_equal. lia.
Qed.

(** With fewer than 64 columns the whole list is one run, and the
    columns are looked up in the order second, first, third, fourth and
    so on. *)
Lemma sort_by_position_first_missing positions x0 x1 pre k post :
  (length (x0 :: x1 :: pre ++ k :: post) < 64)%nat →
  is_Some (positions !! x1) → is_Some (positions !! x0) →
  Forall (λ c, is_Some (positions !! c)) pre → positions !! k = None →
  sort_by_position positions (x0 :: x1 :: pre ++ k :: post) =
    Raise (KeyError k).
Proof.
  intros Hlen H1 H0 Hpre Hk. unfold sort_by_position.
  rewrite (minrun_small _ Hlen).
  set (seg := x0 :: x1 :: pre ++ k :: post) in *.
  assert (Hseg : length seg = S (S (length pre + S (length post)))).
  { unfold seg. cbn [length]. rewrite length_app. cbn [length]. lia. }
  replace (length seg <? 2)%nat with false by (symmetry; apply Nat.ltb_ge; lia).
  rewrite Hseg at 1. unfold seg at 2. cbn [listsort_runs count_run].
  destruct (islt_Ok positions x1 x0 H1 H0) as [d ->]. cbn [bind].
  destruct (run_more_first_missing positions d x1 pre k post 2 H1 Hpre Hk)
    as [->|(j & Hj & ->)]; [done|].
  cbn [bind]. fold seg.
  replace (2 + j <? length seg)%nat with true by (symmetry; apply Nat.ltb_lt; lia).
  rewrite Nat.min_id.
  replace (drop (2 + j) seg) with (drop j pre ++ k :: post).
  2:{ unfold seg. cbn [drop Nat.add]. rewrite drop_app_le by lia. done. }
  rewrite take_ge.
  2:{ rewrite length_app, length_drop. cbn [length]. lia. }
  rewrite mapM_getitem_first_missing; [done| by apply Forall_drop | done].
Qed.

(** X11. When [get_current_columns] succeeds and when it raises.  With
    fewer than two columns nothing is compared and it succeeds; with a
    position for every column it succeeds.  With two columns or more,
    one of them without a position, it raises [KeyError] for a column
    that has none: for the second column of the host's list when that
    has none, else for the first when that has none, and else, with
    fewer than 64 columns, for the first in the list that has none. *)
Theorem get_current_columns_needs_positions (g : Gui)
    (defaults visible_only : bool) :
  let positions := column_positions (columns_state g defaults) in
  ((length (column_map g) < 2)%nat ∨
   Forall (λ c, is_Some (positions !! c)) (column_map g) →
   ∃ cols, get_current_columns g defaults visible_only = Ok cols) ∧
  ((2 ≤ length (column_map g))%nat →
   ∀ c, c ∈ column_map g → positions !! c = None →
   ∃ k, get_current_columns g defaults visible_only = Raise (KeyError k) ∧
        k ∈ column_map g ∧ positions !! k = None) ∧
  (∀ x0 x1 rest, column_map g = x0 :: x1 :: rest →
     (positions !! x1 = None →
      get_current_columns g defaults visible_only = Raise (KeyError x1)) ∧
     (is_Some (positions !! x1) → positions !! x0 = None →
      get_current_columns g defaults visible_only = Raise (KeyError x0)) ∧
     (is_Some (positions !! x1) → is_Some (positions !! x0) →
      (length (column_map g) < 64)%nat →
      ∀ pre k post, rest = pre ++ k :: post →
        Forall (λ c, is_Some (positions !! c)) pre → positions !! k = None →
        get_current_columns g defaults visible_only = Raise (KeyError k))).
Proof.
  intros positions. unfold get_current_columns. fold positions.
  split; [|split].
  - unfold sort_by_position. intros [Hlen|Hall].
    + replace (length (column_map g) <? 2)%nat with true
        by (symmetry; apply Nat.ltb_lt; lia).
      cbn [bind]. by eexists.
    + destruct (length (column_map g) <? 2)%nat; [cbn [bind]; by eexists|].
      rewrite (listsort_runs_Ok _ positions _ _ Hall) by done. cbn [bind].
      destruct (mapM_keyed_Ok positions _ Hall) as [keyed ->].
      cbn [bind]. by eexists.
  - unfold sort_by_position. intros Hlen c Hin Hc.
    replace (length (column_map g) <? 2)%nat with false
      by (symmetry; apply Nat.ltb_ge; lia).
    destruct (listsort_runs _ positions _ _) as [runs|e] eqn:E; cbn [bind].
    + destruct (mapM_keyed_Raise positions _ c Hin Hc) as (k & -> & Hk & Hn).
      by exists k.
    + apply listsort_runs_Raise in E as (k & -> & Hk & Hn); [|done].
      by exists k.
  - intros x0 x1 rest Hmap. rewrite Hmap. split; [|split].
    + intros H1. unfold sort_by_position. cbn [length Nat.ltb Nat.leb].
      cbn [listsort_runs count_run]. unfold islt, getitem. by rewrite H1.
    + intros [p1 H1] H0. unfold sort_by_position. cbn [length Nat.ltb Nat.leb].
      cbn [listsort_runs count_run]. unfold islt, getitem. by rewrite H1, H0.
    + intros H1 H0 Hlen pre k post -> Hpre Hk.
      by rewrite sort_by_position_first_missing.
Qed.

Lemma get_current_columns_needs_positions_witness :
  let g := mkGui (headers example_gui) ["rating"; "tags"; "title"]
                 example_state example_state [] lower in
  get_current_columns g false false = Raise (KeyError "tags").
Proof.
  intros g.
  destruct (get_current_columns_needs_positions g false false) as (_ & _ & H).
  destruct (H "rating" "tags" ["title"] eq_refl) as [H1 _].
  apply H1. vm_compute. reflexivity.
Defined.

End HostColumns.

Module Store.
Import Prefs PrefsSpec PrefsTheory.

(** ** [get_library_config] on a library that has a record *)

Lemma get_library_config_stored_spec (d : db) (w : world) (l : loc)
    (pp p c : gmap string val) :
  defaults_intact (heap w) →
  heap w !! plugin_prefs = Some (ODict pp) →
  (pp !! "libraries" = None ∨
   ∃ ll ls, pp !! "libraries" = Some (VRef ll) ∧
            heap w !! ll = Some (ODict ls) ∧ ls !! library_id d = None) →
  heap w !! prefs d = Some (ODict p) →
  p !! namespaced PREFS_NAMESPACE PREFS_KEY_SETTINGS = Some (VRef l) →
  heap w !! l = Some (ODict c) →
  ∃ w',
    get_library_config d w = Ok (VRef l, w') ∧
    json_exists w' = json_exists w ∧
    (∀ l', is_Some (heap w !! l') → l' ≠ l → l' ≠ prefs d →
           heap w' !! l' = heap w !! l') ∧
    (if is_current_version (default (VNum 0) (c !! KEY_SCHEMA_VERSION))
     then db_writes w' = db_writes w ∧
          ∀ l', is_Some (heap w !! l') → heap w' !! l' = heap w !! l'
     else db_writes w' =
            (prefs d, namespaced PREFS_NAMESPACE PREFS_KEY_SETTINGS, VRef l)
              :: db_writes w ∧
          ∃ c1, heap w' !! l = Some (ODict c1) ∧
                c1 !! KEY_SCHEMA_VERSION = Some (VNum DEFAULT_SCHEMA_VERSION)).
Proof.
  intros Hd Hpp Hleg Hp Hkey Hc.
  destruct (deepcopy_defaults _ Hd)
    as (r & vs & h' & Hcopy & Hr & Hvs & Hne & Hr' & Hvs' & Hframe).
  assert (Hold : ∀ l', is_Some (heap w !! l') → h' !! l' = heap w !! l').
  { intros l' [o Ho]. apply Hframe; intros ->; congruence. }
  assert (Hp' : h' !! prefs d = Some (ODict p)) by (by rewrite Hold).
  assert (Hc' : h' !! l = Some (ODict c)) by (by rewrite Hold).
  destruct (migrate_library_config_spec d l c p (set_heap h' w) Hc' Hp')
    as (w1 & c1 & Hmig & Hc1 & Hcase & _ & _).
  exists w1.
  assert (Hrun : get_library_config d w = Ok (VRef l, w1)).
  { unfold get_library_config, get_library_uuid. cbv zeta.
    rewrite (get_dict_Ok _ _ _ Hpp). cbn [bind].
    destruct Hleg as [Hl | (ll & ls & Hl & Hll & Hid)]; rewrite Hl;
      [| cbn [as_ref bind]; rewrite (get_dict_Ok _ _ _ Hll); cbn [bind];
         rewrite Hid];
      cbn [bind]; rewrite Hcopy; cbn [bind];
      unfold get_namespaced; cbn [set_heap heap];
      rewrite (get_dict_Ok _ _ _ Hp'); cbn [bind]; rewrite Hkey;
      cbn [default from_option id bind]; rewrite Hmig; reflexivity. }
  split; [exact Hrun|].
  destruct (is_current_version (default (VNum 0) (c !! KEY_SCHEMA_VERSION))).
  - subst w1. cbn [set_heap heap json_exists db_writes].
    split; [done|]. split; [|split; [done|]].
    + intros l' Hl' _ _. by apply Hold.
    + exact Hold.
  - destruct Hcase as (Hk & Hw & Hj & _ & _ & Hframe1).
    split; [exact Hj|]. split; [|split; [exact Hw|by exists c1]].
    intros l' Hl' H1 H2. rewrite Hframe1 by done. by apply Hold.
Qed.

(** X12. A library whose database already holds a record, and which has
    no entry in the legacy blob, gets that very record back, not a copy;
    the legacy file is not touched; when the record's schema version is
    current nothing is written and no object that existed changes;
    when it is stale the version is stamped on the record and one row is
    written. *)
Theorem get_library_config_returns_stored (d : db) (w : world) (l : loc)
    (pp p c : gmap string val) :
  defaults_intact (heap w) →
  heap w !! plugin_prefs = Some (ODict pp) →
  (pp !! "libraries" = None ∨
   ∃ ll ls, pp !! "libraries" = Some (VRef ll) ∧
            heap w !! ll = Some (ODict ls) ∧ ls !! library_id d = None) →
  heap w !! prefs d = Some (ODict p) →
  p !! namespaced PREFS_NAMESPACE PREFS_KEY_SETTINGS = Some (VRef l) →
  heap w !! l = Some (ODict c) →
  ∃ w',
    get_library_config d w = Ok (VRef l, w') ∧
    json_exists w' = json_exists w ∧
    (∀ l', is_Some (heap w !! l') → l' ≠ l → l' ≠ prefs d →
           heap w' !! l' = heap w !! l') ∧
    (if is_current_version (default (VNum 0) (c !! KEY_SCHEMA_VERSION))
     then db_writes w' = db_writes w ∧
          ∀ l', is_Some (heap w !! l') → heap w' !! l' = heap w !! l'
     else db_writes w' =
            (prefs d, namespaced PREFS_NAMESPACE PREFS_KEY_SETTINGS, VRef l)
              :: db_writes w ∧
          ∃ c1, heap w' !! l = Some (ODict c1) ∧
                c1 !! KEY_SCHEMA_VERSION = Some (VNum DEFAULT_SCHEMA_VERSION)).
Proof. apply get_library_config_stored_spec. Qed.

Lemma get_library_config_returns_stored_witness :
  let d := mkDb "uuid-1" 4%positive in
  let c := <[KEY_SCHEMA_VERSION := VNum DEFAULT_SCHEMA_VERSION]>
             (default_library_dict 6%positive) in
  let p : gmap string val :=
    {[ namespaced PREFS_NAMESPACE PREFS_KEY_SETTINGS := VRef 5%positive ]} in
  let w := mkWorld (<[4%positive := ODict p]>
                    (<[5%positive := ODict c]>
                    (<[6%positive := ODict ∅]> (module_heap ∅))))
                   false [] in
  ∃ w', get_library_config d w = Ok (VRef 5%positive, w') ∧
        db_writes w' = [] ∧ json_exists w' = false.
Proof.
  intros d c p w.
  destruct (get_library_config_returns_stored d w 5%positive ∅ p c)
    as (w' & Hrun & Hj & _ & Hcase).
  - split; vm_compute; reflexivity.
  - vm_compute. reflexivity.
  - left. vm_compute. reflexivity.
  - vm_compute. reflexivity.
  - vm_compute. reflexivity.
  - vm_compute. reflexivity.
  - exists w'. split; [exact Hrun|].
    match type of Hcase with
    | if ?b then _ else _ =>
        assert (Hv : b = true) by (vm_compute; reflexivity);
        rewrite Hv in Hcase
    end.
    destruct Hcase as [Hw _]. rewrite Hw, Hj. split; reflexivity.
Defined.

(** X13. Asking twice: after the first call has given a library with
    nothing stored its record, a second call gives the same record,
    writes no further row and changes no object. *)
Theorem get_library_config_twice (d : db) (w : world) :
  defaults_intact (heap w) →
  nothing_stored d (heap w) →
  prefs d ≠ plugin_prefs →
  (∀ pp ll, heap w !! plugin_prefs = Some (ODict pp) →
            pp !! "libraries" = Some (VRef ll) → ll ≠ prefs d) →
  ∃ r w1 w2,
    get_library_config d w = Ok (VRef r, w1) ∧
    get_library_config d w1 = Ok (VRef r, w2) ∧
    db_writes w2 = db_writes w1 ∧
    json_exists w2 = json_exists w1 ∧
    ∀ l, is_Some (heap w1 !! l) → heap w2 !! l = heap w1 !! l.
Proof.
  intros Hd Hn Hsep Hsep2.
  destruct (get_library_config_fresh d w Hd Hn)
    as (r & vs & w1 & Hrun & Hr & Hvs & Hne & [Hrec Hviews] & Hframe & Hget).
  destruct Hn as (Hp1 & Hp2 & (p & Hp & Hnone) & (pp & Hpp & Hleg)).
  destruct Hd as [Hd1 Hd2].
  assert (Hother : ∀ l o, heap w !! l = Some o → l ≠ prefs d →
                          heap w1 !! l = Some o).
  { intros l o Ho Hl. rewrite Hframe; [done| | |done]; intros ->; congruence. }
  unfold get_namespaced in Hget.
  destruct (get_dict (heap w1) (prefs d)) as [p1|] eqn:Hp1'; [|done].
  cbn [bind] in Hget. apply get_dict_inv in Hp1'.
  destruct (p1 !! namespaced PREFS_NAMESPACE PREFS_KEY_SETTINGS) as [v|] eqn:Hk;
    [|done].
  cbn in Hget. injection Hget as ->.
  destruct (get_library_config_stored_spec d w1 r pp p1
              (<[KEY_SCHEMA_VERSION := VNum DEFAULT_SCHEMA_VERSION]>
                 (default_library_dict vs)))
    as (w2 & Hrun2 & Hj & _ & Hcase);
    [ | | | exact Hp1' | exact Hk | exact Hrec | ].
  - split; [apply Hother | apply Hother]; done.
  - apply Hother; [done|]. by apply not_eq_sym.
  - destruct Hleg as [Hl | (ll & ls & Hl & Hll & Hid)]; [by left|].
    right. exists ll, ls. split; [done|]. split; [|done].
    apply Hother; [done|]. by eapply Hsep2.
  - rewrite lookup_insert_eq in Hcase. cbn [default from_option id] in Hcase.
    rewrite current_version_is_current in Hcase. destruct Hcase as [Hw Hsame].
    by exists r, w1, w2.
Qed.

Lemma get_library_config_twice_witness :
  let d := mkDb "uuid-1" 4%positive in
  let w := mkWorld (<[4%positive := ODict ∅]> (module_heap ∅)) false [] in
  ∃ r w1 w2,
    get_library_config d w = Ok (VRef r, w1) ∧
    get_library_config d w1 = Ok (VRef r, w2) ∧
    db_writes w2 = db_writes w1.
Proof.
  intros d w.
  destruct (get_library_config_twice d w) as (r & w1 & w2 & H1 & H2 & H3 & _).
  - split; vm_compute; reflexivity.
  - split; [discriminate|]. split; [discriminate|]. split.
    + exists ∅. split; vm_compute; reflexivity.
    + exists ∅. split; [vm_compute; reflexivity|]. left. vm_compute. reflexivity.
  - discriminate.
  - intros pp ll Hpp Hl. vm_compute in Hpp. injection Hpp as <-.
    vm_compute in Hl. discriminate.
  - exists r, w1, w2. split; [exact H1|]. split; [exact H2|exact H3].
Defined.

(** ** [get_library_config] on a library of the legacy blob *)

(** X14. A library that still has its record in the legacy blob: the
    call returns that record and takes it out of the blob, deleting
    ['libraries'] from the blob when it was the last one, and the legacy
    file is written.  The record is stored in the library's database,
    with the current version stamped on it, only when its schema version
    is stale; a legacy record that already carries the current version is
    returned without being written anywhere. *)
Theorem get_library_config_moves_legacy_record (d : db) (w : world)
    (ll l : loc) (pp ls c p : gmap string val) :
  heap w !! plugin_prefs = Some (ODict pp) →
  pp !! "libraries" = Some (VRef ll) →
  heap w !! ll = Some (ODict ls) →
  ls !! library_id d = Some (VRef l) →
  heap w !! l = Some (ODict c) →
  heap w !! prefs d = Some (ODict p) →
  ll ≠ plugin_prefs → l ≠ ll → l ≠ plugin_prefs →
  prefs d ≠ ll → prefs d ≠ plugin_prefs → l ≠ prefs d →
  let ls' := delete (library_id d) ls in
  ∃ w',
    get_library_config d w = Ok (VRef l, w') ∧
    heap w' !! ll = Some (ODict ls') ∧
    heap w' !! plugin_prefs =
      Some (ODict (if bool_decide (size ls' = 0%nat)
                   then delete "libraries" pp else pp)) ∧
    json_exists w' = true ∧
    (∀ l', l' ≠ ll → l' ≠ plugin_prefs → l' ≠ l → l' ≠ prefs d →
           heap w' !! l' = heap w !! l') ∧
    (if is_current_version (default (VNum 0) (c !! KEY_SCHEMA_VERSION))
     then db_writes w' = db_writes w ∧
          heap w' !! prefs d = Some (ODict p) ∧
          heap w' !! l = Some (ODict c)
     else db_writes w' =
            (prefs d, namespaced PREFS_NAMESPACE PREFS_KEY_SETTINGS, VRef l)
              :: db_writes w ∧
          get_namespaced d PREFS_NAMESPACE PREFS_KEY_SETTINGS VNone w' =
            Ok (VRef l) ∧
          heap w' !! l =
            Some (ODict (<[KEY_SCHEMA_VERSION := VNum DEFAULT_SCHEMA_VERSION]> c))).
Proof.
  intros Hpp Hlibs Hll Hid Hc Hp N1 N2 N3 N4 N5 N6 ls'.
  set (h1 := <[ll := ODict ls']> (heap w)).
  set (pp' := if bool_decide (size ls' = 0%nat)
              then delete "libraries" pp else pp).
  set (w2 := mkWorld (<[plugin_prefs := ODict pp']> h1) true (db_writes w)).
  assert (Hstep :
    (if bool_decide (size ls' = 0%nat)
     then json_delitem "libraries" (set_heap h1 w)
     else json_setitem "libraries" (VRef ll) (set_heap h1 w)) = Ok w2).
  { unfold json_delitem, json_setitem, set_heap. cbn [heap json_exists db_writes].
    rewrite (get_dict_Ok h1 plugin_prefs pp)
      by (unfold h1; by rewrite lookup_insert_ne).
    cbn [bind]. unfold w2, pp'. destruct (bool_decide _).
    - by rewrite Hlibs.
    - by rewrite (insert_id pp "libraries" (VRef ll) Hlibs). }
  assert (Hc2 : heap w2 !! l = Some (ODict c)).
  { unfold w2, h1. cbn [heap]. by rewrite !lookup_insert_ne. }
  assert (Hp2 : heap w2 !! prefs d = Some (ODict p)).
  { unfold w2, h1. cbn [heap]. by rewrite !lookup_insert_ne. }
  destruct (migrate_library_config_spec d l c p w2 Hc2 Hp2)
    as (w3 & c1 & Hmig & Hc1 & Hcase & _ & _).
  exists w3.
  assert (Hrun : get_library_config d w = Ok (VRef l, w3)).
  { unfold get_library_config, get_library_uuid. cbv zeta.
    rewrite (get_dict_Ok _ _ _ Hpp). cbn [bind]. rewrite Hlibs.
    cbn [as_ref bind]. rewrite (get_dict_Ok _ _ _ Hll). cbn [bind].
    rewrite Hid. fold ls'. fold h1. rewrite Hstep. cbn [bind].
    rewrite Hmig. reflexivity. }
  split; [exact Hrun|].
  assert (Hll2 : heap w2 !! ll = Some (ODict ls')).
  { unfold w2, h1. cbn [heap]. rewrite lookup_insert_ne by done.
    apply lookup_insert_eq. }
  assert (Hpp2 : heap w2 !! plugin_prefs = Some (ODict pp')).
  { unfold w2. cbn [heap]. apply lookup_insert_eq. }
  assert (Hfr2 : ∀ l', l' ≠ ll → l' ≠ plugin_prefs → heap w2 !! l' = heap w !! l').
  { intros l' H1 H2. unfold w2, h1. cbn [heap]. by rewrite !lookup_insert_ne. }
  destruct (is_current_version (default (VNum 0) (c !! KEY_SCHEMA_VERSION))).
  - subst w3. split; [exact Hll2|]. split; [exact Hpp2|]. split; [done|].
    split; [|done]. intros l' H1 H2 _ _. by apply Hfr2.
  - destruct Hcase as (_ & Hw & Hj & Hget & Hc1eq & Hframe).
    split; [by rewrite Hframe|]. split; [by rewrite Hframe|].
    split; [by rewrite Hj|]. split.
    + intros l' H1 H2 H3 H4. rewrite Hframe by done. by apply Hfr2.
    + split; [exact Hw|]. split; [exact Hget|]. by rewrite Hc1, (Hc1eq N6).
Qed.


Lemma get_library_config_moves_legacy_record_witness :
  ∃ w', get_library_config legacy_db legacy_world = Ok (VRef 6%positive, w') ∧
        heap w' !! 5%positive = Some (ODict ∅) ∧
        json_exists w' = true ∧
        length (db_writes w') = 1%nat.
Proof.
  destruct (get_library_config_moves_legacy_record legacy_db legacy_world
              5%positive 6%positive
              {[ "libraries" := VRef 5%positive ]}
              {[ "uuid-1" := VRef 6%positive ]}
              (default_library_dict 7%positive) ∅)
    as (w' & Hrun & Hll & _ & Hj & _ & Hcase);
    try discriminate; try (vm_compute; reflexivity).
  exists w'. split; [exact Hrun|].
  match type of Hcase with
  | if ?b then _ else _ =>
      assert (Hv : b = false) by (vm_compute; reflexivity);
      rewrite Hv in Hcase
  end.
  destruct Hcase as (Hw & _).
  split; [|split; [exact Hj|rewrite Hw; reflexivity]].
  etrans; [exact Hll|]. vm_compute. reflexivity.
Defined.

End Store.

Module Views.
Import Dialog PySpec PyTheory DialogSpec DialogTheory ExampleRun Combos.

(** ** What the dialog keeps true *)

Lemma sorted_keys_NoDup {V} (vs : gmap string V) : NoDup (sorted_keys vs).
Proof. unfold sorted_keys. rewrite sorted_perm. apply NoDup_fst_map_to_list. Qed.

Lemma sorted_keys_same_keys (vs vs' : gmap string view_info) :
  same_keys vs vs' → sorted_keys vs' = sorted_keys vs.
Proof.
  intros Hk. apply (StronglySorted_unique String.le);
    [apply sorted_keys_sorted | apply sorted_keys_sorted |].
  apply NoDup_Permutation; [apply sorted_keys_NoDup | apply sorted_keys_NoDup |].
  intros t. rewrite !sorted_keys_elem. apply Hk.
Qed.

Lemma sorted_keys_nil (vs : gmap string view_info) :
  sorted_keys vs = [] ↔ vs = ∅.
Proof.
  split.
  - intros Hnil. apply map_empty. intros k.
    destruct (vs !! k) as [v|] eqn:E; [|done].
    assert (Hin : k ∈ sorted_keys vs) by (apply sorted_keys_elem; by eexists).
    rewrite Hnil in Hin. by apply elem_of_nil in Hin.
  - intros ->. destruct (sorted_keys ∅) as [|k l] eqn:E; [done|].
    assert (Hin : k ∈ sorted_keys (∅ : gmap string view_info))
      by (rewrite E; by left).
    apply sorted_keys_elem in Hin as [v Hv]. by rewrite lookup_empty in Hv.
Qed.

Lemma get_current_columns_any g defaults v1 v2 cols :
  get_current_columns g defaults v1 = Ok cols →
  ∃ cols', get_current_columns g defaults v2 = Ok cols'.
Proof.
  unfold get_current_columns. destruct (sort_by_position _ _); [|done].
  cbn [bind]. intros _. by eexists.
Qed.

(** Refilling the form, on a state whose mapping and view combo box have
    just been rebuilt. *)
Lemma rebuild_settled s :
  Pre s →
  get_current_columns (gui s) false false = Ok (all_columns s) →
  items (vc_combo (select_view_combo s)) = sorted_keys (views s) →
  ∃ st2,
    select_view_combo_index_changed false s = Ok st2 ∧ Inv st2 ∧
    same_frame s st2 ∧
    ∀ avc, items (vc_combo avc) = LAST_VIEW_ITEM :: sorted_keys (views s) →
      Settled (mkConfig (gui st2) (views st2) (all_columns st2) (view_name st2)
                 (select_view_combo st2) (columns_list st2) (sort_list st2)
                 (apply_search_checkbox st2) (saved_search_combo st2)
                 (apply_restriction_checkbox st2)
                 (search_restriction_combo st2) (auto_apply_checkbox st2) avc).
Proof.
  intros HP Hcols Hitems.
  destruct (select_false_spec s HP) as (st2 & Hsel & HI & Hfr).
  exists st2. do 3 (split; [done|]). intros avc Havc.
  destruct Hfr as (Hg & Hv & Ha & Hsc & _).
  constructor; cbn [gui views all_columns view_name select_view_combo
                    columns_list sort_list auto_view_combo].
  - by rewrite Hg, Ha.
  - by rewrite Hsc, Hv.
  - by rewrite Hv.
  - intros Hn. rewrite (inv_name st2 HI), Hsc in Hn.
    rewrite (select_none s Hn) in Hsel. by injection Hsel as <-.
Qed.

Lemma config_eta st :
  mkConfig (gui st) (views st) (all_columns st) (view_name st)
           (select_view_combo st) (columns_list st) (sort_list st)
           (apply_search_checkbox st) (saved_search_combo st)
           (apply_restriction_checkbox st) (search_restriction_combo st)
           (auto_apply_checkbox st) (auto_view_combo st) = st.
Proof. by destruct st. Qed.

Lemma Settled_set_form st cl sl asc ssc arc src aac avc :
  Settled st →
  items (vc_combo avc) = items (vc_combo (auto_view_combo st)) →
  (truthy_opt (view_name st) = false → cl_items cl = [] ∧ cl_items sl = []) →
  Settled (set_form cl sl asc ssc arc src aac avc st).
Proof.
  intros [] Ha Hl. constructor; cbn; try done. by rewrite Ha.
Qed.

Lemma list_step_nil a w : cl_items w = [] → cl_items (list_step a w) = [].
Proof.
  intros Hw. pose proof (list_step_data a w) as Hp. rewrite Hw in Hp.
  apply Permutation_nil_r in Hp. by apply fmap_nil_inv in Hp.
Qed.

Lemma add_view_settled text ok st :
  Inv st → Settled st →
  ∃ st' o, add_view text ok st = Ok (st', o) ∧ Settled st'.
Proof.
  intros HI HS. unfold add_view.
  destruct ok; cbn [negb]; [|by eexists _, _].
  destruct (clashes None (strip text) (views st)) eqn:Hc; [by eexists _, _|].
  destruct (Inv_persist_ok st HI) as (vs1 & Hp & Hk).
  rewrite Hp. cbn [bind]. cbn [set_views gui views all_columns view_name
    select_view_combo columns_list sort_list apply_search_checkbox
    saved_search_combo apply_restriction_checkbox search_restriction_combo
    auto_apply_checkbox auto_view_combo].
  match goal with
  | |- ∃ _ _, bind ?m _ = _ ∧ _ => assert (Hvi : ∃ vi, m = Ok vi)
  end.
  { destruct (view_name st) as [v|] eqn:Hname; cbn [truthy_opt].
    - destruct (truthy v) eqn:Hv.
      + destruct (Inv_view_exists st v HI Hname Hv) as [Hex _].
        apply Hk in Hex as [old Hold]. unfold getitem.
        cbn [default from_option id]. rewrite Hold. cbn [bind]. by eexists.
      + destruct (get_current_columns_any _ _ _ true _ (settled_columns st HS))
          as [cols ->]. cbn [bind]. by eexists.
    - destruct (get_current_columns_any _ _ _ true _ (settled_columns st HS))
        as [cols ->]. cbn [bind]. by eexists. }
  destruct Hvi as [vi ->]. cbn [bind].
  match goal with
  | |- ∃ _ _, bind (select_view_combo_index_changed false ?s) _ = _ ∧ _ =>
      destruct (rebuild_settled s) as (st2 & Hsel & HI2 & Hfr & HS2)
  end.
  { apply (Pre_rebuilt st); [done| |].
    - apply keys_stripped_insert. eapply same_keys_stripped; [done|]. apply HI.
    - apply unique_insert.
      + eapply same_keys_unique; [done|]. apply HI.
      + intros Hcol%(collides_same_keys _ _ _ _ Hk)%clashes_spec. congruence. }
  { cbn. apply HS. }
  { cbn -[populate_combo]. rewrite populate_combo_items.
    by rewrite (proj1 (inv_special st HI)). }
  rewrite Hsel. cbn [bind]. eexists _, _. split; [reflexivity|].
  apply HS2. cbn -[populate_combo]. rewrite populate_combo_items.
  by rewrite (Inv_special_auto st2 HI2).
Qed.

Lemma rename_view_settled text ok st :
  Inv st → Settled st →
  ∃ st' o, rename_view text ok st = Ok (st', o) ∧ Settled st'.
Proof.
  intros HI HS. unfold rename_view.
  destruct (view_name st) as [v|] eqn:Hname; cbn [truthy_opt negb];
    [|by eexists _, _].
  destruct (truthy v) eqn:Hv; cbn [negb]; [|by eexists _, _].
  destruct ok; cbn [negb]; [|by eexists _, _].
  cbn [default from_option id].
  destruct (String.eqb (strip text) v); [by eexists _, _|].
  destruct (clashes (Some v) (strip text) (views st)) eqn:Hc;
    [by eexists _, _|].
  destruct (Inv_persist_ok st HI) as (vs1 & Hp & Hk).
  rewrite Hp. cbn [bind]. cbn [set_views gui views all_columns view_name
    select_view_combo columns_list sort_list apply_search_checkbox
    saved_search_combo apply_restriction_checkbox search_restriction_combo
    auto_apply_checkbox auto_view_combo].
  destruct (Inv_view_exists st v HI Hname Hv) as [Hex _].
  apply Hk in Hex as [old Hold]. unfold getitem. rewrite Hold. cbn [bind].
  match goal with
  | |- ∃ _ _, bind (select_view_combo_index_changed false ?s) _ = _ ∧ _ =>
      destruct (rebuild_settled s) as (st2 & Hsel & HI2 & Hfr & HS2)
  end.
  { apply (Pre_rebuilt st); [done| |].
    - apply keys_stripped_insert, keys_stripped_delete.
      eapply same_keys_stripped; [done|]. apply HI.
    - apply unique_rename.
      + eapply same_keys_unique; [done|]. apply HI.
      + intros Hcol%(collides_same_keys _ _ _ _ Hk)%clashes_spec. congruence. }
  { cbn. apply HS. }
  { cbn -[populate_combo]. rewrite populate_combo_items.
    by rewrite (proj1 (inv_special st HI)). }
  rewrite Hsel. cbn [bind]. eexists _, _. split; [reflexivity|].
  apply HS2. cbn -[populate_combo].
  destruct (String.eqb _ _); rewrite populate_combo_items;
    by rewrite (Inv_special_auto st2 HI2).
Qed.

Lemma delete_view_settled confirmed st :
  Inv st → Settled st →
  ∃ st', delete_view confirmed st = Ok st' ∧ Settled st'.
Proof.
  intros HI HS. unfold delete_view.
  destruct (view_name st) as [v|] eqn:Hname; cbn [truthy_opt negb];
    [|by eexists].
  destruct (truthy v) eqn:Hv; cbn [negb]; [|by eexists].
  destruct confirmed; cbn [negb]; [|by eexists].
  cbn [default from_option id].
  destruct (Inv_view_exists st v HI Hname Hv) as [[old Hold] _].
  unfold getitem. rewrite Hold. cbn [bind].
  match goal with
  | |- ∃ _, bind (select_view_combo_index_changed false ?s) _ = _ ∧ _ =>
      destruct (rebuild_settled s) as (st2 & Hsel & HI2 & Hfr & HS2)
  end.
  { apply (Pre_rebuilt st); [done| |].
    - apply keys_stripped_delete, HI.
    - apply unique_delete, HI. }
  { cbn. apply HS. }
  { cbn -[populate_combo]. rewrite populate_combo_items.
    by rewrite (proj1 (inv_special st HI)). }
  rewrite Hsel. cbn [bind]. eexists. split; [reflexivity|].
  apply HS2. cbn -[populate_combo]. rewrite populate_combo_items.
  by rewrite (Inv_special_auto st2 HI2).
Qed.

Lemma items_set_index i c :
  items (if (0 <=? i) && (i <? count c) then setCurrentIndex i c else c) = items c.
Proof. by destruct (_ && _). Qed.

Lemma choose_view_settled i st :
  Inv st → Settled st →
  ∃ st', step (ChooseView i) st = Ok st' ∧ Settled st'.
Proof.
  intros HI HS. cbn [step].
  destruct (_ && _); [|by eexists].
  rewrite select_true_unfold.
  match goal with
  | |- ∃ _, bind (persist_view_config ?s) _ = _ ∧ _ =>
      destruct (persist_ok s) as (vs1 & Hp & Hk)
  end.
  { apply HI. }
  { cbn. intros v Hname Hv. split; [by apply (Inv_view_exists st v)|].
    apply (inv_lists st HI). by rewrite Hname. }
  rewrite Hp. cbn [bind]. cbn in Hk.
  match goal with
  | |- ∃ _, select_view_combo_index_changed false ?s = _ ∧ _ =>
      destruct (rebuild_settled s) as (st2 & Hsel & HI2 & Hfr & HS2)
  end.
  { destruct HI. constructor; cbn; try done.
    - by eapply same_keys_stripped.
    - by eapply same_keys_unique.
    - intros t. rewrite (Hk t). apply inv_select0. }
  { cbn. apply HS. }
  { cbn. rewrite (settled_select st HS). symmetry.
    by apply sorted_keys_same_keys. }
  exists st2. split; [exact Hsel|].
  rewrite <- (config_eta st2). apply HS2.
  destruct Hfr as (_ & _ & _ & _ & _ & ->). cbn.
  rewrite (settled_auto st HS). f_equal. symmetry.
  by apply sorted_keys_same_keys.
Qed.

Lemma change_sort_settled asc st :
  Inv st → Settled st →
  ∃ st',
    (if SortList.item_selection_changed (sort_list st) then
       sl' ← SortList.change_sort asc (sort_list st) ;
       Ok (set_form (columns_list st) sl' (apply_search_checkbox st)
             (saved_search_combo st) (apply_restriction_checkbox st)
             (search_restriction_combo st) (auto_apply_checkbox st)
             (auto_view_combo st) st)
     else Ok st) = Ok st' ∧ Settled st'.
Proof.
  intros HI HS.
  destruct (SortList.item_selection_changed (sort_list st)) eqn:Hsel;
    [|by eexists].
  destruct (truthy_opt (view_name st)) eqn:Hn.
  - destruct (inv_lists st HI Hn) as [_ Hsl].
    destruct (change_sort_ok _ _ asc _ (inv_columns st HI) Hsl) as (sl' & -> & _).
    cbn [bind]. eexists. split; [reflexivity|].
    apply Settled_set_form; [done|done|]. intros Hn'. congruence.
  - destruct (settled_lists st HS Hn) as [_ Hnil].
    unfold SortList.item_selection_changed in Hsel. rewrite Hnil in Hsel.
    destruct (_ <? 0); [done|]. by rewrite lookup_nil in Hsel.
Qed.

Lemma step_settled a st :
  Inv st → Settled st → ∃ st', step a st = Ok st' ∧ Settled st'.
Proof.
  intros HI HS.
  destruct a as [t ok|t ok|confirmed|i|la|la| | |c|i|c|i|c|i];
    try (by apply choose_view_settled);
    try (by apply change_sort_settled); cbn [step].
  - destruct (add_view_settled t ok st HI HS) as (st' & o & -> & HS').
    cbn [bind fst]. by eexists.
  - destruct (rename_view_settled t ok st HI HS) as (st' & o & -> & HS').
    cbn [bind fst]. by eexists.
  - by apply delete_view_settled.
  - eexists. split; [reflexivity|]. apply Settled_set_form; [done|done|].
    intros Hn. destruct (settled_lists st HS Hn). split; [|done].
    by apply list_step_nil.
  - eexists. split; [reflexivity|]. apply Settled_set_form; [done|done|].
    intros Hn. destruct (settled_lists st HS Hn). split; [done|].
    by apply list_step_nil.
  - eexists. split; [reflexivity|].
    apply Settled_set_form; [done|done|apply HS].
  - eexists. split; [reflexivity|].
    apply Settled_set_form; [done|done|apply HS].
  - eexists. split; [reflexivity|].
    apply Settled_set_form; [done|done|apply HS].
  - eexists. split; [reflexivity|].
    apply Settled_set_form; [done|done|apply HS].
  - eexists. split; [reflexivity|].
    apply Settled_set_form; [done|done|apply HS].
  - eexists. split; [reflexivity|].
    apply Settled_set_form; [done| |apply HS].
    cbn [vc_combo]. apply items_set_index.
Qed.

Lemma run_settled acts st :
  Inv st → Settled st →
  ∃ st', run acts st = Ok st' ∧ Inv st' ∧ Settled st'.
Proof.
  revert st. induction acts as [|a acts IH]; intros st HI HS; cbn [run].
  - by exists st.
  - destruct (step_settled a st HI HS) as (st1 & Hstep & HS1).
    rewrite Hstep. cbn [bind]. apply IH; [|done]. by eapply step_Inv.
Qed.

Lemma run_app acts1 acts2 st st1 :
  run acts1 st = Ok st1 → run (acts1 ++ acts2) st = run acts2 st1.
Proof.
  revert st. induction acts1 as [|a acts IH]; intros st; cbn [run app].
  - by intros [= <-].
  - destruct (step a st) as [st'|]; [|done]. cbn [bind]. apply IH.
Qed.

Lemma init_settled g library all :
  host_ok g → library_ok library →
  get_current_columns g false false = Ok all →
  ∃ st, init g library = Ok st ∧ Inv st ∧ Settled st ∧
        gui st = g ∧ all_columns st = all ∧
        lib_views library = Some (views st) ∧
        auto_apply_checkbox st =
          check_of_bool (default false (lib_autoApplyView library)) ∧
        auto_view_combo st =
          select_view (Some (default LAST_VIEW_ITEM (lib_viewToApply library)))
                      (new_ViewComboBox (views st) true) ∧
        select_view_combo st =
          match lib_lastView library with
          | Some last_view =>
              if bool_decide (is_Some (views st !! last_view))
              then select_view (Some last_view)
                               (new_ViewComboBox (views st) false)
              else new_ViewComboBox (views st) false
          | None => new_ViewComboBox (views st) false
          end.
Proof.
  intros [Hcols Hss] (vs & Hvs & Hkeys & Huniq) Hall.
  unfold init. rewrite Hvs, Hall. cbn [bind].
  assert (Hitems : ∀ t, t ∈ items (vc_combo (new_ViewComboBox vs false)) ↔
                        is_Some (vs !! t))
    by (by apply populate_combo_select).
  match goal with
  | |- ∃ _, select_view_combo_index_changed false ?s = _ ∧ _ =>
      destruct (rebuild_settled s) as (st2 & Hsel & HI2 & Hfr & HS2)
  end.
  { pose proof (search_populate_combo_ok g Hss) as Hsearch.
    constructor; cbn -[search_populate_combo new_ViewComboBox]; try done.
    - apply Forall_forall. intros c Hc.
      eapply Forall_forall in Hcols; [exact Hcols|].
      by eapply get_current_columns_names.
    - intros t.
      destruct (lib_lastView library) as [last|]; [|apply Hitems].
      destruct (bool_decide _); [|apply Hitems].
      rewrite items_select_view. apply Hitems.
    - split; [|done].
      destruct (lib_lastView library); [destruct (bool_decide _)|]; done. }
  { done. }
  { cbn -[new_ViewComboBox].
    assert (Hn : items (vc_combo (new_ViewComboBox vs false)) = sorted_keys vs)
      by apply (populate_combo_items vs None (mkViewCombo clear false)).
    destruct (lib_lastView library) as [last|]; [|done].
    destruct (bool_decide _); [|done]. by rewrite items_select_view. }
  exists st2. split; [exact Hsel|]. split; [exact HI2|].
  destruct Hfr as (Hg & Hv & Ha & Hsc & Hac & Hav).
  cbn -[new_ViewComboBox] in Hg, Hv, Ha, Hsc, Hac, Hav.
  split.
  { rewrite <- (config_eta st2). apply HS2. rewrite Hav.
    rewrite items_select_view. cbn [views].
    apply (populate_combo_items vs None (mkViewCombo clear true)). }
  rewrite Hv. by repeat split.
Qed.

Lemma init_columns g library st :
  init g library = Ok st →
  ∃ all, get_current_columns g false false = Ok all.
Proof.
  unfold init. destruct (lib_views library); [|done]. cbn [bind].
  destruct (get_current_columns g false false) as [all|]; [|done].
  by exists all.
Qed.

Lemma reachable_settled st : reachable st → Inv st ∧ Settled st.
Proof.
  intros (g & library & st0 & acts & Hg & Hl & Hinit & Hrun).
  destruct (init_columns g library st0 Hinit) as [all Hall].
  destruct (init_settled g library all Hg Hl Hall) as (st0' & Hinit' & HI & HS & _).
  rewrite Hinit in Hinit'. injection Hinit' as <-.
  destruct (run_settled acts st0 HI HS) as (st' & Hrun' & HI' & HS').
  rewrite Hrun in Hrun'. by injection Hrun' as <-.
Qed.

Lemma example_run_succeeds acts :
  ∃ st, example_run acts = Ok st ∧ reachable st.
Proof.
  destruct (init_settled example_gui default_library
              [("title", 100); ("authors", 80); ("ondevice", -1); ("size", -1)]
              DialogClaims.example_host_ok DialogClaims.default_library_ok)
    as (st0 & Hinit & HI & HS & _); [vm_compute; reflexivity|].
  destruct (run_settled acts st0 HI HS) as (st & Hrun & _).
  assert (E : example_run acts = Ok st).
  { unfold example_run. rewrite Hinit. exact Hrun. }
  exists st. split; [exact E|]. by eapply DialogClaims.example_run_reachable.
Qed.

(** X15. No callback raises: in a state the dialog can be in, whatever the
    user does next (adding, renaming or deleting a view with any answer
    to the prompt, picking a view, ticking, clicking or moving an item,
    changing a sort direction, setting a check box or a combo box), the
    callback returns, and the dialog is again in such a state. *)
Theorem reachable_step_succeeds (st : ConfigWidget) (a : action) :
  reachable st → ∃ st', step a st = Ok st' ∧ reachable st'.
Proof.
  intros Hreach. destruct (reachable_settled st Hreach) as [HI HS].
  destruct (step_settled a st HI HS) as (st' & Hstep & _).
  exists st'. split; [exact Hstep|].
  destruct Hreach as (g & library & st0 & acts & Hg & Hl & Hinit & Hrun).
  exists g, library, st0, (acts ++ [a]). do 3 (split; [done|]).
  rewrite (run_app _ _ _ _ Hrun). cbn [run]. by rewrite Hstep.
Qed.

Lemma reachable_step_succeeds_witness :
  ∃ st st', example_run [] = Ok st ∧
            step (AddView " Reading " true) st = Ok st'.
Proof.
  destruct (example_run_succeeds []) as (st & E & _).
  destruct (reachable_step_succeeds st (AddView " Reading " true)
              (DialogClaims.example_run_reachable _ _ E)) as (st' & Hstep & _).
  exists st, st'. split; [exact E|exact Hstep].
Defined.

(** X16. Opening the dialog on a well-formed record never raises once the
    host has answered the column query, and what it shows is read off the
    record: the views are the record's, the auto-apply box has the
    record's flag (unticked when the record has none), the view combo box
    shows the record's last view when that is the non-empty name of a
    view, and the dialog has no view to edit exactly when the record has
    no views. *)
Theorem init_shows_record (g : Gui) (library : library_config)
    (all : list (string * Z)) :
  host_ok g → library_ok library →
  get_current_columns g false false = Ok all →
  ∃ st,
    init g library = Ok st ∧ reachable st ∧
    all_columns st = all ∧
    lib_views library = Some (views st) ∧
    is_checked (auto_apply_checkbox st) =
      default false (lib_autoApplyView library) ∧
    (∀ last, lib_lastView library = Some last → truthy last = true →
             is_Some (views st !! last) → view_name st = Some last) ∧
    (view_name st = None ↔ views st = ∅).
Proof.
  intros Hg Hl Hall.
  destruct (init_settled g library all Hg Hl Hall)
    as (st & Hinit & HI & HS & _ & Ha & Hv & Hac & _ & Hsc).
  exists st. split; [exact Hinit|]. split.
  { exists g, library, st, []. do 3 (split; [done|]). reflexivity. }
  split; [exact Ha|]. split; [exact Hv|]. split.
  { rewrite Hac. apply DialogClaims.is_checked_of_bool. }
  split.
  - intros last Hlast Ht Hex. rewrite (inv_name st HI), Hsc, Hlast.
    rewrite bool_decide_eq_true_2 by done.
    assert (Hin : last ∈ items (vc_combo (new_ViewComboBox (views st) false))).
    { by apply populate_combo_select. }
    unfold name_of_combo, select_view. cbn [vc_combo truthy_opt].
    rewrite Ht. cbn [default from_option id].
    rewrite (currentText_find _ _ Hin).
    unfold count. rewrite items_setCurrentIndex.
    destruct (items _) as [|x l] eqn:E; [by apply elem_of_nil in Hin|].
    cbn [length]. replace (Z.of_nat (S (length l)) =? 0) with false
      by (symmetry; apply Z.eqb_neq; lia).
    f_equal. apply (inv_keys st HI), Hex.
  - rewrite (inv_name st HI). unfold name_of_combo, count.
    rewrite (settled_select st HS), <- sorted_keys_nil.
    destruct (sorted_keys (views st)) as [|x l]; cbn [length].
    + done.
    + replace (Z.of_nat (S (length l)) =? 0) with false
        by (symmetry; apply Z.eqb_neq; lia).
      split; intros; done.
Qed.

Lemma init_shows_record_witness :
  ∃ st, init example_gui default_library = Ok st ∧ view_name st = None.
Proof.
  destruct (init_shows_record example_gui default_library
              [("title", 100); ("authors", 80); ("ondevice", -1); ("size", -1)]
              DialogClaims.example_host_ok DialogClaims.default_library_ok)
    as (st & Hinit & _ & _ & Hv & _ & _ & Hnone).
  - vm_compute. reflexivity.
  - exists st. split; [exact Hinit|]. apply Hnone.
    cbn in Hv. by injection Hv as <-.
Defined.

(** X17. In every state the dialog can be in, the view combo box lists
    exactly the names of the views, in ascending order, and the
    auto-apply combo box lists the sentinel followed by the same names;
    the dialog has no view to edit exactly when there are no views; and
    while the view being edited has no name, or there is none, both
    lists are empty. *)
Theorem reachable_combos_list_views (st : ConfigWidget) :
  reachable st →
  items (vc_combo (select_view_combo st)) = sorted_keys (views st) ∧
  items (vc_combo (auto_view_combo st)) =
    LAST_VIEW_ITEM :: sorted_keys (views st) ∧
  (view_name st = None ↔ views st = ∅) ∧
  (truthy_opt (view_name st) = false →
   cl_items (columns_list st) = [] ∧ cl_items (sort_list st) = []).
Proof.
  intros Hreach. destruct (reachable_settled st Hreach) as [HI HS].
  split; [apply HS|]. split; [apply HS|]. split; [|apply HS].
  rewrite (inv_name st HI). unfold name_of_combo, count.
  rewrite (settled_select st HS), <- sorted_keys_nil.
  destruct (sorted_keys (views st)) as [|x l]; cbn [length].
  - done.
  - replace (Z.of_nat (S (length l)) =? 0) with false
      by (symmetry; apply Z.eqb_neq; lia).
    split; intros; done.
Qed.

Lemma reachable_combos_list_views_witness :
  ∃ st, example_run [AddView "b" true; AddView "a" true] = Ok st ∧
        items (vc_combo (auto_view_combo st)) =
          LAST_VIEW_ITEM :: sorted_keys (views st).
Proof.
  destruct (example_run_succeeds [AddView "b" true; AddView "a" true])
    as (st & E & _).
  exists st. split; [exact E|].
  apply (reachable_combos_list_views st
           (DialogClaims.example_run_reachable _ _ E)).
Defined.

End Views.

Module Edits.
Import Dialog PySpec PyTheory DialogSpec DialogTheory ExampleRun Combos Views.

(** ** What the callbacks leave alone *)

Lemma view_eta info :
  mkView (columns info) (sort info) (applyRestriction info)
         (restrictionToApply info) (applySearch info) (searchToApply info) = info.
Proof. by destruct info. Qed.

Lemma persist_frame st st1 :
  persist_view_config st = Ok st1 → ∃ vs, st1 = set_views vs st.
Proof.
  unfold persist_view_config.
  assert (Hid : st = set_views (views st) st) by (by destruct st).
  destruct (view_name st) as [v|]; [|intros [= <-]; by eexists].
  destruct (truthy v); [|intros [= <-]; by eexists].
  destruct (getitem _ _); [|done]. cbn [bind].
  destruct (SortList.get_data _); [|done]. cbn [bind]. intros [= <-].
  by eexists.
Qed.

Lemma select_false_frame s st' :
  select_view_combo_index_changed false s = Ok st' →
  gui st' = gui s ∧ all_columns st' = all_columns s ∧
  select_view_combo st' = select_view_combo s ∧
  auto_view_combo st' = auto_view_combo s ∧
  auto_apply_checkbox st' = auto_apply_checkbox s ∧
  items (saved_search_combo st') = items (saved_search_combo s) ∧
  items (search_restriction_combo st') = items (search_restriction_combo s).
Proof.
  unfold select_view_combo_index_changed. cbn [bind].
  match goal with
  | |- bind ?m _ = _ → _ =>
      destruct m as [[[[[[[cols sorts] all] ar] r] a] sn]|]; [|done]
  end.
  cbn [bind]. destruct (ColumnList.populate _ _ _ _); [|done]. cbn [bind].
  destruct (SortList.populate _ _ _ _); [|done]. cbn [bind].
  intros [= <-]. cbn -[select_value]. by rewrite !items_select_value.
Qed.

Lemma add_view_gui text ok st st' o :
  add_view text ok st = Ok (st', o) → gui st' = gui st.
Proof.
  unfold add_view. destruct ok; cbn [negb]; [|by intros [= <- _]].
  destruct (clashes _ _ _); [by intros [= <- _]|].
  destruct (persist_view_config st) as [st1|] eqn:Hp; [|done]. cbn [bind].
  apply persist_frame in Hp as [vs ->].
  match goal with
  | |- bind ?m _ = _ → _ => destruct m as [vi|]; [|done]
  end.
  cbn [bind].
  destruct (select_view_combo_index_changed false _) as [st2|] eqn:Hsel; [|done].
  cbn [bind]. intros [= <- _]. cbn [gui].
  by apply select_false_frame in Hsel as (-> & _).
Qed.

Lemma rename_view_gui text ok st st' o :
  rename_view text ok st = Ok (st', o) → gui st' = gui st.
Proof.
  unfold rename_view.
  destruct (negb (truthy_opt (view_name st))); [by intros [= <- _]|].
  destruct ok; cbn [negb]; [|by intros [= <- _]].
  destruct (String.eqb _ _); [by intros [= <- _]|].
  destruct (clashes _ _ _); [by intros [= <- _]|].
  destruct (persist_view_config st) as [st1|] eqn:Hp; [|done]. cbn [bind].
  apply persist_frame in Hp as [vs ->].
  destruct (getitem _ _) as [vi|]; [|done]. cbn [bind].
  destruct (select_view_combo_index_changed false _) as [st2|] eqn:Hsel; [|done].
  cbn [bind]. intros [= <- _]. cbn [gui].
  by apply select_false_frame in Hsel as (-> & _).
Qed.

Lemma delete_view_gui confirmed st st' :
  delete_view confirmed st = Ok st' → gui st' = gui st.
Proof.
  unfold delete_view.
  destruct (negb (truthy_opt (view_name st))); [by intros [= <-]|].
  destruct confirmed; cbn [negb]; [|by intros [= <-]].
  destruct (getitem _ _) as [vi|]; [|done]. cbn [bind].
  destruct (select_view_combo_index_changed false _) as [st2|] eqn:Hsel; [|done].
  cbn [bind]. intros [= <-]. cbn [gui].
  by apply select_false_frame in Hsel as (-> & _).
Qed.

Lemma step_gui a st st' : step a st = Ok st' → gui st' = gui st.
Proof.
  destruct a as [t ok|t ok|confirmed|i|la|la| | |c|i|c|i|c|i]; cbn [step];
    try (by intros [= <-]).
  - destruct (add_view t ok st) as [[st1 o]|] eqn:E; [|done]. cbn [bind fst].
    intros [= <-]. by eapply add_view_gui.
  - destruct (rename_view t ok st) as [[st1 o]|] eqn:E; [|done]. cbn [bind fst].
    intros [= <-]. by eapply rename_view_gui.
  - apply delete_view_gui.
  - destruct (_ && _); [|by intros [= <-]].
    rewrite select_true_unfold.
    destruct (persist_view_config _) as [st1|] eqn:Hp; [|done]. cbn [bind].
    apply persist_frame in Hp as [vs ->].
    by intros (-> & _)%select_false_frame.
  - destruct (SortList.item_selection_changed _); [|by intros [= <-]].
    destruct (SortList.change_sort _ _); [|done]. by intros [= <-].
  - destruct (SortList.item_selection_changed _); [|by intros [= <-]].
    destruct (SortList.change_sort _ _); [|done]. by intros [= <-].
Qed.

Lemma run_gui acts st st' : run acts st = Ok st' → gui st' = gui st.
Proof.
  revert st. induction acts as [|a acts IH]; intros st; cbn [run].
  - by intros [= <-].
  - destruct (step a st) as [st1|] eqn:E; [|done]. cbn [bind].
    intros ->%IH. by apply (step_gui a).
Qed.

Lemma reachable_host st : reachable st → host_ok (gui st).
Proof.
  intros (g & library & st0 & acts & Hg & Hl & Hinit & Hrun).
  destruct (init_columns g library st0 Hinit) as [all Hall].
  destruct (init_settled g library all Hg Hl Hall) as (st0' & Hinit' & _ & _ & Hgui & _).
  rewrite Hinit in Hinit'. injection Hinit' as <-.
  by rewrite (run_gui _ _ _ Hrun), Hgui.
Qed.

(** The states the dialog can be in, with the conditions on the host and
    on the record written out. *)
Lemma opened_reachable g library acts st0 st :
  Forall (column_name_ok g) (column_map g) →
  Forall (λ s, strip s = s) (saved_searches g) →
  library_ok library →
  init g library = Ok st0 → run acts st0 = Ok st →
  reachable st.
Proof.
  intros Hcols Hss Hlib Hinit Hrun. exists g, library, st0, acts.
  split; [by split|]. split; [exact Hlib|]. split; [exact Hinit|exact Hrun].
Qed.

(** ** What the view combo box shows after it has been rebuilt *)

Lemma populate_combo_found {V} (vs : gmap string V) n c :
  truthy n = true → n ∈ items (vc_combo (populate_combo vs (Some n) c)) →
  currentText (vc_combo (populate_combo vs (Some n) c)) = n.
Proof.
  destruct (populate_combo_unfold vs (Some n) c) as (c2 & -> & Hitems & _).
  rewrite items_select_view. unfold select_view.
  cbn [vc_combo truthy_opt default from_option id].
  intros -> Hin. by apply currentText_find.
Qed.

Lemma populate_combo_first {V} (vs : gmap string V) c :
  special c = true →
  currentText (vc_combo (populate_combo vs None c)) = LAST_VIEW_ITEM.
Proof.
  intros Hs. destruct (populate_combo_unfold vs None c) as (c2 & -> & Hitems & _).
  rewrite Hs in Hitems. unfold select_view. cbn [vc_combo truthy_opt].
  unfold count. rewrite Hitems. cbn [app length].
  replace (0 <? Z.of_nat (S (length (sorted_keys vs)))) with true
    by (symmetry; apply Z.ltb_lt; lia).
  apply currentText_set; [done|]. by rewrite Hitems.
Qed.

Lemma name_of_combo_found c n :
  n ∈ items c → currentText c = n → strip n = n → name_of_combo c = Some n.
Proof.
  intros Hin Hc Hs. unfold name_of_combo, count.
  destruct (items c) as [|x l] eqn:E; [by apply elem_of_nil in Hin|].
  cbn [length]. replace (Z.of_nat (S (length l)) =? 0) with false
    by (symmetry; apply Z.eqb_neq; lia).
  by rewrite Hc, Hs.
Qed.

Lemma rebuilt_combo_name (vs : gmap string view_info) n c :
  special c = false → is_Some (vs !! n) → truthy n = true → strip n = n →
  name_of_combo (vc_combo (populate_combo vs (Some n) c)) = Some n.
Proof.
  intros Hs Hex Ht Hn.
  assert (Hin : n ∈ items (vc_combo (populate_combo vs (Some n) c)))
    by (by apply populate_combo_select).
  apply name_of_combo_found; [done| |done]. by apply populate_combo_found.
Qed.

(** Refilling the form for a view whose stored definition is what the
    form of [st0] showed. *)
Lemma select_shows st0 info s v :
  Inv st0 → truthy_opt (view_name st0) = true →
  form_selection st0 = Ok info →
  gui s = gui st0 → all_columns s = all_columns st0 →
  search_combo_ok (saved_search_combo s) →
  items (saved_search_combo s) = items (saved_search_combo st0) →
  search_combo_ok (search_restriction_combo s) →
  items (search_restriction_combo s) = items (search_restriction_combo st0) →
  name_of_combo (vc_combo (select_view_combo s)) = Some v → truthy v = true →
  views s !! v = Some info →
  ∃ st2, select_view_combo_index_changed false s = Ok st2 ∧
         view_name st2 = Some v ∧ form_selection st2 = Ok info.
Proof.
  intros HI Ht Hform Hg Ha Hso Hsi Hro Hri Hname Hv Hinfo.
  destruct (inv_lists st0 HI Ht) as [(Hp & _) Hsort].
  pose proof (inv_columns st0 HI) as Hcols.
  unfold form_selection in Hform.
  destruct (SortList.get_data (sort_list st0)) as [L|] eqn:HL; [|done].
  cbn [bind] in Hform. injection Hform as Hform.
  destruct (ColumnListTheory.get_data_populate (gui st0) (all_columns st0)
              (columns_list st0) (columns_list s) Hcols Hp)
    as (cl & Hcl & _ & Hclget).
  destruct (SortListTheory.sort_get_data_populate (gui st0) (all_columns st0)
              (sort_list st0) (sort_list s) L Hcols Hsort HL)
    as (sl & Hsl & _ & Hslget).
  assert (Hc : columns info = ColumnList.get_data (columns_list st0))
    by (by rewrite <- Hform).
  assert (Hs : sort info = L) by (by rewrite <- Hform).
  rewrite <- Hc, <- Hg, <- Ha in Hcl. rewrite <- Hs, <- Hg, <- Ha in Hsl.
  pose proof (select_existing s v info cl sl Hname Hv Hinfo Hcl Hsl) as Hsel.
  destruct (DialogClaims.search_name_offered _ (inv_restriction st0 HI))
    as [Hr1 Hr2].
  destruct (DialogClaims.search_name_offered _ (inv_search st0 HI))
    as [Hs1 Hs2].
  assert (Hshow_r : currentText (select_value (restrictionToApply info)
                                   (search_restriction_combo s)) =
                    restrictionToApply info).
  { apply select_value_shows; [done|]. rewrite Hri, <- Hform. cbn.
    destruct (is_checked (apply_restriction_checkbox st0)); [exact Hr2 | by left]. }
  assert (Hshow_s : currentText (select_value (searchToApply info)
                                   (saved_search_combo s)) =
                    searchToApply info).
  { apply select_value_shows; [done|]. rewrite Hsi, <- Hform. cbn.
    destruct (is_checked (apply_search_checkbox st0)); [exact Hs2 | by left]. }
  eexists. split; [exact Hsel|]. split; [done|].
  unfold form_selection.
  cbn [sort_list columns_list apply_restriction_checkbox
       search_restriction_combo apply_search_checkbox saved_search_combo].
  rewrite Hslget. cbn [bind].
  rewrite Hclget, !DialogClaims.is_checked_of_bool, Hshow_r, Hshow_s.
  rewrite <- Hform.
  cbn [applyRestriction restrictionToApply applySearch searchToApply].
  destruct (is_checked (apply_restriction_checkbox st0));
    destruct (is_checked (apply_search_checkbox st0));
    by rewrite ?Hr1, ?Hs1.
Qed.

(** ** Adding a view *)

Lemma add_view_at (st : ConfigWidget) (text v : string) :
  reachable st → view_name st = Some v → truthy v = true →
  ¬ collides None (strip text) (views st) → truthy (strip text) = true →
  ∃ info st',
    form_selection st = Ok info ∧
    add_view text true st = Ok (st', Returned) ∧
    views st' = <[strip text := info]> (<[v := info]> (views st)) ∧
    view_name st' = Some (strip text) ∧
    form_selection st' = Ok info.
Proof.
  intros Hreach Hname Hv Hcol Hn.
  pose proof (reachable_Inv st Hreach) as HI.
  destruct (DialogClaims.persist_reachable st v HI Hname Hv)
    as (info & L & U & Hform & Hp & _).
  exists info. unfold add_view. cbn [negb].
  destruct (clashes None (strip text) (views st)) eqn:Hc;
    [by apply clashes_spec in Hc|].
  rewrite Hp. cbn [bind]. cbn [set_views gui views all_columns view_name
    select_view_combo columns_list sort_list apply_search_checkbox
    saved_search_combo apply_restriction_checkbox search_restriction_combo
    auto_apply_checkbox auto_view_combo].
  rewrite Hname. cbn [truthy_opt default from_option id]. rewrite Hv.
  unfold getitem. rewrite lookup_insert_eq. cbn [bind]. rewrite view_eta.
  match goal with
  | |- ∃ _, _ ∧ bind (select_view_combo_index_changed false ?s) _ = _ ∧ _ =>
      destruct (select_shows st info s (strip text))
        as (st2 & Hsel & Hn2 & Hf2)
  end; try done.
  { by rewrite Hname. }
  { apply HI. }
  { apply HI. }
  { cbn -[populate_combo]. apply rebuilt_combo_name; [apply HI| |done|].
    - rewrite lookup_insert_eq. by eexists.
    - apply strip_idem. }
  { cbn. apply lookup_insert_eq. }
  rewrite Hsel. cbn [bind]. eexists. split; [done|]. split; [reflexivity|].
  cbn [views view_name]. split.
  { by rewrite (DialogClaims.select_false_views _ _ Hsel). }
  split; [done|]. exact Hf2.
Qed.

(** X18. The dialog is opened on a well-formed record, in a host whose
    columns are named by their lookup names and whose saved searches
    have names without white space at either end, and the user does
    anything.  Then, adding a view while a view with a name is
    being edited: the form is first stored under the view being edited,
    the new view gets a copy of that definition, becomes the view being
    edited, and the form shows for it exactly what it showed before. *)
Theorem add_view_copies_current (g : Gui) (library : library_config)
    (acts : list action) (st0 st : ConfigWidget) (text v : string) :
  Forall (column_name_ok g) (column_map g) →
  Forall (λ s, strip s = s) (saved_searches g) →
  library_ok library →
  init g library = Ok st0 → run acts st0 = Ok st →
  view_name st = Some v → truthy v = true →
  ¬ collides None (strip text) (views st) → truthy (strip text) = true →
  ∃ info st',
    form_selection st = Ok info ∧
    add_view text true st = Ok (st', Returned) ∧
    views st' = <[strip text := info]> (<[v := info]> (views st)) ∧
    view_name st' = Some (strip text) ∧
    form_selection st' = Ok info.
Proof.
  intros Hcols Hss Hlib Hinit Hrun. apply add_view_at.
  by eapply opened_reachable.
Qed.

Lemma add_view_copies_current_witness :
  ∃ st info st',
    example_run [AddView "Default" true; OnSort (Tick 1)] = Ok st ∧
    form_selection st = Ok info ∧
    add_view "Copy" true st = Ok (st', Returned) ∧
    views st' !! "Copy" = Some info ∧ views st' !! "Default" = Some info.
Proof.
  destruct (example_run_succeeds [AddView "Default" true; OnSort (Tick 1)])
    as (st & E & _).
  assert (Hname : view_name st = Some "Default").
  { rewrite (DialogClaims.read_off view_name None _ _ E). vm_compute. reflexivity. }
  assert (Hkeys : ∀ k, is_Some (views st !! k) → k = "Default").
  { intros k Hk.
    assert (Hl : (map_to_list (views st)).*1 = ["Default"]).
    { rewrite (DialogClaims.read_off (λ s, (map_to_list (views s)).*1) [] _ _ E).
      vm_compute. reflexivity. }
    assert (Hin : k ∈ (map_to_list (views st)).*1).
    { destruct Hk as [x Hx]. apply list_elem_of_fmap. exists (k, x).
      split; [reflexivity|]. apply elem_of_map_to_list. exact Hx. }
    rewrite Hl in Hin. apply list_elem_of_singleton in Hin. exact Hin. }
  destruct (DialogClaims.example_run_init _ _ E) as (st0 & E0 & Erun).
  destruct (add_view_copies_current example_gui default_library _ st0 st
              "Copy" "Default" (proj1 DialogClaims.example_host_ok)
              (proj2 DialogClaims.example_host_ok)
              DialogClaims.default_library_ok E0 Erun Hname eq_refl)
    as (info & st' & Hform & Hadd & Hviews & _).
  - intros (k & Hk & _ & Hlow). apply Hkeys in Hk. subst k.
    vm_compute in Hlow. discriminate Hlow.
  - reflexivity.
  - exists st, info, st'. split; [exact E|]. split; [exact Hform|].
    split; [exact Hadd|]. rewrite Hviews. split.
    + apply lookup_insert_eq.
    + rewrite lookup_insert_ne; [apply lookup_insert_eq|].
      intros H. discriminate H.
Defined.

(** X19. Adding a view while no view with a name is being edited: the
    new view gets the host's visible columns, with the device column, in
    the host's order and with the host's widths, no sort columns and no
    filter. *)
Theorem add_view_takes_visible_columns (st : ConfigWidget) (text : string) :
  reachable st → truthy_opt (view_name st) = false →
  ¬ collides None (strip text) (views st) →
  ∃ cols st',
    get_current_columns (gui st) false true = Ok cols ∧
    add_view text true st = Ok (st', Returned) ∧
    views st' =
      <[strip text := mkView cols [] false EmptyString false EmptyString]>
        (views st).
Proof.
  intros Hreach Hn Hcol.
  destruct (reachable_settled st Hreach) as [HI HS].
  destruct (get_current_columns_any _ _ _ true _ (settled_columns st HS))
    as [cols Hcols].
  exists cols. unfold add_view. cbn [negb].
  destruct (clashes None (strip text) (views st)) eqn:Hc;
    [by apply clashes_spec in Hc|].
  rewrite (persist_none st Hn). cbn [bind]. rewrite Hn, Hcols. cbn [bind].
  match goal with
  | |- ∃ _, _ ∧ bind (select_view_combo_index_changed false ?s) _ = _ ∧ _ =>
      destruct (select_false_spec s) as (st2 & Hsel & _ & Hfr)
  end.
  { apply (Pre_rebuilt st); [done| |].
    - apply keys_stripped_insert, HI.
    - apply unique_insert; [apply HI|].
      intros Hcol'%clashes_spec. congruence. }
  rewrite Hsel. cbn [bind]. eexists. split; [done|]. split; [reflexivity|].
  cbn [views]. by destruct Hfr as (_ & -> & _).
Qed.

Lemma add_view_takes_visible_columns_witness :
  ∃ st st',
    example_run [] = Ok st ∧
    add_view "Default" true st = Ok (st', Returned) ∧
    views st' !! "Default" =
      Some (mkView [("title", 100); ("authors", 80); ("ondevice", -1)]
                   [] false EmptyString false EmptyString).
Proof.
  destruct (example_run_succeeds []) as (st & E & _).
  assert (Hname : view_name st = None).
  { rewrite (DialogClaims.read_off view_name None _ _ E). vm_compute. reflexivity. }
  assert (Hgui : gui st = example_gui).
  { rewrite (DialogClaims.read_off gui example_gui _ _ E). vm_compute. reflexivity. }
  assert (Hviews : views st = ∅).
  { rewrite (DialogClaims.read_off views ∅ _ _ E). vm_compute. reflexivity. }
  destruct (add_view_takes_visible_columns st "Default"
              (DialogClaims.example_run_reachable _ _ E))
    as (cols & st' & Hcols & Hadd & Hv).
  - rewrite Hname. reflexivity.
  - intros (k & [x Hk] & _). rewrite Hviews, lookup_empty in Hk.
    discriminate Hk.
  - exists st, st'. split; [exact E|]. split; [exact Hadd|].
    rewrite Hv, lookup_insert_eq. rewrite Hgui in Hcols.
    vm_compute in Hcols. injection Hcols as <-. reflexivity.
Defined.

(** ** Renaming a view *)

Lemma rename_view_at (st : ConfigWidget) (text v : string) :
  reachable st → view_name st = Some v → truthy v = true →
  strip text ≠ v → ¬ collides (Some v) (strip text) (views st) →
  truthy (strip text) = true →
  ∃ info st',
    form_selection st = Ok info ∧
    rename_view text true st = Ok (st', Returned) ∧
    views st' = <[strip text := info]> (delete v (views st)) ∧
    views st' !! v = None ∧
    view_name st' = Some (strip text) ∧
    form_selection st' = Ok info ∧
    currentText (vc_combo (auto_view_combo st')) =
      (if String.eqb (currentText (vc_combo (auto_view_combo st))) v
       then strip text else LAST_VIEW_ITEM).
Proof.
  intros Hreach Hname Hv Hne Hcol Hn.
  pose proof (reachable_Inv st Hreach) as HI.
  destruct (DialogClaims.persist_reachable st v HI Hname Hv)
    as (info & L & U & Hform & Hp & _).
  exists info. unfold rename_view. rewrite Hname.
  cbn [truthy_opt negb default from_option id]. rewrite Hv. cbn [negb].
  destruct (String.eqb_spec (strip text) v) as [?|_]; [done|].
  destruct (clashes (Some v) (strip text) (views st)) eqn:Hc;
    [by apply clashes_spec in Hc|].
  rewrite Hp. cbn [bind]. cbn [set_views gui views all_columns view_name
    select_view_combo columns_list sort_list apply_search_checkbox
    saved_search_combo apply_restriction_checkbox search_restriction_combo
    auto_apply_checkbox auto_view_combo].
  unfold getitem. rewrite lookup_insert_eq. cbn [bind].
  rewrite delete_insert_eq.
  match goal with
  | |- ∃ _, _ ∧ bind (select_view_combo_index_changed false ?s) _ = _ ∧ _ =>
      destruct (select_shows st info s (strip text))
        as (st2 & Hsel & Hn2 & Hf2)
  end; try done.
  { by rewrite Hname. }
  { apply HI. }
  { apply HI. }
  { cbn -[populate_combo]. apply rebuilt_combo_name; [apply HI| |done|].
    - rewrite lookup_insert_eq. by eexists.
    - apply strip_idem. }
  { cbn. apply lookup_insert_eq. }
  rewrite Hsel. cbn [bind]. eexists. split; [done|]. split; [reflexivity|].
  cbn [views view_name auto_view_combo].
  destruct (select_false_frame _ _ Hsel) as (_ & _ & _ & Hauto & _).
  cbn [auto_view_combo] in Hauto.
  rewrite (DialogClaims.select_false_views _ _ Hsel). cbn [views].
  split; [done|]. split.
  { rewrite lookup_insert_ne by done. apply lookup_delete_eq. }
  split; [done|]. split; [exact Hf2|].
  rewrite Hauto. destruct (String.eqb _ v).
  - apply populate_combo_found; [done|].
    rewrite populate_combo_items, (Inv_special_auto st HI).
    apply elem_of_cons. right. apply sorted_keys_elem.
    rewrite lookup_insert_eq. by eexists.
  - apply populate_combo_first. by apply Inv_special_auto.
Qed.

(** X20. The dialog is opened on a well-formed record, in a host whose
    columns are named by their lookup names and whose saved searches
    have names without white space at either end, and the user does
    anything.  Then, renaming the view being edited to a new
    name that does not clash: the form is first stored, the definition
    moves from the old name to the new one, the renamed view stays the
    view being edited and the form shows what it showed.  The auto-apply
    combo box follows the rename when it showed the old name; otherwise
    its choice is reset to the sentinel, whatever it was. *)
Theorem rename_view_moves (g : Gui) (library : library_config)
    (acts : list action) (st0 st : ConfigWidget) (text v : string) :
  Forall (column_name_ok g) (column_map g) →
  Forall (λ s, strip s = s) (saved_searches g) →
  library_ok library →
  init g library = Ok st0 → run acts st0 = Ok st →
  view_name st = Some v → truthy v = true →
  strip text ≠ v → ¬ collides (Some v) (strip text) (views st) →
  truthy (strip text) = true →
  ∃ info st',
    form_selection st = Ok info ∧
    rename_view text true st = Ok (st', Returned) ∧
    views st' = <[strip text := info]> (delete v (views st)) ∧
    views st' !! v = None ∧
    view_name st' = Some (strip text) ∧
    form_selection st' = Ok info ∧
    currentText (vc_combo (auto_view_combo st')) =
      (if String.eqb (currentText (vc_combo (auto_view_combo st))) v
       then strip text else LAST_VIEW_ITEM).
Proof.
  intros Hcols Hss Hlib Hinit Hrun. apply rename_view_at.
  by eapply opened_reachable.
Qed.

Lemma rename_view_moves_witness :
  ∃ st info st',
    example_run [AddView "Default" true] = Ok st ∧
    rename_view "Reading" true st = Ok (st', Returned) ∧
    views st' !! "Reading" = Some info ∧ views st' !! "Default" = None ∧
    currentText (vc_combo (auto_view_combo st')) = LAST_VIEW_ITEM.
Proof.
  destruct (example_run_succeeds [AddView "Default" true]) as (st & E & _).
  assert (Hname : view_name st = Some "Default").
  { rewrite (DialogClaims.read_off view_name None _ _ E). vm_compute. reflexivity. }
  assert (Hauto : currentText (vc_combo (auto_view_combo st)) = LAST_VIEW_ITEM).
  { rewrite (DialogClaims.read_off (λ s, currentText (vc_combo (auto_view_combo s)))
                      EmptyString _ _ E).
    vm_compute. reflexivity. }
  assert (Hkeys : ∀ k, is_Some (views st !! k) → k = "Default").
  { intros k Hk.
    assert (Hl : (map_to_list (views st)).*1 = ["Default"]).
    { rewrite (DialogClaims.read_off (λ s, (map_to_list (views s)).*1) [] _ _ E).
      vm_compute. reflexivity. }
    assert (Hin : k ∈ (map_to_list (views st)).*1).
    { destruct Hk as [x Hx]. apply list_elem_of_fmap. exists (k, x).
      split; [reflexivity|]. apply elem_of_map_to_list. exact Hx. }
    rewrite Hl in Hin. apply list_elem_of_singleton in Hin. exact Hin. }
  destruct (DialogClaims.example_run_init _ _ E) as (st0 & E0 & Erun).
  destruct (rename_view_moves example_gui default_library _ st0 st
              "Reading" "Default" (proj1 DialogClaims.example_host_ok)
              (proj2 DialogClaims.example_host_ok)
              DialogClaims.default_library_ok E0 Erun Hname eq_refl)
    as (info & st' & _ & Hren & Hviews & Hold & _ & _ & Hav).
  - intros H. vm_compute in H. discriminate H.
  - intros (k & Hk & Hskip & _). apply Hkeys in Hk. subst k.
    exact (Hskip eq_refl).
  - reflexivity.
  - exists st, info, st'. split; [exact E|]. split; [exact Hren|].
    split; [rewrite Hviews; apply lookup_insert_eq|]. split; [exact Hold|].
    rewrite Hav, Hauto. vm_compute. reflexivity.
Defined.

(** ** Switching between views *)

Lemma persist_other st st1 v :
  persist_view_config st = Ok st1 → view_name st ≠ Some v →
  views st1 !! v = views st !! v.
Proof.
  unfold persist_view_config.
  destruct (view_name st) as [n|]; [|by intros [= <-]].
  destruct (truthy n); [|by intros [= <-]].
  destruct (getitem _ _); [|done]. cbn [bind].
  destruct (SortList.get_data _); [|done]. cbn [bind]. intros [= <-] Hne.
  cbn [set_views views]. apply lookup_insert_ne. congruence.
Qed.

(** What picking entry [i] of the view combo box runs. *)
Lemma choose_view_unfold i st st' :
  step (ChooseView i) st = Ok st' →
  st' = st ∨
  ∃ c st1,
    persist_view_config
      (mkConfig (gui st) (views st) (all_columns st) (view_name st) c
                (columns_list st) (sort_list st) (apply_search_checkbox st)
                (saved_search_combo st) (apply_restriction_checkbox st)
                (search_restriction_combo st) (auto_apply_checkbox st)
                (auto_view_combo st)) = Ok st1 ∧
    select_view_combo_index_changed false st1 = Ok st'.
Proof.
  cbn [step]. destruct (_ && _); [|intros [= <-]; by left].
  rewrite select_true_unfold.
  destruct (persist_view_config _) as [st1|] eqn:Hp; [|done]. cbn [bind].
  intros Hsel. right. by eexists _, st1.
Qed.

Lemma switch_view_at (st st2 st3 : ConfigWidget) (v : string)
    (info : view_info) (j i : Z) :
  reachable st → view_name st = Some v → truthy v = true →
  form_selection st = Ok info →
  step (ChooseView j) st = Ok st2 → view_name st2 ≠ Some v →
  step (ChooseView i) st2 = Ok st3 → view_name st3 = Some v →
  views st3 !! v = Some info ∧ form_selection st3 = Ok info.
Proof.
  intros Hreach Hname Hv Hform Hstep1 Hother Hstep2 Hback.
  pose proof (reachable_Inv st Hreach) as HI.
  pose proof (step_Inv _ _ _ HI Hstep1) as HI2.
  pose proof (step_Inv _ _ _ HI2 Hstep2) as HI3.
  (* away *)
  apply choose_view_unfold in Hstep1 as [->|(c & st1 & Hp1 & Hsel1)];
    [congruence|].
  destruct (DialogClaims.persist_reachable st v HI Hname Hv)
    as (info' & L & U & Hform' & _ & _ & _ & HL & _).
  assert (info' = info) as -> by congruence.
  destruct (Inv_view_exists st v HI Hname Hv) as [[old Hold] _].
  match type of Hp1 with
  | persist_view_config ?s = _ =>
      destruct (persist_some s v old L Hname Hv Hold HL)
        as (info1 & Hform1 & Hp1' & _)
  end.
  assert (info1 = info) as ->.
  { unfold form_selection in Hform1, Hform. cbn in Hform1. congruence. }
  rewrite Hp1' in Hp1. injection Hp1 as <-.
  pose proof (DialogClaims.select_false_views _ _ Hsel1) as Hviews2.
  cbn [set_views views] in Hviews2.
  destruct (select_false_frame _ _ Hsel1) as (Hg2 & Ha2 & _ & _ & _ & Hs2 & Hr2).
  cbn [set_views gui all_columns saved_search_combo search_restriction_combo]
    in Hg2, Ha2, Hs2, Hr2.
  (* and back *)
  apply choose_view_unfold in Hstep2 as [->|(c' & st1' & Hp2 & Hsel2)];
    [congruence|].
  pose proof (persist_other _ _ v Hp2 Hother) as Hkeep.
  cbn [views] in Hkeep. rewrite Hviews2, lookup_insert_eq in Hkeep.
  apply persist_frame in Hp2 as [vs' ->].
  cbn [set_views views] in Hkeep.
  destruct (select_false_frame _ _ Hsel2) as (_ & _ & Hsc3 & _).
  cbn [set_views select_view_combo] in Hsc3.
  match type of Hsel2 with
  | select_view_combo_index_changed false ?s = _ =>
      destruct (select_shows st info s v) as (st3' & Hsel3 & _ & Hf3)
  end; try done.
  { by rewrite Hname. }
  { apply HI2. }
  { apply HI2. }
  { cbn [set_views select_view_combo]. rewrite <- Hsc3, <- (inv_name st3 HI3).
    exact Hback. }
  rewrite Hsel2 in Hsel3. injection Hsel3 as <-.
  split; [|exact Hf3].
  by rewrite (DialogClaims.select_false_views _ _ Hsel2).
Qed.

(** X21. The dialog is opened on a well-formed record, in a host whose
    columns are named by their lookup names and whose saved searches
    have names without white space at either end, and the user does
    anything.  Then edits survive switching views: when a
    view with a name is being edited and the user picks another view and
    later picks the first one again, the first view's definition is what
    the form showed when the user left it, and the form shows it
    again. *)
Theorem switch_view_and_back (g : Gui) (library : library_config)
    (acts : list action) (st0 st st2 st3 : ConfigWidget) (v : string)
    (info : view_info) (j i : Z) :
  Forall (column_name_ok g) (column_map g) →
  Forall (λ s, strip s = s) (saved_searches g) →
  library_ok library →
  init g library = Ok st0 → run acts st0 = Ok st →
  view_name st = Some v → truthy v = true →
  form_selection st = Ok info →
  step (ChooseView j) st = Ok st2 → view_name st2 ≠ Some v →
  step (ChooseView i) st2 = Ok st3 → view_name st3 = Some v →
  views st3 !! v = Some info ∧ form_selection st3 = Ok info.
Proof.
  intros Hcols Hss Hlib Hinit Hrun. apply switch_view_at.
  by eapply opened_reachable.
Qed.

Lemma example_run_snoc acts a st st2 :
  example_run acts = Ok st → example_run (acts ++ [a]) = Ok st2 →
  step a st = Ok st2.
Proof.
  unfold example_run.
  destruct (init example_gui default_library) as [st0|]; [|done]. cbn [bind].
  intros H1 H2. rewrite (run_app _ _ _ _ H1) in H2. cbn [run] in H2.
  by destruct (step a st) as [s|]; [injection H2 as ->|].
Qed.

Lemma switch_view_and_back_witness :
  ∃ st st2 st3 info,
    example_run [AddView "A" true; AddView "B" true; OnSort (Tick 1)] = Ok st ∧
    step (ChooseView 0) st = Ok st2 ∧ view_name st2 = Some "A" ∧
    step (ChooseView 1) st2 = Ok st3 ∧
    form_selection st = Ok info ∧ form_selection st3 = Ok info ∧
    sort info = [("authors", 0)].
Proof.
  set (acts := [AddView "A" true; AddView "B" true; OnSort (Tick 1)]).
  destruct (example_run_succeeds acts) as (st & E & _).
  destruct (example_run_succeeds (acts ++ [ChooseView 0])) as (st2 & E2 & _).
  destruct (example_run_succeeds ((acts ++ [ChooseView 0]) ++ [ChooseView 1]))
    as (st3 & E3 & _).
  pose proof (example_run_snoc _ _ _ _ E E2) as Hstep1.
  pose proof (example_run_snoc _ _ _ _ E2 E3) as Hstep2.
  assert (Hname : view_name st = Some "B").
  { rewrite (DialogClaims.read_off view_name None _ _ E). vm_compute. reflexivity. }
  assert (Hname2 : view_name st2 = Some "A").
  { rewrite (DialogClaims.read_off view_name None _ _ E2). vm_compute. reflexivity. }
  assert (Hname3 : view_name st3 = Some "B").
  { rewrite (DialogClaims.read_off view_name None _ _ E3). vm_compute. reflexivity. }
  assert (Hform : form_selection st =
                  Ok (mkView [("title", 100); ("authors", 80); ("ondevice", -1)]
                             [("authors", 0)] false EmptyString false EmptyString)).
  { rewrite (DialogClaims.read_off form_selection (Raise TypeError) _ _ E).
    vm_compute. reflexivity. }
  destruct (DialogClaims.example_run_init _ _ E) as (st0 & E0 & Erun).
  destruct (switch_view_and_back example_gui default_library _ st0 st st2 st3
              "B" _ 0 1 (proj1 DialogClaims.example_host_ok)
              (proj2 DialogClaims.example_host_ok)
              DialogClaims.default_library_ok E0 Erun Hname eq_refl Hform
              Hstep1) as [_ Hf3];
    [rewrite Hname2; intros H; discriminate H|exact Hstep2|exact Hname3|].
  eexists st, st2, st3, _. split; [exact E|]. split; [exact Hstep1|].
  split; [exact Hname2|]. split; [exact Hstep2|]. split; [exact Hform|].
  split; [exact Hf3|]. reflexivity.
Defined.

(** ** Saving *)

Lemma truthy_false t : truthy t = false → t = EmptyString.
Proof. by destruct t. Qed.

(** The current index of a combo box that shows a text, when no two of
    its entries carry the same text. *)
Lemma findText_current c :
  NoDup (items c) → truthy (currentText c) = true →
  findText (currentText c) c = currentIndex c.
Proof.
  intros Hnd Ht.
  assert (Hcur : 0 ≤ currentIndex c ∧
                 items c !! Z.to_nat (currentIndex c) = Some (currentText c)).
  { unfold currentText in *. destruct (Z.ltb_spec (currentIndex c) 0);
      [done|]. split; [done|].
    by destruct (items c !! Z.to_nat (currentIndex c)). }
  destruct Hcur as [H0 Hcur].
  destruct (find_from_spec (currentText c) (items c) 0) as [Hr Hl].
  { by eapply list_elem_of_lookup_2. }
  rewrite Z.sub_0_r in Hl. fold (findText (currentText c) c) in Hr, Hl.
  pose proof (NoDup_lookup _ _ _ _ Hnd Hl Hcur). lia.
Qed.

Lemma save_settings_at (st : ConfigWidget) (library : library_config) :
  reachable st →
  ∃ st1 library',
    save_settings library st = Ok (st1, library') ∧
    lib_views library' = Some (views st1) ∧
    lib_lastView library' = lib_lastView library ∧
    lib_autoApplyView library' = Some (is_checked (auto_apply_checkbox st)) ∧
    lib_viewToApply library' =
      Some (currentText (vc_combo (auto_view_combo st))) ∧
    library_ok library' ∧
    (∀ v, view_name st = Some v → truthy v = true →
          ∃ info, form_selection st = Ok info ∧
                  views st1 = <[v := info]> (views st)) ∧
    (truthy_opt (view_name st) = false → views st1 = views st) ∧
    ∃ st',
      init (gui st) library' = Ok st' ∧
      views st' = views st1 ∧
      is_checked (auto_apply_checkbox st') =
        is_checked (auto_apply_checkbox st) ∧
      let c := vc_combo (auto_view_combo st) in
      let c' := vc_combo (auto_view_combo st') in
      items c' = items c ∧
      (truthy (currentText c) = true →
       currentText c' = currentText c ∧
       currentIndex c' = findText (currentText c) c ∧
       (views st !! LAST_VIEW_ITEM = None → currentIndex c' = currentIndex c)) ∧
      (truthy (currentText c) = false →
       currentIndex c' = 0 ∧ currentText c' = LAST_VIEW_ITEM).
Proof.
  intros Hreach. destruct (reachable_settled st Hreach) as [HI HS].
  pose proof (reachable_host st Hreach) as Hhost.
  destruct (Inv_persist_ok st HI) as (vs1 & Hp & Hk).
  unfold save_settings. rewrite Hp. cbn [bind]. eexists _, _.
  split; [reflexivity|].
  cbn [set_views views auto_apply_checkbox auto_view_combo lib_views
       lib_lastView lib_autoApplyView lib_viewToApply].
  split; [done|]. split; [done|]. split; [done|]. split; [done|].
  assert (Hlib : library_ok
            (mkLibrary (Some vs1) (lib_lastView library)
               (Some (is_checked (auto_apply_checkbox st)))
               (Some (currentText (vc_combo (auto_view_combo st)))))).
  { exists vs1. split; [done|]. split.
    - eapply same_keys_stripped; [done|]. apply HI.
    - eapply same_keys_unique; [done|]. apply HI. }
  split; [exact Hlib|]. split; [|split].
  - intros v Hname Hv.
    destruct (DialogClaims.persist_reachable st v HI Hname Hv)
      as (info & L & U & Hform & Hp' & _).
    exists info. split; [done|]. rewrite Hp in Hp'. by injection Hp' as ->.
  - intros Hn. rewrite (persist_none st Hn) in Hp. injection Hp as Hp.
    by rewrite Hp.
  - destruct (init_settled (gui st) _ (all_columns st) Hhost Hlib
                (settled_columns st HS))
      as (st' & Hinit & _ & _ & _ & _ & Hv & Hac & Hav & _).
    cbn [lib_views lib_autoApplyView lib_viewToApply] in Hv, Hac, Hav.
    injection Hv as Hv. exists st'. split; [exact Hinit|]. split; [done|].
    split. { rewrite Hac. apply DialogClaims.is_checked_of_bool. }
    cbv zeta.
    set (c := vc_combo (auto_view_combo st)).
    set (c' := vc_combo (auto_view_combo st')).
    set (cn := vc_combo (new_ViewComboBox (views st') true)).
    assert (Hitems : items cn = items c).
    { unfold cn, c, new_ViewComboBox. rewrite populate_combo_items.
      cbn [special app]. rewrite <- Hv, (sorted_keys_same_keys _ _ Hk).
      symmetry. apply (settled_auto st HS). }
    assert (Hc' : c' = if truthy (currentText c)
                       then setCurrentIndex (findText (currentText c) cn) cn
                       else if 0 <? count cn then setCurrentIndex 0 cn
                       else cn).
    { unfold c'. rewrite Hav. reflexivity. }
    assert (Hfind : findText (currentText c) cn = findText (currentText c) c).
    { unfold findText. by rewrite Hitems. }
    assert (Hcount : count cn = count c) by (unfold count; by rewrite Hitems).
    assert (Hfirst : items c !! 0%nat = Some LAST_VIEW_ITEM).
    { unfold c. by rewrite (settled_auto st HS). }
    rewrite Hc'. split; [|split].
    + by destruct (truthy (currentText c)); [|destruct (0 <? count cn)].
    + intros Ht. rewrite Ht.
      assert (Hin : currentText c ∈ items c).
      { destruct (currentText_elem c) as [Hempty|Hin]; [|done].
        by rewrite Hempty in Ht. }
      destruct (find_from_spec _ (items c) 0 Hin) as [Hr _].
      fold (findText (currentText c) c) in Hr.
      assert (Hidx : currentIndex (setCurrentIndex (findText (currentText c) cn)
                                                   cn) =
                     findText (currentText c) c).
      { unfold setCurrentIndex. cbn [currentIndex]. rewrite Hfind, Hcount.
        unfold count.
        replace (0 <=? findText (currentText c) c) with true
          by (symmetry; apply Z.leb_le; lia).
        replace (findText (currentText c) c <? Z.of_nat (length (items c)))
          with true by (symmetry; apply Z.ltb_lt; lia).
        done. }
      split; [apply currentText_find; by rewrite Hitems|].
      split; [exact Hidx|].
      intros Hlast. rewrite Hidx. apply findText_current; [|done].
      unfold c. rewrite (settled_auto st HS). apply NoDup_cons. split.
      * rewrite sorted_keys_elem, Hlast. by intros [? ?].
      * apply sorted_keys_NoDup.
    + intros Ht. rewrite Ht.
      assert (Hpos : (0 <? count cn) = true).
      { rewrite Hcount. apply Z.ltb_lt. unfold count.
        apply lookup_lt_Some in Hfirst. lia. }
      rewrite Hpos. split.
      * unfold setCurrentIndex. cbn [currentIndex]. by rewrite Hpos.
      * apply currentText_set; [done|]. by rewrite Hitems.
Qed.

(** X22. The dialog is opened on a well-formed record, in a host whose
    columns are named by their lookup names and whose saved searches
    have names without white space at either end, and the user does
    anything.  Then [save_settings] stores the form under the
    view being edited and hands [set_library_config] a record with the
    views, the state of the auto-apply box and the text of the auto-apply
    combo box, leaving [lastView] as it was.  Opening the dialog on that
    record never fails, and gives a dialog with the same views, the same
    auto-apply flag and an auto-apply combo box with the same entries.
    When the combo box showed a text that is not empty, the new one shows
    that text, at the first entry that carries it; this is the entry that
    was chosen when no view is named [LAST_VIEW_ITEM].  When it showed
    the empty text (the view of empty name chosen, or no entry), the new
    one is on its first entry, [LAST_VIEW_ITEM]. *)
Theorem save_settings_then_reopen (g : Gui) (library0 : library_config)
    (acts : list action) (st0 st : ConfigWidget) (library : library_config) :
  Forall (column_name_ok g) (column_map g) →
  Forall (λ s, strip s = s) (saved_searches g) →
  library_ok library0 →
  init g library0 = Ok st0 → run acts st0 = Ok st →
  ∃ st1 library',
    save_settings library st = Ok (st1, library') ∧
    lib_views library' = Some (views st1) ∧
    lib_lastView library' = lib_lastView library ∧
    lib_autoApplyView library' = Some (is_checked (auto_apply_checkbox st)) ∧
    lib_viewToApply library' =
      Some (currentText (vc_combo (auto_view_combo st))) ∧
    library_ok library' ∧
    (∀ v, view_name st = Some v → truthy v = true →
          ∃ info, form_selection st = Ok info ∧
                  views st1 = <[v := info]> (views st)) ∧
    (truthy_opt (view_name st) = false → views st1 = views st) ∧
    ∃ st',
      init (gui st) library' = Ok st' ∧
      views st' = views st1 ∧
      is_checked (auto_apply_checkbox st') =
        is_checked (auto_apply_checkbox st) ∧
      let c := vc_combo (auto_view_combo st) in
      let c' := vc_combo (auto_view_combo st') in
      items c' = items c ∧
      (truthy (currentText c) = true →
       currentText c' = currentText c ∧
       currentIndex c' = findText (currentText c) c ∧
       (views st !! LAST_VIEW_ITEM = None → currentIndex c' = currentIndex c)) ∧
      (truthy (currentText c) = false →
       currentIndex c' = 0 ∧ currentText c' = LAST_VIEW_ITEM).
Proof.
  intros Hcols Hss Hlib Hinit Hrun. apply save_settings_at.
  by eapply opened_reachable.
Qed.

Lemma save_settings_then_reopen_witness :
  ∃ st st1 library' st',
    example_run [AddView "Default" true; SetAutoApply Checked] = Ok st ∧
    save_settings default_library st = Ok (st1, library') ∧
    init (gui st) library' = Ok st' ∧
    views st' = views st1 ∧
    is_checked (auto_apply_checkbox st') = true.
Proof.
  destruct (example_run_succeeds [AddView "Default" true; SetAutoApply Checked])
    as (st & E & _).
  assert (Hauto : is_checked (auto_apply_checkbox st) = true).
  { rewrite (DialogClaims.read_off (λ s, is_checked (auto_apply_checkbox s))
               false _ _ E).
    vm_compute. reflexivity. }
  destruct (DialogClaims.example_run_init _ _ E) as (st0 & E0 & Erun).
  destruct (save_settings_then_reopen example_gui default_library _ st0 st
              default_library (proj1 DialogClaims.example_host_ok)
              (proj2 DialogClaims.example_host_ok)
              DialogClaims.default_library_ok E0 Erun)
    as (st1 & library' & Hsave & _ & _ & _ & _ & _ & _ & _ & st' & Hinit & Hv
        & Hac & _).
  exists st, st1, library', st'. split; [exact E|]. split; [exact Hsave|].
  split; [exact Hinit|]. split; [exact Hv|]. rewrite Hac. exact Hauto.
Defined.

(** The entry is not always the one that was chosen: with a view named
    [LAST_VIEW_ITEM] chosen for auto-apply, at index 1, the dialog opens
    again on index 0; with the view of empty name chosen, it opens again
    on [LAST_VIEW_ITEM]. *)
Lemma reopened_on_first_entry :
  (st ← example_run [AddView LAST_VIEW_ITEM true; ChooseAutoView 1] ;
   p ← save_settings default_library st ;
   st' ← init (gui st) p.2 ;
   Ok (items (vc_combo (auto_view_combo st)),
       currentIndex (vc_combo (auto_view_combo st)),
       currentIndex (vc_combo (auto_view_combo st')))) =
  Ok ([LAST_VIEW_ITEM; LAST_VIEW_ITEM], 1, 0) ∧
  (st ← example_run [AddView EmptyString true; ChooseAutoView 1] ;
   p ← save_settings default_library st ;
   st' ← init (gui st) p.2 ;
   Ok (items (vc_combo (auto_view_combo st)),
       currentIndex (vc_combo (auto_view_combo st)),
       currentText (vc_combo (auto_view_combo st)),
       currentIndex (vc_combo (auto_view_combo st')),
       currentText (vc_combo (auto_view_combo st')))) =
  Ok ([LAST_VIEW_ITEM; EmptyString], 1, EmptyString, 0, LAST_VIEW_ITEM).
Proof. split; vm_compute; reflexivity. Qed.

End Edits.
